(** * FaceDetector: the gallery store, the matcher and the capture loops

    A shallow embedding of [data_manager.py], [simple_data_manager.py],
    [recognize.py], [web_deploy.py], [register.py] and [simple_register.py],
    with the properties of the design document proved (or refuted) on it.

    Conventions of the model.
    - A Python call either returns or raises: [outcome].
    - The CSV file is the text of its rows in file order; [pd.read_csv]
      types the columns of that text and [to_csv] prints the typed cells
      back.  The pickle file is the dict it stores.  A file can also be
      absent, or cut short by a write that did not complete.
    - A file operation can fail; the failures to come are a schedule in the
      state.  Opening a file for writing and writing into it are two
      operations: the first empties the file, the second fills it.
    - The [id] column holds 64-bit integers, as the program writes them;
      [df['id'].max() + 1] is computed in [numpy.int64] and wraps around.
    - A Python [dict] keeps insertion order, so it is an association list
      whose update keeps the place of an existing key.
    - Distances, tolerances and confidences are real numbers: the IEEE
      doubles of numpy are idealised (no rounding, no NaN).  The floating
      point numbers of a table are exact decimals for the same reason.
    - [face_recognition], [numpy], [pandas] and [cv2] are libraries outside
      the repository; [face_distance], [compare_faces], [argmin], the type
      inference of [read_csv] and the number formatting of [to_csv] follow
      their documentation.  A frame is represented by what detection finds
      in it. *)

From Stdlib Require Import List ZArith Reals Lra Lia Bool String Ascii.
From Stdlib Require Import DecimalString Permutation Sorted.
Import ListNotations.

(** ** Python outcomes *)

Inductive exn : Type :=
| IOError
| IndexError
| ValueError
| TypeError
| EOFError
| EmptyDataError
| FileNotFoundError.

Inductive outcome (A : Type) : Type :=
| Ret (a : A)
| Raise (e : exn).

Arguments Ret {A} a.
Arguments Raise {A} e.

(** [xs[i]] on a Python list (non-negative index). *)
Definition py_index {A : Type} (xs : list A) (i : nat) : outcome A :=
  match nth_error xs i with
  | Some x => Ret x
  | None => Raise IndexError
  end.

(** ** Numeric helpers on reals *)

Definition Rleb (x y : R) : bool := if Rle_dec x y then true else false.
Definition Rltb (x y : R) : bool := if Rlt_dec x y then true else false.
Definition Reqb (x y : R) : bool := if Req_dec_T x y then true else false.

Definition encoding : Type := list R.

(** ** face_recognition and numpy *)

(** [np.linalg.norm(e - probe)] for one gallery row.  All encodings have the
    dimension of the embedding model, so the rows are paired coordinate by
    coordinate. *)
Definition euclidean (e probe : encoding) : R :=
  sqrt (fold_right Rplus 0%R
          (map (fun p => ((fst p - snd p) * (fst p - snd p))%R) (combine e probe))).

(** [face_recognition.face_distance(known, probe)] *)
Definition face_distance (known : list encoding) (probe : encoding) : list R :=
  map (fun e => euclidean e probe) known.

(** [face_recognition.compare_faces(known, probe, tolerance)]:
    [list(face_distance(known, probe) <= tolerance)] *)
Definition compare_faces (known : list encoding) (probe : encoding) (tol : R)
  : list bool :=
  map (fun d => Rleb d tol) (face_distance known probe).

(** [np.argmin]: the index of the first occurrence of the least value; the
    scan replaces the candidate only on a strictly smaller value. *)
Fixpoint argmin_from (best : nat) (dbest : R) (i : nat) (ds : list R) : nat :=
  match ds with
  | [] => best
  | d :: rest =>
      if Rltb d dbest then argmin_from i d (S i) rest
      else argmin_from best dbest (S i) rest
  end.

Definition argmin (ds : list R) : outcome nat :=
  match ds with
  | [] => Raise ValueError
  | d :: rest => Ret (argmin_from 0 d 1 rest)
  end.

(** [True in matches] *)
Definition True_in (matches : list bool) : bool := existsb (fun b => b) matches.

(** [numpy.int64] arithmetic: the result modulo 2^64, in [-2^63, 2^63). *)
Definition wrap64 (z : Z) : Z := ((z + 2 ^ 63) mod 2 ^ 64 - 2 ^ 63)%Z.

Definition int64b (z : Z) : bool := ((- 2 ^ 63 <=? z) && (z <? 2 ^ 63))%Z.

(** ** pandas: the cells of a table *)

(** A [float64] that is a number: sign, decimal digits and decimal
    exponent ([mantissa * 10 ^ exponent], with no trailing zero in the
    mantissa), or an infinity. *)
Inductive Float64 : Type :=
| Finite (negative : bool) (mantissa : N) (exponent : Z)
| Inf (negative : bool).

(** The value of a cell of a [DataFrame], and of an entry of the dict that
    [to_dict()] makes of a row: a Python [str], an integer, a float, the
    float [nan] that stands for a missing value, or a boolean. *)
Inductive Cell : Type :=
| Str (s : string)
| Int (z : Z)
| Float (x : Float64)
| NaN
| Bool (b : bool).

(** The dtype [read_csv] gives a column. *)
Inductive Kind : Type :=
| KInt
| KFloat
| KBool
| KObject.

(** The texts [read_csv] takes for a missing value (its default
    [na_values]). *)
Definition na_values : list string :=
  [""; "#N/A"; "#N/A N/A"; "#NA"; "-1.#IND"; "-1.#QNAN"; "-NaN"; "-nan";
   "1.#IND"; "1.#QNAN"; "<NA>"; "N/A"; "NA"; "NULL"; "NaN"; "None"; "n/a";
   "nan"; "null"]%string.

Definition is_na (s : string) : bool := existsb (String.eqb s) na_values.

Definition is_digit (c : ascii) : bool :=
  let n := nat_of_ascii c in ((48 <=? n) && (n <=? 57))%nat.

Definition digit_value (c : ascii) : N := N.of_nat (nat_of_ascii c - 48).

(** Space, tab, newline, vertical tab, form feed, carriage return. *)
Definition isspace_ascii (c : ascii) : bool :=
  let n := nat_of_ascii c in ((n =? 32) || ((9 <=? n) && (n <=? 13)))%nat.

Definition toupper_ascii (c : ascii) : ascii :=
  let n := nat_of_ascii c in
  if ((97 <=? n) && (n <=? 122))%nat then ascii_of_nat (n - 32) else c.

Fixpoint skip_spaces (s : string) : string :=
  match s with
  | EmptyString => EmptyString
  | String c rest => if isspace_ascii c then skip_spaces rest else s
  end.

(** An optional sign: whether it is a minus, and what follows it. *)
Definition scan_sign (s : string) : bool * string :=
  match s with
  | EmptyString => (false, s)
  | String c rest =>
      if Ascii.eqb c "-" then (true, rest)
      else if Ascii.eqb c "+" then (false, rest)
      else (false, s)
  end.

(** A run of digits read onto [acc]: the number, how many digits were
    read, and what follows them. *)
Fixpoint scan_digits (acc : N) (count : nat) (s : string) : N * nat * string :=
  match s with
  | EmptyString => (acc, count, s)
  | String c rest =>
      if is_digit c then scan_digits (acc * 10 + digit_value c) (S count) rest
      else (acc, count, s)
  end.

Definition signed (negative : bool) (n : N) : Z :=
  if negative then (- Z.of_N n)%Z else Z.of_N n.

(** The integer a text spells: spaces, a sign, digits, spaces. *)
Definition str_to_int (s : string) : option Z :=
  let '(negative, s1) := scan_sign (skip_spaces s) in
  let '(n, count, s2) := scan_digits 0 0 s1 in
  match count, skip_spaces s2 with
  | S _, EmptyString => Some (signed negative n)
  | _, _ => None
  end.

(** [mantissa * 10 ^ exponent] without the trailing zeros of the mantissa. *)
Fixpoint strip_zeros (fuel : nat) (mantissa : N) (exponent : Z) : N * Z :=
  match fuel with
  | O => (mantissa, exponent)
  | S fuel' =>
      if (mantissa =? 0)%N then (0%N, 0%Z)
      else if (mantissa mod 10 =? 0)%N
           then strip_zeros fuel' (mantissa / 10)%N (exponent + 1)%Z
           else (mantissa, exponent)
  end.

Definition finite (negative : bool) (mantissa : N) (exponent : Z) : Float64 :=
  let '(m, e) := strip_zeros (S (N.to_nat (N.log2 mantissa))) mantissa exponent in
  Finite negative m e.

Definition upper (s : string) : string :=
  string_of_list_ascii (map toupper_ascii (list_ascii_of_string s)).

(** The exponent part of a number, when there is one with digits. *)
Definition scan_exponent (s : string) : Z * string :=
  match s with
  | EmptyString => (0%Z, s)
  | String c rest =>
      if Ascii.eqb (toupper_ascii c) "E" then
        let '(negative, s1) := scan_sign rest in
        let '(n, count, s2) := scan_digits 0 0 s1 in
        match count with
        | O => (0%Z, s)
        | S _ => (signed negative n, s2)
        end
      else (0%Z, s)
  end.

(** The float a text spells: spaces, a sign, digits with an optional
    decimal point, an optional exponent, spaces; or an infinity by name. *)
Definition str_to_float (s : string) : option Float64 :=
  let '(negative, s1) := scan_sign (skip_spaces s) in
  let '(n1, count1, s2) := scan_digits 0 0 s1 in
  let '(n2, count2, s3) :=
    match s2 with
    | EmptyString => (n1, O, s2)
    | String c rest =>
        if Ascii.eqb c "." then scan_digits n1 0 rest else (n1, O, s2)
    end in
  let '(e, s4) := scan_exponent s3 in
  match (count1 + count2)%nat, skip_spaces s4 with
  | S _, EmptyString => Some (finite negative n2 (e - Z.of_nat count2))
  | _, _ =>
      let u := upper s in
      if (String.eqb u "INF" || String.eqb u "+INF" ||
          String.eqb u "INFINITY" || String.eqb u "+INFINITY")%bool
      then Some (Inf false)
      else if (String.eqb u "-INF" || String.eqb u "-INFINITY")%bool
      then Some (Inf true)
      else None
  end.

(** The boolean a text spells, in any case of letters. *)
Definition str_to_bool (s : string) : option bool :=
  let u := upper s in
  if String.eqb u "TRUE" then Some true
  else if String.eqb u "FALSE" then Some false
  else None.

Definition is_some {A : Type} (o : option A) : bool :=
  match o with
  | Some _ => true
  | None => false
  end.

Definition spells_int64 (s : string) : bool :=
  match str_to_int s with
  | Some z => int64b z
  | None => false
  end.

Definition spells_uint64 (s : string) : bool :=
  match str_to_int s with
  | Some z => ((0 <=? z) && (z <? 2 ^ 64))%Z
  | None => false
  end.

(** The dtype of a column from the texts of its cells.  The missing values
    are set aside; the numeric types are tried first, then the booleans;
    a column of integers with a missing value is a column of floats. *)
Definition column_kind (texts : list string) : Kind :=
  let present := filter (fun s => negb (is_na s)) texts in
  let missing := existsb is_na texts in
  if forallb spells_int64 present then (if missing then KFloat else KInt)
  else if forallb spells_uint64 present && negb missing then KInt
  else if forallb (fun s => is_some (str_to_int s)) present then KObject
  else if forallb (fun s => is_some (str_to_float s)) present then KFloat
  else if forallb (fun s => is_some (str_to_bool s)) present then KBool
  else KObject.

(** The cell of a text in a column of a given dtype. *)
Definition typed (k : Kind) (s : string) : Cell :=
  if is_na s then NaN
  else
    match k with
    | KInt => match str_to_int s with Some z => Int z | None => Str s end
    | KFloat => match str_to_float s with Some x => Float x | None => Str s end
    | KBool => match str_to_bool s with Some b => Bool b | None => Str s end
    | KObject => Str s
    end.

Definition digits (n : N) : string := NilZero.string_of_uint (N.to_uint n).

Fixpoint zeros (n : nat) : string :=
  match n with
  | O => EmptyString
  | S n' => String "0" (zeros n')
  end.

(** [repr] of a Python float: fixed notation when the decimal point falls
    within the digits or near them, scientific notation otherwise. *)
Definition float_repr (x : Float64) : string :=
  match x with
  | Inf negative => if negative then "-inf" else "inf"
  | Finite negative m e =>
      let sign := if negative then "-" else "" in
      if (m =? 0)%N then sign ++ "0.0"
      else
        let ds := digits m in
        let n := String.length ds in
        let decpt := (Z.of_nat n + e)%Z in
        if ((-4 <? decpt) && (decpt <=? 16))%Z then
          if (decpt <=? 0)%Z then
            sign ++ "0." ++ zeros (Z.to_nat (- decpt)) ++ ds
          else if (Z.of_nat n <=? decpt)%Z then
            sign ++ ds ++ zeros (Z.to_nat decpt - n) ++ ".0"
          else
            sign ++ substring 0 (Z.to_nat decpt) ds ++ "."
                 ++ substring (Z.to_nat decpt) (n - Z.to_nat decpt) ds
        else
          let ex := (decpt - 1)%Z in
          let exdigits := digits (Z.to_N (Z.abs ex)) in
          sign ++ substring 0 1 ds
               ++ (if (n =? 1)%nat then "" else "." ++ substring 1 (n - 1) ds)
               ++ "e" ++ (if (ex <? 0)%Z then "-" else "+")
               ++ (if (String.length exdigits =? 1)%nat then "0" else "")
               ++ exdigits
  end%string.

(** What [to_csv] prints for a cell; a missing value prints as nothing. *)
Definition cell_text (c : Cell) : string :=
  match c with
  | Str s => s
  | Int z => NilEmpty.string_of_int (Z.to_int z)
  | Float x => float_repr x
  | NaN => ""
  | Bool b => if b then "True" else "False"
  end%string.

(** ** The persisted gallery and the state of a data manager *)

(** The fields of a person: what a caller passes in [person_data], a line
    of the CSV file, or a row of a [DataFrame], by the type of the fields. *)
Record Person (A : Type) : Type := mkPerson {
  name : A;
  class_name : A;
  roll_number : A;
  email : A;
  phone : A;
  registration_date : A }.

Arguments mkPerson {A} _ _ _ _ _ _.
Arguments name {A} _.
Arguments class_name {A} _.
Arguments roll_number {A} _.
Arguments email {A} _.
Arguments phone {A} _.
Arguments registration_date {A} _.

(** The dict of strings a caller passes to [add_person]. *)
Definition PersonData : Type := Person string.

(** One row: the fields with their ['id']. *)
Record Row (A : Type) : Type := mkRow {
  id : Z;
  details : Person A }.

Arguments mkRow {A} _ _.
Arguments id {A} _.
Arguments details {A} _.

(** The rows of [person_details.csv] as text, in file order. *)
Definition CsvText : Type := list (Row string).

(** A [DataFrame] of typed cells. *)
Definition DataFrame : Type := list (Row Cell).

Definition column (field : Person string -> string) (t : CsvText) : list string :=
  map (fun r => field (details r)) t.

(** The dtypes of the six text columns of a table. *)
Definition kinds (t : CsvText) : Person Kind :=
  mkPerson (column_kind (column name t)) (column_kind (column class_name t))
           (column_kind (column roll_number t)) (column_kind (column email t))
           (column_kind (column phone t)) (column_kind (column registration_date t)).

Definition type_row (k : Person Kind) (r : Row string) : Row Cell :=
  mkRow (id r)
    (mkPerson (typed (name k) (name (details r)))
              (typed (class_name k) (class_name (details r)))
              (typed (roll_number k) (roll_number (details r)))
              (typed (email k) (email (details r)))
              (typed (phone k) (phone (details r)))
              (typed (registration_date k) (registration_date (details r)))).

(** What [pd.read_csv] makes of the text of a table: every column gets its
    dtype from all its cells. *)
Definition infer (t : CsvText) : DataFrame := map (type_row (kinds t)) t.

Definition print_row (r : Row Cell) : Row string :=
  mkRow (id r)
    (mkPerson (cell_text (name (details r))) (cell_text (class_name (details r)))
              (cell_text (roll_number (details r))) (cell_text (email (details r)))
              (cell_text (phone (details r)))
              (cell_text (registration_date (details r)))).

(** The text [to_csv] writes for a frame. *)
Definition render (df : DataFrame) : CsvText := map print_row df.

(** [pd.DataFrame([person_data])] once [person_data['id']] is set: one row
    of Python strings. *)
Definition new_row (person_id : Z) (person_data : PersonData) : Row Cell :=
  mkRow person_id
    (mkPerson (Str (name person_data)) (Str (class_name person_data))
              (Str (roll_number person_data)) (Str (email person_data))
              (Str (phone person_data)) (Str (registration_date person_data))).

(** [Dict[int, encoding]] in insertion order. *)
Definition Dict : Type := list (Z * encoding).

Fixpoint dict_set (k : Z) (v : encoding) (d : Dict) : Dict :=
  match d with
  | [] => [(k, v)]
  | (k', v') :: rest =>
      if (k =? k')%Z then (k', v) :: rest else (k', v') :: dict_set k v rest
  end.

Fixpoint dict_get (k : Z) (d : Dict) : option encoding :=
  match d with
  | [] => None
  | (k', v') :: rest => if (k =? k')%Z then Some v' else dict_get k rest
  end.

(** What the code prints. *)
Inductive Msg : Type :=
| NoRegisteredFaces
| Loaded (n : nat)
| ErrorLoadingKnownFaces
| ErrorLoadingEncodings
| ErrorSavingEncodings
| ErrorGettingNextId
| ErrorAddingPerson
| ErrorGettingPersonById
| RecognitionError
| NoRegisteredFacesRunRegister
| CouldNotOpenWebcam
| CouldNotReadFromWebcam
| ReloadingFaces
| ToleranceChangedTo (tol : R)
| StoppedByUser
| SystemStopped
| CameraNotAvailable (camera_index : Z)
| CouldNotReadFromCamera
| CaptureCancelled
| MaximumAttemptsReached
| ErrorDuringCapture
| FaceCaptureFailed.

(** A file on disk: not there, holding a value, or cut short: opened for
    writing and left without its content, so that reading it raises. *)
Inductive File (A : Type) : Type :=
| Absent
| Holds (a : A)
| Cut.

Arguments Absent {A}.
Arguments Holds {A} a.
Arguments Cut {A}.

Record State : Type := mkState {
  csv_file : File CsvText;    (* data/person_details.csv *)
  pkl_file : File Dict;       (* data/face_encodings.pkl *)
  encodings : Dict;           (* self.encodings *)
  faults : list bool;         (* the coming file operations: [true] raises *)
  stdout : list Msg }.

Definition M (A : Type) : Type := State -> outcome A * State.

Definition ret {A : Type} (a : A) : M A := fun s => (Ret a, s).

Definition bind {A B : Type} (m : M A) (k : A -> M B) : M B :=
  fun s =>
    match m s with
    | (Ret a, s') => k a s'
    | (Raise e, s') => (Raise e, s')
    end.

Notation "x <- m ;; k" := (bind m (fun x => k))
  (at level 61, m at next level, right associativity).
Notation "m ;;; k" := (bind m (fun _ => k))
  (at level 61, right associativity).

(** [try: m  except Exception as e: h] *)
Definition try_except {A : Type} (m : M A) (h : M A) : M A :=
  fun s =>
    match m s with
    | (Ret a, s') => (Ret a, s')
    | (Raise _, s') => h s'
    end.

Definition print (m : Msg) : M unit :=
  fun s => (Ret tt, mkState (csv_file s) (pkl_file s) (encodings s) (faults s)
                            (stdout s ++ [m])).

(** The next file operation takes its fate from the schedule; an exhausted
    schedule means no more failures. *)
Definition file_op : M unit :=
  fun s =>
    match faults s with
    | [] => (Ret tt, s)
    | b :: rest =>
        let s' := mkState (csv_file s) (pkl_file s) (encodings s) rest (stdout s) in
        if b then (Raise IOError, s') else (Ret tt, s')
    end.

Definition set_csv (f : File CsvText) : M unit :=
  fun s => (Ret tt, mkState f (pkl_file s) (encodings s) (faults s) (stdout s)).

Definition set_pkl (f : File Dict) : M unit :=
  fun s => (Ret tt, mkState (csv_file s) f (encodings s) (faults s) (stdout s)).

Definition set_encodings (d : Dict) : M unit :=
  fun s => (Ret tt, mkState (csv_file s) (pkl_file s) d (faults s) (stdout s)).

(** [pd.read_csv(self.csv_path)]: the typed frame of the text; a file that
    is not there or holds nothing cannot be parsed. *)
Definition read_csv : M DataFrame :=
  file_op ;;;
  (fun s =>
     match csv_file s with
     | Holds t => (Ret (infer t), s)
     | Cut => (Raise EmptyDataError, s)
     | Absent => (Raise FileNotFoundError, s)
     end).

(** [df.to_csv(self.csv_path, index=False)]: the file is opened for
    writing, which empties it, and then the text of the frame is written. *)
Definition to_csv (df : DataFrame) : M unit :=
  file_op ;;; set_csv Cut ;;;
  file_op ;;; set_csv (Holds (render df)).

(** [open(self.encodings_path, 'wb')] *)
Definition open_wb : M unit :=
  file_op ;;; set_pkl Cut.

(** [pickle.dump(self.encodings, f)] on the opened encodings file *)
Definition pickle_dump : M unit :=
  file_op ;;; (fun s => set_pkl (Holds (encodings s)) s).

(** [with open(self.encodings_path, 'rb') as f: return pickle.load(f)] on a
    file that exists *)
Definition pickle_load : M Dict :=
  file_op ;;;
  (fun s =>
     match pkl_file s with
     | Holds d => (Ret d, s)
     | _ => (Raise EOFError, s)
     end).

(** [df['id'].max()] on a frame with at least one row *)
Definition id_max {A : Type} (first : Row A) (rest : list (Row A)) : Z :=
  fold_left Z.max (map id rest) (id first).

(** [df[df['id'] == person_id]], then [iloc[0]] when it is not empty *)
Definition select_id {A : Type} (person_id : Z) (df : list (Row A)) : option (Row A) :=
  find (fun r => (id r =? person_id)%Z) df.

(** [1] on an empty frame, else [df['id'].max() + 1] in [numpy.int64] *)
Definition next_id_of {A : Type} (df : list (Row A)) : Z :=
  match df with
  | [] => 1%Z
  | r :: rest => wrap64 (id_max r rest + 1)
  end.

Module DataManager.

(** [_init_csv]: the header is written when the file is not there. *)
Definition _init_csv : M unit :=
  fun s =>
    match csv_file s with
    | Absent => to_csv [] s
    | _ => (Ret tt, s)
    end.

Definition _load_encodings : M Dict :=
  fun s =>
    match pkl_file s with
    | Absent => (Ret [], s)
    | _ => pickle_load s
    end.

Definition __init__ : M unit :=
  _init_csv ;;;
  d <- _load_encodings ;; set_encodings d.

Definition _save_encodings : M unit := open_wb ;;; pickle_dump.

Definition get_next_id : M Z :=
  df <- read_csv ;;
  match df with
  | [] => ret 1%Z
  | r :: rest => ret (wrap64 (id_max r rest + 1))
  end.

Definition add_person (person_data : PersonData) (face_encoding : encoding)
  : M Z :=
  person_id <- get_next_id ;;
  df <- read_csv ;;
  to_csv (df ++ [new_row person_id person_data]) ;;;
  (fun s => set_encodings (dict_set person_id face_encoding (encodings s)) s) ;;;
  _save_encodings ;;;
  ret person_id.

Definition get_person_by_id (person_id : Z) : M (option (Row Cell)) :=
  df <- read_csv ;;
  ret (select_id person_id df).

Definition get_all_encodings : M (list encoding * list Z) :=
  fun s => (Ret (map snd (encodings s), map fst (encodings s)), s).

Definition get_person_count : M nat :=
  fun s => (Ret (List.length (encodings s)), s).

End DataManager.

Module SimpleDataManager.

Definition _init_csv : M unit :=
  fun s =>
    match csv_file s with
    | Absent => to_csv [] s
    | _ => (Ret tt, s)
    end.

Definition _load_encodings : M Dict :=
  fun s =>
    match pkl_file s with
    | Absent => (Ret [], s)
    | _ => try_except pickle_load (print ErrorLoadingEncodings ;;; ret []) s
    end.

Definition __init__ : M unit :=
  _init_csv ;;;
  d <- _load_encodings ;; set_encodings d.

Definition _save_encodings : M unit :=
  try_except (open_wb ;;; pickle_dump) (print ErrorSavingEncodings).

Definition get_next_id : M Z :=
  try_except
    (df <- read_csv ;;
     match df with
     | [] => ret 1%Z
     | r :: rest => ret (wrap64 (id_max r rest + 1))
     end)
    (print ErrorGettingNextId ;;; ret 1%Z).

Definition add_person (person_data : PersonData) (face_encoding : encoding)
  : M Z :=
  try_except
    (person_id <- get_next_id ;;
     df <- read_csv ;;
     to_csv (df ++ [new_row person_id person_data]) ;;;
     (fun s => set_encodings (dict_set person_id face_encoding (encodings s)) s) ;;;
     _save_encodings ;;;
     ret person_id)
    (print ErrorAddingPerson ;;; ret (-1)%Z).

Definition get_person_by_id (person_id : Z) : M (option (Row Cell)) :=
  try_except
    (df <- read_csv ;;
     ret (select_id person_id df))
    (print ErrorGettingPersonById ;;; ret None).

Definition get_all_encodings : M (list encoding * list Z) :=
  fun s => (Ret (map snd (encodings s), map fst (encodings s)), s).

Definition get_person_count : M nat :=
  fun s => (Ret (List.length (encodings s)), s).

End SimpleDataManager.

(** ** Cameras and loops *)

(** What happens to camera handles, in order. *)
Inductive CamEvent : Type :=
| Open (camera_index : Z) (opened : bool)
| Release (camera_index : Z).

(** How a loop was left. *)
Inductive Exit : Type :=
| ReadFailed
| QuitKey
| KeyboardInterrupt
| Uncaught (e : exn).

(** A [while True] loop observed for a number of iterations: it has been
    left, or it is still going. *)
Inductive Loop (A : Type) : Type :=
| Exited (why : Exit) (a : A)
| Running (a : A).

Arguments Exited {A} why a.
Arguments Running {A} a.

(** ** recognize.py *)

(** [(top, right, bottom, left)] *)
Definition Box : Type := (Z * Z * Z * Z)%type.

(** A frame, as far as the pipeline looks at it: the faces that detection
    finds in the quarter-size image, each with the encoding computed for it. *)
Definition Frame : Type := list (Box * encoding).

(** [face_recognition.face_locations(rgb_small_frame)] *)
Definition face_locations (frame : Frame) : list Box := map fst frame.

(** [face_recognition.face_encodings(rgb_small_frame, face_locations)] *)
Definition face_encodings (frame : Frame) : list encoding := map snd frame.

(** [(name, class_name, roll_number, confidence)] *)
Definition FaceInfo : Type := (Cell * Cell * Cell * R)%type.

Definition unknown_info : FaceInfo :=
  (Str "Unknown Person", Str "Unknown", Str "Unknown", 0%R).

Definition obind {A B : Type} (o : outcome A) (k : A -> outcome B) : outcome B :=
  match o with
  | Ret a => k a
  | Raise e => Raise e
  end.

Module FaceRecognizer.

Record t : Type := mk {
  tolerance : R;
  known_encodings : list encoding;
  known_person_ids : list Z;
  known_names : list Cell;
  known_classes : list Cell;
  known_roll_numbers : list Cell }.

(** The body of [for person_id in self.known_person_ids]; the appended
    details stay when a later read raises. *)
Fixpoint load_details (ids : list Z) (self : t) (s : State)
  : outcome unit * t * State :=
  match ids with
  | [] => (Ret tt, self, s)
  | person_id :: rest =>
      match DataManager.get_person_by_id person_id s with
      | (Raise e, s') => (Raise e, self, s')
      | (Ret None, s') => load_details rest self s'
      | (Ret (Some row), s') =>
          load_details rest
            (mk (tolerance self) (known_encodings self) (known_person_ids self)
                (known_names self ++ [name (details row)])
                (known_classes self ++ [class_name (details row)])
                (known_roll_numbers self ++ [roll_number (details row)]))
            s'
      end
  end.

Definition load_known_faces (self : t) (s : State) : t * State :=
  match DataManager.get_all_encodings s with
  | (Raise _, s1) =>
      (mk (tolerance self) [] [] (known_names self) (known_classes self)
          (known_roll_numbers self),
       snd (print ErrorLoadingKnownFaces s1))
  | (Ret (encs, ids), s1) =>
      let self1 :=
        mk (tolerance self) encs ids
           (known_names self) (known_classes self) (known_roll_numbers self) in
      match known_encodings self1 with
      | [] => (self1, snd (print NoRegisteredFaces s1))
      | _ :: _ =>
          match load_details (known_person_ids self1) self1 s1 with
          | (Ret _, self2, s2) =>
              (self2, snd (print (Loaded (List.length (known_encodings self2))) s2))
          | (Raise _, self2, s2) =>
              (mk (tolerance self2) [] [] (known_names self2) (known_classes self2)
                  (known_roll_numbers self2),
               snd (print ErrorLoadingKnownFaces s2))
          end
      end
  end.

(** [FaceRecognizer(tolerance)] *)
Definition __init__ (tol : R) (s : State) : outcome t * State :=
  match DataManager.__init__ s with
  | (Raise e, s') => (Raise e, s')
  | (Ret _, s') =>
      let (self, s'') := load_known_faces (mk tol [] [] [] [] []) s' in
      (Ret self, s'')
  end.

(** One turn of [for face_encoding in face_encodings]: the tuple appended
    to [face_info]. *)
Definition recognize_face (self : t) (face_encoding : encoding)
  : outcome FaceInfo :=
  match known_encodings self with
  | [] => Ret unknown_info
  | _ :: _ =>
      let matches :=
        compare_faces (known_encodings self) face_encoding (tolerance self) in
      if True_in matches then
        let face_distances := face_distance (known_encodings self) face_encoding in
        obind (argmin face_distances) (fun best_match_index =>
        obind (py_index matches best_match_index) (fun m =>
        if m then
          obind (py_index face_distances best_match_index) (fun d =>
          obind (py_index (known_names self) best_match_index) (fun nm =>
          obind (py_index (known_classes self) best_match_index) (fun cl =>
          obind (py_index (known_roll_numbers self) best_match_index) (fun rn =>
          Ret (nm, cl, rn, (1 - d)%R)))))
        else Ret unknown_info))
      else Ret unknown_info
  end.

Fixpoint recognize_all (self : t) (encs : list encoding)
  : outcome (list FaceInfo) :=
  match encs with
  | [] => Ret []
  | e :: rest =>
      obind (recognize_face self e) (fun info =>
      obind (recognize_all self rest) (fun infos => Ret (info :: infos)))
  end.

Definition recognize_faces_in_frame (self : t) (frame : Frame)
  : outcome (list Box * list FaceInfo) :=
  obind (recognize_all self (face_encodings frame)) (fun face_info =>
  Ret (face_locations frame, face_info)).

Definition scale_up (b : Box) : Box :=
  let '(top, right', bottom, left') := b in
  (top * 4, right' * 4, bottom * 4, left' * 4)%Z.

(** What [draw_face_info] draws: one overlay for each pair of the [zip]. *)
Definition draw_face_info (locations : list Box) (face_info : list FaceInfo)
  : list (Box * FaceInfo) :=
  combine (map scale_up locations) face_info.

(** One iteration of the loop of [run_recognition] as its inputs: whether
    Ctrl-C arrives, what [cap.read()] gives, and [cv2.waitKey(1) & 0xFF]. *)
Record Tick : Type := mkTick {
  interrupt : bool;
  read_ok : bool;
  frame : Frame;
  key : Z }.

Record Session : Type := mkSession {
  recognizer : t;
  store : State;
  frame_count : nat;
  shown : list (list (Box * FaceInfo)) }.

Definition toggle (self : t) : t :=
  mk (if Reqb (tolerance self) (6 / 10)%R then (9 / 10)%R else (6 / 10)%R)
     (known_encodings self) (known_person_ids self) (known_names self)
     (known_classes self) (known_roll_numbers self).

(** [while True:] of [run_recognition], for at most [fuel] iterations from
    iteration [i].  The FPS text is left out. *)
Fixpoint recognition_loop (fuel : nat) (ticks : nat -> Tick) (i : nat)
    (ss : Session) : Loop Session :=
  match fuel with
  | O => Running ss
  | S fuel' =>
      let tk := ticks i in
      if interrupt tk then
        Exited KeyboardInterrupt
          (mkSession (recognizer ss) (snd (print StoppedByUser (store ss)))
                     (frame_count ss) (shown ss))
      else if negb (read_ok tk) then
        Exited ReadFailed
          (mkSession (recognizer ss) (snd (print CouldNotReadFromWebcam (store ss)))
                     (frame_count ss) (shown ss))
      else
        let drawn :=
          if (frame_count ss mod 2 =? 0)%nat then
            obind (recognize_faces_in_frame (recognizer ss) (frame tk))
              (fun r => Ret (draw_face_info (fst r) (snd r)))
          else Ret [] in
        match drawn with
        | Raise e => Exited (Uncaught e) ss
        | Ret overlays =>
            let count := S (frame_count ss) in
            let shown' := shown ss ++ [overlays] in
            if (key tk =? 113)%Z then
              Exited QuitKey (mkSession (recognizer ss) (store ss) count shown')
            else if (key tk =? 114)%Z then
              let (self', s') :=
                load_known_faces (recognizer ss)
                                 (snd (print ReloadingFaces (store ss))) in
              recognition_loop fuel' ticks (S i) (mkSession self' s' count shown')
            else if (key tk =? 116)%Z then
              let self' := toggle (recognizer ss) in
              recognition_loop fuel' ticks (S i)
                (mkSession self'
                   (snd (print (ToleranceChangedTo (tolerance self')) (store ss)))
                   count shown')
            else
              recognition_loop fuel' ticks (S i)
                (mkSession (recognizer ss) (store ss) count shown')
        end
  end.

Inductive Run : Type :=
| NoFaces (s : State)
| CameraUnavailable (s : State) (trace : list CamEvent)
| Streamed (l : Loop Session) (trace : list CamEvent).

(** [run_recognition]; [cams] tells which camera indices open.  The
    [finally] clause releases the camera once the loop is left. *)
Definition run_recognition (self : t) (cams : Z -> bool) (fuel : nat)
    (ticks : nat -> Tick) (s : State) : Run :=
  match known_encodings self with
  | [] => NoFaces (snd (print NoRegisteredFacesRunRegister s))
  | _ :: _ =>
      if negb (cams 0%Z) then
        CameraUnavailable (snd (print CouldNotOpenWebcam s)) [Open 0 false]
      else
        match recognition_loop fuel ticks 0 (mkSession self s 0 []) with
        | Exited why ss =>
            Streamed
              (Exited why
                 (mkSession (recognizer ss) (snd (print SystemStopped (store ss)))
                            (frame_count ss) (shown ss)))
              [Open 0 true; Release 0]
        | Running ss => Streamed (Running ss) [Open 0 true]
        end
  end.

End FaceRecognizer.

(** ** web_deploy.py *)

Module WebDeploy.

Definition name_of (person_data : option (Row Cell)) : Cell :=
  match person_data with
  | Some row => name (details row)
  | None => Str "Unknown"
  end.

(** The name chosen for one face encoding; the tolerance is the literal 0.6. *)
Definition name_for (known_encodings : list encoding) (known_person_ids : list Z)
    (face_encoding : encoding) (s : State) : outcome Cell * State :=
  let matches := compare_faces known_encodings face_encoding (6 / 10)%R in
  if True_in matches then
    let face_distances := face_distance known_encodings face_encoding in
    match argmin face_distances with
    | Raise e => (Raise e, s)
    | Ret best_match_index =>
        match py_index matches best_match_index with
        | Raise e => (Raise e, s)
        | Ret true =>
            match py_index known_person_ids best_match_index with
            | Raise e => (Raise e, s)
            | Ret pid =>
                match DataManager.get_person_by_id pid s with
                | (Raise e, s') => (Raise e, s')
                | (Ret person_data, s') => (Ret (name_of person_data), s')
                end
            end
        | Ret false => (Ret (Str "Unknown Person"), s)
        end
    end
  else (Ret (Str "Unknown Person"), s).

(** The inner loop [for (top, right, bottom, left) in face_locations]: a
    rectangle at each location and the text [name] under it.  An overlay is
    a rectangle with the text under it.  [cv2.putText] takes a [str]: with
    a name of another type it raises once the rectangle of the first
    location is drawn, which is then an overlay with no text. *)
Definition draw_name (locations : list Box) (name : Cell)
  : outcome unit * list (Box * string) :=
  match name with
  | Str text => (Ret tt, map (fun loc => (loc, text)) locations)
  | _ =>
      match locations with
      | [] => (Ret tt, [])
      | loc :: _ => (Raise TypeError, [(loc, EmptyString)])
      end
  end.

(** The outer loop; for each encoding the inner loop draws every location
    with that encoding's name.  The overlays drawn before an exception
    stay on the frame. *)
Fixpoint draw_faces (known_encodings : list encoding) (known_person_ids : list Z)
    (locations : list Box) (encs : list encoding) (drawn : list (Box * string))
    (s : State) : outcome unit * list (Box * string) * State :=
  match encs with
  | [] => (Ret tt, drawn, s)
  | face_encoding :: rest =>
      match name_for known_encodings known_person_ids face_encoding s with
      | (Raise e, s') => (Raise e, drawn, s')
      | (Ret nm, s') =>
          match draw_name locations nm with
          | (Raise e, new) => (Raise e, drawn ++ new, s')
          | (Ret _, new) =>
              draw_faces known_encodings known_person_ids locations rest
                (drawn ++ new) s'
          end
      end
  end.

(** The overlays on the frame that [recognize_faces_in_frame] returns. *)
Definition recognize_faces_in_frame (frame : Frame) (s : State)
  : list (Box * string) * State :=
  match DataManager.get_all_encodings s with
  | (Raise _, s1) => ([], snd (print RecognitionError s1))
  | (Ret (known_encodings, known_person_ids), s1) =>
      match known_encodings with
      | [] => ([], s1)
      | _ :: _ =>
          let locations := map FaceRecognizer.scale_up (face_locations frame) in
          match draw_faces known_encodings known_person_ids locations
                  (face_encodings frame) [] s1 with
          | (Ret _, drawn, s') => (drawn, s')
          | (Raise _, drawn, s') => (drawn, snd (print RecognitionError s'))
          end
      end
  end.

(** One iteration of [generate_frames] as its inputs: what [camera.read()]
    gives and whether [cv2.imencode] succeeds. *)
Record Tick : Type := mkTick {
  read_ok : bool;
  frame : Frame;
  encode_ok : bool }.

(** [generate_frames], for at most [fuel] iterations from iteration [i]:
    the frames yielded so far, each as the overlays drawn on it. *)
Fixpoint generate_frames (fuel : nat) (ticks : nat -> Tick) (i : nat)
    (s : State) (yielded : list (list (Box * string)))
  : Loop (list (list (Box * string)) * State) :=
  match fuel with
  | O => Running (yielded, s)
  | S fuel' =>
      let tk := ticks i in
      if negb (read_ok tk) then generate_frames fuel' ticks (S i) s yielded
      else
        let (drawn, s') := recognize_faces_in_frame (frame tk) s in
        if negb (encode_ok tk) then generate_frames fuel' ticks (S i) s' yielded
        else generate_frames fuel' ticks (S i) s' (yielded ++ [drawn])
  end.

End WebDeploy.

(** ** register.py *)

Module Register.

(** One iteration of the capture loop as its inputs: what [cap.read()]
    gives, what detection and encoding return or raise on the frame, and
    [cv2.waitKey(1) & 0xFF]. *)
Record Tick : Type := mkTick {
  read_ok : bool;
  locations : outcome (list Box);
  encs : outcome (list encoding);
  key : Z }.

Definition max_attempts : nat := 100.

(** [while capture_attempts < max_attempts:] with
    [remaining = max_attempts - capture_attempts]; returns what
    [capture_from_webcam] returns, what it prints and the number of
    iterations entered. *)
Fixpoint capture_loop (remaining : nat) (ticks : nat -> Tick) (i : nat)
  : option encoding * list Msg * nat :=
  match remaining with
  | O => (None, [MaximumAttemptsReached], O)
  | S remaining' =>
      let tk := ticks i in
      let again :=
        let '(r, out, n) := capture_loop remaining' ticks (S i) in (r, out, S n) in
      if negb (read_ok tk) then (None, [CouldNotReadFromCamera], 1%nat)
      else
        match locations tk with
        | Raise _ => (None, [ErrorDuringCapture], 1%nat)
        | Ret locs =>
            if (key tk =? 32)%Z then
              match locs with
              | [] => again
              | _ :: _ =>
                  match encs tk with
                  | Ret (e :: _) => (Some e, [], 1%nat)
                  | Ret [] => again
                  | Raise _ => again
                  end
              end
            else if (key tk =? 27)%Z then (None, [CaptureCancelled], 1%nat)
            else again
        end
  end.

(** [capture_from_webcam(camera_index)]; [feed] gives each camera's
    iterations.  The [finally] clause releases the handle on every path. *)
Definition capture_from_webcam (cams : Z -> bool) (feed : Z -> nat -> Tick)
    (camera_index : Z) : option encoding * list Msg * nat * list CamEvent :=
  if negb (cams camera_index) then
    (None, [CameraNotAvailable camera_index], O,
     [Open camera_index false; Release camera_index])
  else
    let '(r, out, n) := capture_loop max_attempts (feed camera_index) 0 in
    (r, out, n, [Open camera_index true; Release camera_index]).

(** [for camera_index in [0, 1, 2]:] of [capture_face_encoding] *)
Fixpoint try_cameras (cams : Z -> bool) (feed : Z -> nat -> Tick)
    (indices : list Z) : option encoding * list Msg * list CamEvent :=
  match indices with
  | [] => (None, [FaceCaptureFailed], [])
  | camera_index :: rest =>
      let '(r, out, _, trace) := capture_from_webcam cams feed camera_index in
      match r with
      | Some e => (Some e, out, trace)
      | None =>
          let '(r', out', trace') := try_cameras cams feed rest in
          (r', out ++ out', trace ++ trace')
      end
  end.

Definition capture_face_encoding (cams : Z -> bool) (feed : Z -> nat -> Tick)
  : option encoding * list Msg * list CamEvent :=
  try_cameras cams feed [0; 1; 2]%Z.

End Register.

(** ** simple_register.py *)

(** What the functions below print (banners and prompts are left out). *)
Inductive Note : Type :=
| CameraIsWorking (camera_index : Z)
| CameraCannotReadFrames (camera_index : Z)
| CameraIsNotAvailable (camera_index : Z)
| NoWorkingCameraFound
| ErrorSavingData
| NameIsRequired
| ClassIsRequired
| RollNumberIsRequired
| RegistrationCancelled
| CouldNotCaptureFace
| RegistrationSuccessful (person_id : Z)
| ErrorDuringRegistration.

Module SimpleRegister.

(** [for camera_index in [0, 1, 2]:] of [test_camera]; [cams] tells which
    indices open and [reads] on which of them the first read gives a frame.
    A handle that opened is released right after its read; one that did not
    open is left as it is. *)
Fixpoint test_cameras (cams reads : Z -> bool) (indices : list Z)
  : option Z * list Note * list CamEvent :=
  match indices with
  | [] => (None, [NoWorkingCameraFound], [])
  | camera_index :: rest =>
      if cams camera_index then
        if reads camera_index then
          (Some camera_index, [CameraIsWorking camera_index],
           [Open camera_index true; Release camera_index])
        else
          let '(r, out, trace) := test_cameras cams reads rest in
          (r, CameraCannotReadFrames camera_index :: out,
           Open camera_index true :: Release camera_index :: trace)
      else
        let '(r, out, trace) := test_cameras cams reads rest in
        (r, CameraIsNotAvailable camera_index :: out,
         Open camera_index false :: trace)
  end.

Definition test_camera (cams reads : Z -> bool)
  : option Z * list Note * list CamEvent :=
  test_cameras cams reads [0; 1; 2]%Z.

(** One iteration of the capture loop of simple_register.py is a
    [Register.Tick]; an exception of the detection is caught there and
    stands for no face. *)
Definition max_attempts : nat := 300.

(** [while capture_attempts < max_attempts:] of [capture_face_encoding],
    with [remaining = max_attempts - capture_attempts]: what is returned
    and the number of iterations entered. *)
Fixpoint capture_loop (remaining : nat) (ticks : nat -> Register.Tick) (i : nat)
  : option encoding * nat :=
  match remaining with
  | O => (None, O)
  | S remaining' =>
      let tk := ticks i in
      let again :=
        let '(r, n) := capture_loop remaining' ticks (S i) in (r, S n) in
      if negb (Register.read_ok tk) then (None, 1%nat)
      else
        let face_locations :=
          match Register.locations tk with
          | Ret locs => locs
          | Raise _ => []
          end in
        if (Register.key tk =? 32)%Z then
          match face_locations with
          | [] => again
          | _ :: _ =>
              match Register.encs tk with
              | Ret (e :: _) => (Some e, 1%nat)
              | Ret [] => again
              | Raise _ => again
              end
          end
        else if (Register.key tk =? 27)%Z then (None, 1%nat)
        else again
  end.

(** The two files of [save_person_data], the failures to come of its file
    operations, and what it printed. *)
Record Disk : Type := mkDisk {
  csv : File CsvText;
  pkl : File Dict;
  failing : list bool;
  notes : list Note }.

(** The next file operation takes its fate from the schedule. *)
Definition disk_op (d : Disk) : outcome unit * Disk :=
  match failing d with
  | [] => (Ret tt, d)
  | b :: rest =>
      let d' := mkDisk (csv d) (pkl d) rest (notes d) in
      if b then (Raise IOError, d') else (Ret tt, d')
  end.

(** [pd.read_csv(csv_path)] when [os.path.exists(csv_path)]. *)
Definition read_csv_if_exists (d : Disk) : outcome (option DataFrame) * Disk :=
  match csv d with
  | Absent => (Ret None, d)
  | Holds t =>
      match disk_op d with
      | (Ret _, d') => (Ret (Some (infer t)), d')
      | (Raise ex, d') => (Raise ex, d')
      end
  | Cut =>
      match disk_op d with
      | (Ret _, d') => (Raise EmptyDataError, d')
      | (Raise ex, d') => (Raise ex, d')
      end
  end.

(** [df.to_csv(csv_path, index=False)]: open, which empties the file, then
    write. *)
Definition disk_to_csv (df : DataFrame) (d : Disk) : outcome unit * Disk :=
  match disk_op d with
  | (Raise ex, d1) => (Raise ex, d1)
  | (Ret _, d1) =>
      match disk_op (mkDisk Cut (pkl d1) (failing d1) (notes d1)) with
      | (Raise ex, d2) => (Raise ex, d2)
      | (Ret _, d2) =>
          (Ret tt, mkDisk (Holds (render df)) (pkl d2) (failing d2) (notes d2))
      end
  end.

(** [pickle.load] of the encodings file when it exists, else [{}]. *)
Definition load_if_exists (d : Disk) : outcome Dict * Disk :=
  match pkl d with
  | Absent => (Ret [], d)
  | Holds encs =>
      match disk_op d with
      | (Ret _, d') => (Ret encs, d')
      | (Raise ex, d') => (Raise ex, d')
      end
  | Cut =>
      match disk_op d with
      | (Ret _, d') => (Raise EOFError, d')
      | (Raise ex, d') => (Raise ex, d')
      end
  end.

(** [with open(encodings_path, 'wb') as f: pickle.dump(encodings, f)] *)
Definition disk_dump (encs : Dict) (d : Disk) : outcome unit * Disk :=
  match disk_op d with
  | (Raise ex, d1) => (Raise ex, d1)
  | (Ret _, d1) =>
      match disk_op (mkDisk (csv d1) Cut (failing d1) (notes d1)) with
      | (Raise ex, d2) => (Raise ex, d2)
      | (Ret _, d2) =>
          (Ret tt, mkDisk (csv d2) (Holds encs) (failing d2) (notes d2))
      end
  end.

(** The body of the [try] of [save_person_data]. *)
Definition save_body (person_data : PersonData) (face_encoding : encoding)
    (d : Disk) : outcome Z * Disk :=
  (* Get next ID *)
  match read_csv_if_exists d with
  | (Raise ex, d1) => (Raise ex, d1)
  | (Ret found, d1) =>
      let person_id :=
        match found with
        | Some (r :: rest) => wrap64 (id_max r rest + 1)
        | Some [] => 1%Z
        | None => 1%Z
        end in
      (* Save to CSV *)
      match read_csv_if_exists d1 with
      | (Raise ex, d2) => (Raise ex, d2)
      | (Ret found2, d2) =>
          let df :=
            match found2 with
            | Some df0 => df0 ++ [new_row person_id person_data]
            | None => [new_row person_id person_data]
            end in
          match disk_to_csv df d2 with
          | (Raise ex, d3) => (Raise ex, d3)
          | (Ret _, d3) =>
              (* Save face encoding *)
              match load_if_exists d3 with
              | (Raise ex, d4) => (Raise ex, d4)
              | (Ret encs, d4) =>
                  match disk_dump (dict_set person_id face_encoding encs) d4 with
                  | (Raise ex, d5) => (Raise ex, d5)
                  | (Ret _, d5) => (Ret person_id, d5)
                  end
              end
          end
      end
  end.

(** [save_person_data]: the id, or [None] after printing when anything in
    the body raised. *)
Definition save_person_data (person_data : PersonData) (face_encoding : encoding)
    (d : Disk) : option Z * Disk :=
  match save_body person_data face_encoding d with
  | (Ret person_id, d') => (Some person_id, d')
  | (Raise _, d') =>
      (None, mkDisk (csv d') (pkl d') (failing d') (notes d' ++ [ErrorSavingData]))
  end.

End SimpleRegister.

(** ** web_deploy.py: the shared camera *)

Module WebCamera.

(** [init_camera()]; the global [camera] is [None] before the first use and
    afterwards the handle, which opened or not.  [opens] tells whether
    index 0 opens at the time of the call. *)
Definition init_camera (opens : bool) (camera : option bool)
  : option bool * list CamEvent :=
  match camera with
  | None => (Some opens, [Open 0 opens])
  | Some handle => (Some handle, [])
  end.

(** [get_frame()], inside the lock; a handle that did not open reads no
    frame.  [read_ok] and [frame] are what a read of an open camera gives. *)
Definition get_frame (opens read_ok : bool) (frame : Frame) (camera : option bool)
  : option Frame * option bool * list CamEvent :=
  let '(camera', trace) :=
    match camera with
    | None => init_camera opens camera
    | Some _ => (camera, [])
    end in
  let ret :=
    match camera' with
    | Some true => read_ok
    | _ => false
    end in
  if negb ret then (None, camera', trace) else (Some frame, camera', trace).

End WebCamera.

(** ** data_manager.py: capture *)

Module DataManagerCapture.

(** How [_capture_from_webcam] stands: it returned an encoding, it returned
    [None], an exception of the face library escaped, or it is still in its
    loop. *)
Inductive Capture : Type :=
| Encoding (e : encoding)
| Nothing
| Escaped (ex : exn)
| Capturing.

(** [while True:] of [_capture_from_webcam] for at most [fuel] iterations,
    with the camera events of the loop and of what follows it:
    [cap.release()] is called before [return face_encodings[0]] and after
    the loop, on no other path. *)
Fixpoint capture_loop (fuel : nat) (ticks : nat -> Register.Tick) (i : nat)
  : Capture * list CamEvent :=
  match fuel with
  | O => (Capturing, [])
  | S fuel' =>
      let tk := ticks i in
      if negb (Register.read_ok tk) then (Nothing, [Release 0])
      else
        match Register.locations tk with
        | Raise ex => (Escaped ex, [])
        | Ret locs =>
            if (Register.key tk =? 32)%Z then
              match locs with
              | [] => capture_loop fuel' ticks (S i)
              | _ :: _ =>
                  match Register.encs tk with
                  | Raise ex => (Escaped ex, [])
                  | Ret (e :: _) => (Encoding e, [Release 0])
                  | Ret [] => capture_loop fuel' ticks (S i)
                  end
              end
            else if (Register.key tk =? 27)%Z then (Nothing, [Release 0])
            else capture_loop fuel' ticks (S i)
        end
  end.

Definition _capture_from_webcam (cams : Z -> bool) (fuel : nat)
    (ticks : nat -> Register.Tick) : Capture * list CamEvent :=
  if negb (cams 0%Z) then (Nothing, [Open 0 false])
  else
    let (r, trace) := capture_loop fuel ticks 0 in
    (r, Open 0 true :: trace).

End DataManagerCapture.

(** ** register.py: the registration dialogue *)

Module RegisterFlow.

Section Dialogue.

(** [str.strip] and [str.lower], builtins of Python. *)
Variable strip : string -> string.
Variable lower : string -> string.

(** The lines the operator is going to type. *)
Definition Console : Type := list string.

(** [input(prompt)]: the next line, or [None] when the input is closed
    (Python raises [EOFError]). *)
Definition input (c : Console) : option string * Console :=
  match c with
  | [] => (None, [])
  | line :: rest => (Some line, rest)
  end.

Definition is_empty (s : string) : bool :=
  match s with
  | EmptyString => true
  | String _ _ => false
  end.

(** What [get_person_details] does: it returns the dict, returns [None]
    after a message, or is interrupted by the closed input. *)
Inductive Details : Type :=
| Filled (person_data : PersonData)
| Missing (why : Note)
| Closed.

(** [get_person_details()]; [now] is
    [datetime.now().strftime("%Y-%m-%d %H:%M:%S")]. *)
Definition get_person_details (now : string) (c : Console) : Details * Console :=
  match input c with
  | (None, c1) => (Closed, c1)
  | (Some line1, c1) =>
      if is_empty (strip line1) then (Missing NameIsRequired, c1)
      else
        match input c1 with
        | (None, c2) => (Closed, c2)
        | (Some line2, c2) =>
            if is_empty (strip line2) then (Missing ClassIsRequired, c2)
            else
              match input c2 with
              | (None, c3) => (Closed, c3)
              | (Some line3, c3) =>
                  if is_empty (strip line3) then (Missing RollNumberIsRequired, c3)
                  else
                    match input c3 with
                    | (None, c4) => (Closed, c4)
                    | (Some line4, c4) =>
                        match input c4 with
                        | (None, c5) => (Closed, c5)
                        | (Some line5, c5) =>
                            (Filled (mkPerson (strip line1) (strip line2) (strip line3)
                                              (strip line4) (strip line5) now),
                             c5)
                        end
                    end
              end
        end
  end.

Record Outcome : Type := mkOutcome {
  ok : bool;                       (* the value returned *)
  console : Console;               (* the lines not read *)
  state : State;
  printed : list Note;
  capture_printed : list Msg;      (* what capture_face_encoding printed *)
  cameras : list CamEvent }.

(** [register_person()].  The line read before the capture is the
    "Press ENTER when ready" prompt of [capture_face_encoding]; a closed
    input or an exception of the store ends in [except Exception]. *)
Definition register_person (now : string) (cams : Z -> bool)
    (feed : Z -> nat -> Register.Tick) (c : Console) (s : State) : Outcome :=
  match get_person_details now c with
  | (Closed, c1) => mkOutcome false c1 s [ErrorDuringRegistration] [] []
  | (Missing why, c1) => mkOutcome false c1 s [why] [] []
  | (Filled person_data, c1) =>
      match input c1 with
      | (None, c2) => mkOutcome false c2 s [ErrorDuringRegistration] [] []
      | (Some confirm, c2) =>
          if negb (String.eqb (strip (lower confirm)) "y") then
            mkOutcome false c2 s [RegistrationCancelled] [] []
          else
            match input c2 with
            | (None, c3) => mkOutcome false c3 s [ErrorDuringRegistration] [] []
            | (Some _, c3) =>
                let '(captured, out, trace) :=
                  Register.capture_face_encoding cams feed in
                match captured with
                | None => mkOutcome false c3 s [CouldNotCaptureFace] out trace
                | Some face_encoding =>
                    match (DataManager.__init__ ;;;
                           DataManager.add_person person_data face_encoding) s with
                    | (Ret person_id, s') =>
                        mkOutcome true c3 s' [RegistrationSuccessful person_id]
                                  out trace
                    | (Raise _, s') =>
                        mkOutcome false c3 s' [ErrorDuringRegistration] out trace
                    end
                end
            end
      end
  end.

End Dialogue.

End RegisterFlow.
(** * Vocabulary of the statements *)

Import FaceRecognizer.

(** [k] is the first position of the least value [d] of [ds]. *)
Definition first_min (ds : list R) (k : nat) (d : R) : Prop :=
  nth_error ds k = Some d /\
  (forall j dj, nth_error ds j = Some dj -> (d <= dj)%R) /\
  (forall j dj, (j < k)%nat -> nth_error ds j = Some dj -> (d < dj)%R).

(** The lists of names, classes and roll numbers run parallel to the list of
    encodings. *)
Definition parallel (self : FaceRecognizer.t) : Prop :=
  List.length (known_names self) = List.length (known_encodings self) /\
  List.length (known_classes self) = List.length (known_encodings self) /\
  List.length (known_roll_numbers self) = List.length (known_encodings self).

(** [m] is the greatest element of [l]. *)
Definition is_max (m : Z) (l : list Z) : Prop :=
  In m l /\ forall x, In x l -> (x <= m)%Z.

(** A 64-bit signed integer. *)
Definition int64 (z : Z) : Prop := (- 2 ^ 63 <= z < 2 ^ 63)%Z.

(** The next file operation succeeds. *)
Definition next_ok (s : State) : Prop := hd false (faults s) = false.

(** A state without failures to come. *)
Definition reliable (s : State) : Prop := faults s = [].

(** The rows of a table file, none when it is absent or cut short. *)
Definition rows_of (file : File CsvText) : CsvText :=
  match file with
  | Holds t => t
  | _ => []
  end.

(** The dict of an encodings file, empty when it is absent or cut short. *)
Definition dict_of (file : File Dict) : Dict :=
  match file with
  | Holds d => d
  | _ => []
  end.

(** The text of the table of a state. *)
Definition lines (s : State) : CsvText := rows_of (csv_file s).

(** The ids of a table are 64-bit integers and leave room for [n] more
    above the greatest of them. *)
Definition room_for {A : Type} (n : nat) (t : list (Row A)) : Prop :=
  forall x, In x t -> (- 2 ^ 63 <= id x /\ id x + Z.of_nat n < 2 ^ 63)%Z.

(** The table file holds a table. *)
Definition readable (s : State) : Prop := csv_file s = Holds (lines s).

(** The table as [read_csv] returns it. *)
Definition table (s : State) : DataFrame := infer (lines s).

(** The text of a table once pandas has read it and written it back. *)
Definition rewritten (t : CsvText) : CsvText := render (infer t).

(** A text that [read_csv] leaves as it is in any column: not a missing
    value, not a number, not a boolean. *)
Definition keeps_text (s : string) : bool :=
  negb (is_na s) && negb (is_some (str_to_int s)) &&
  negb (is_some (str_to_float s)) && negb (is_some (str_to_bool s)).

(** How a field written as [field] comes back from the table: as the same
    text when [read_csv] keeps it as text, as a missing value when it takes
    it for one. *)
Definition read_back (field : string) (got : Cell) : Prop :=
  (keeps_text field = true -> got = Str field) /\
  (is_na field = true -> got = NaN).

(** Enrolling a list of people, one [add_person] after the other. *)
Fixpoint enroll (people : list (PersonData * encoding)) : M (list Z) :=
  match people with
  | [] => ret []
  | (r, e) :: rest =>
      pid <- DataManager.add_person r e ;;
      pids <- enroll rest ;;
      ret (pid :: pids)
  end.

(** The ids 1, 2, ..., [n]. *)
Definition ids_1_to (n : nat) : list Z := map Z.of_nat (seq 1 n).

(** The rows of the ids that have one, in the order of the ids. *)
Fixpoint found_rows (ids : list Z) (df : DataFrame) : list (Row Cell) :=
  match ids with
  | [] => []
  | pid :: rest =>
      match select_id pid df with
      | Some row => row :: found_rows rest df
      | None => found_rows rest df
      end
  end.

(** The state after printing [m]. *)
Definition say (m : Msg) (s : State) : State :=
  mkState (csv_file s) (pkl_file s) (encodings s) (faults s) (stdout s ++ [m]).





(** * Example inputs *)

(** A gallery of two people, for the examples. *)
Definition gallery_two : FaceRecognizer.t :=
  FaceRecognizer.mk (6 / 10)%R
    [[0; 0]; [10; 10]]%R [1; 2]%Z
    [Str "Asha"; Str "Bela"] [Str "CS"; Str "EE"] [Str "R1"; Str "R2"].

(** Two enrolled encodings that are equal, so at the same distance from
    every probe. *)
Definition gallery_twins : FaceRecognizer.t :=
  FaceRecognizer.mk (6 / 10)%R
    [[0; 0]; [0; 0]]%R [1; 2]%Z
    [Str "Asha"; Str "Bela"] [Str "CS"; Str "EE"] [Str "R1"; Str "R2"].

Definition asha : PersonData :=
  (mkPerson "Asha" "CS" "R1" "asha@example.org" "" "2024-01-01 10:00:00")%string.

Definition bela : PersonData :=
  (mkPerson "Bela" "EE" "R2" "" "555" "2024-01-02 11:00:00")%string.

Definition chen : PersonData :=
  (mkPerson "Chen" "ME" "R3" "" "" "2024-01-03 12:00:00")%string.

(** A student whose roll number is written with leading zeros. *)
Definition dev : PersonData :=
  (mkPerson "Dev" "CS" "007" "dev@example.org" "" "2024-01-04 13:00:00")%string.

(** A table whose rows are not in id order. *)
Definition store_out_of_order : State :=
  mkState (Holds [mkRow 3 chen; mkRow 1 asha; mkRow 2 bela]) Absent [] [] [].

Definition store_empty : State := mkState (Holds []) Absent [] [] [].

(** A table whose greatest id is the greatest 64-bit integer. *)
Definition store_last_id : State :=
  mkState (Holds [mkRow 1 asha; mkRow (2 ^ 63 - 1) bela]) Absent [] [] [].

(** An empty store in which the sixth file operation fails: the two reads
    and the write of the table succeed, the encodings file is opened, and
    [pickle.dump] raises. *)
Definition store_dump_fails : State :=
  mkState (Holds []) Absent [] [false; false; false; false; false; true] [].

(** The same for [save_person_data] of simple_register.py. *)
Definition disk_dump_fails : SimpleRegister.Disk :=
  SimpleRegister.mkDisk (Holds []) Absent [false; false; false; false; false; true] [].


Definition fresh_recognizer : FaceRecognizer.t :=
  FaceRecognizer.mk (6 / 10)%R [] [] [] [] [].

(** One encoding and its row. *)
Definition store_consistent : State :=
  mkState (Holds [mkRow 1 asha]) (Holds [(1%Z, [0; 0]%R)]) [(1%Z, [0; 0]%R)] [] [].

(** An encoding whose row is missing. *)
Definition store_orphan_encoding : State :=
  mkState (Holds []) (Holds [(1%Z, [0; 0]%R)]) [(1%Z, [0; 0]%R)] [] [].

(** A row whose encoding is missing. *)
Definition store_orphan_row : State :=
  mkState (Holds [mkRow 1 asha; mkRow 2 bela]) (Holds [(1%Z, [0; 0]%R)])
          [(1%Z, [0; 0]%R)] [] [].

(** Two encodings; the table has a row for the second id only. *)
Definition store_first_orphan : State :=
  mkState (Holds [mkRow 2 bela]) (Holds [(1%Z, [0; 0]%R); (2%Z, [10; 10]%R)])
          [(1%Z, [0; 0]%R); (2%Z, [10; 10]%R)] [] [].

(** Two equal encodings, enrolled under the ids 1 and 2 in this order; the
    table has a row for the second id only. *)
Definition store_tied_orphan : State :=
  mkState (Holds [mkRow 2 bela]) (Holds [(1%Z, [0; 0]%R); (2%Z, [0; 0]%R)])
          [(1%Z, [0; 0]%R); (2%Z, [0; 0]%R)] [] [].

(** A frame with two faces: the first is the enrolled one, the second is at
    distance 5 from it. *)
Definition frame_two_faces : Frame :=
  [((10, 20, 30, 40)%Z, [0; 0]%R); ((50, 60, 70, 80)%Z, [3; 4]%R)].

(** Only the camera at index 1 opens. *)
Definition only_camera_1 (camera_index : Z) : bool := (camera_index =? 1)%Z.

(** A face is in view and the operator presses SPACE at once. *)
Definition press_space (camera_index : Z) (i : nat) : Register.Tick :=
  Register.mkTick true (Ret [(10, 20, 30, 40)%Z]) (Ret [[0; 0]%R]) 32.

(** A face is in view of every camera and no key is ever pressed. *)
Definition no_key (camera_index : Z) (i : nat) : Register.Tick :=
  Register.mkTick true (Ret [(10, 20, 30, 40)%Z]) (Ret [[0; 0]%R]) 255.



(** * Vocabulary and inputs of the further properties *)

(** The recognizer [self] with another tolerance. *)
Definition with_tolerance (tol : R) (self : FaceRecognizer.t) : FaceRecognizer.t :=
  FaceRecognizer.mk tol (known_encodings self) (known_person_ids self)
    (known_names self) (known_classes self) (known_roll_numbers self).

(** The table can be read, and the dict of encodings and the table list the
    same ids in the same order, each once. *)
Definition in_step (s : State) : Prop :=
  readable s /\
  map fst (encodings s) = map id (lines s) /\ NoDup (map id (lines s)).

(** A store whose encodings file cannot be unpickled: one person enrolled,
    the next file operation (the load) fails. *)
Definition store_bad_pickle : State :=
  mkState (Holds [mkRow 1 asha]) (Holds [(1%Z, [0; 0]%R)]) [] [true] [].

(** Where a loop stands when it is left or when the observation ends. *)
Definition final {A : Type} (l : Loop A) : A :=
  match l with
  | Exited _ a => a
  | Running a => a
  end.

(** Every id of the dict has a row in the table. *)
Definition encodings_have_rows (s : State) : Prop :=
  forall p, In p (map fst (encodings s)) -> select_id p (table s) <> None.

(** The names of the table are read as text. *)
Definition names_are_text (s : State) : Prop :=
  forall row, In row (table s) -> exists text, name (details row) = Str text.

(** Two states with the same table, encodings file and dict. *)
Definition same_store (s s' : State) : Prop :=
  csv_file s' = csv_file s /\ pkl_file s' = pkl_file s /\ encodings s' = encodings s.

(** The iterations among [i], ..., [i + fuel - 1] of [generate_frames] on
    which the frame is read and encoded. *)
Definition good_ticks (ticks : nat -> WebDeploy.Tick) (i fuel : nat) : list nat :=
  filter (fun k => WebDeploy.read_ok (ticks k) && WebDeploy.encode_ok (ticks k))
         (seq i fuel).

(** On this iteration of a capture loop a frame is read, a face is detected
    in it, SPACE is pressed and [e] is the first encoding computed. *)
Definition shot (tk : Register.Tick) (e : encoding) : Prop :=
  Register.read_ok tk = true /\
  Register.key tk = 32%Z /\
  (exists loc locs, Register.locations tk = Ret (loc :: locs)) /\
  (exists es, Register.encs tk = Ret (e :: es)).

(** On this iteration a capture loop goes on: a frame is read, detection
    returns, ESC is not pressed. *)
Definition passes (tk : Register.Tick) : Prop :=
  Register.read_ok tk = true /\
  (exists locs, Register.locations tk = Ret locs) /\
  Register.key tk <> 27%Z.

(** The members of [l] up to and including the first that satisfies [p]. *)
Fixpoint tried_until {A : Type} (p : A -> bool) (l : list A) : list A :=
  match l with
  | [] => []
  | a :: rest => if p a then [a] else a :: tried_until p rest
  end.

(** A run of calls of [get_frame], each with whether index 0 would open and
    what a read would give at that time. *)
Fixpoint get_frames (calls : list (bool * bool * Frame)) (camera : option bool)
  : list (option Frame) * option bool * list CamEvent :=
  match calls with
  | [] => ([], camera, [])
  | (opens, read_ok, frame) :: rest =>
      let '(f, camera1, trace1) := WebCamera.get_frame opens read_ok frame camera in
      let '(fs, camera2, trace2) := get_frames rest camera1 in
      (f :: fs, camera2, trace1 ++ trace2)
  end.

(** Detection raises on every frame. *)
Definition detection_raises (i : nat) : Register.Tick :=
  Register.mkTick true (Raise ValueError) (Ret []) 255.

(** Two files with one person, and no failure to come. *)
Definition disk_one_person : SimpleRegister.Disk :=
  SimpleRegister.mkDisk (Holds [mkRow 1 asha]) (Holds [(1%Z, [0; 0]%R)]) [] [].

(** [str.isspace] on ASCII characters: tab to carriage return, the four
    separators 28 to 31, and the space. *)
Definition ascii_isspace (c : Ascii.ascii) : bool :=
  let n := Ascii.nat_of_ascii c in
  ((9 <=? n) && (n <=? 13) || (28 <=? n) && (n <=? 32))%nat.

Fixpoint ascii_lstrip (l : list Ascii.ascii) : list Ascii.ascii :=
  match l with
  | [] => []
  | c :: rest => if ascii_isspace c then ascii_lstrip rest else l
  end.

(** [str.strip] on ASCII text. *)
Definition ascii_strip (s : string) : string :=
  string_of_list_ascii
    (rev (ascii_lstrip (rev (ascii_lstrip (list_ascii_of_string s))))).

(** [str.lower] on ASCII text. *)
Definition ascii_lower (s : string) : string :=
  string_of_list_ascii
    (map (fun c =>
            let n := Ascii.nat_of_ascii c in
            if ((65 <=? n) && (n <=? 90))%nat then Ascii.ascii_of_nat (n + 32) else c)
         (list_ascii_of_string s)).

(** What an operator types to register: name, class, roll number, no email,
    a phone number, the confirmation and ENTER. *)
Definition typed_registration : list string :=
  ["  Asha "; "CS"; "R1"; ""; " 555"; "Y "; ""]%string.

(** The face at distance 0 from the only encoding of [store_orphan_encoding]
    is in front of the camera and no key is pressed. *)
Definition orphan_in_view (i : nat) : FaceRecognizer.Tick :=
  FaceRecognizer.mkTick false true [((10, 20, 30, 40)%Z, [0; 0]%R)] 255.

(** A table in which the only name is a number. *)
Definition store_numeric_name : State :=
  mkState (Holds [mkRow 1 (mkPerson "2024" "CS" "R1" "" "" "2024-01-01 10:00:00")%string])
          (Holds [(1%Z, [0; 0]%R)]) [(1%Z, [0; 0]%R)] [] [].

Arguments infer : simpl never.
Arguments wrap64 : simpl never.

(** * Properties *)

(** ** Reals as booleans *)

Lemma Rleb_true (x y : R) : Rleb x y = true <-> (x <= y)%R.
Proof.
  unfold Rleb. destruct (Rle_dec x y); split; intro H; try easy.
Qed.

Lemma Rleb_false (x y : R) : Rleb x y = false <-> (y < x)%R.
Proof.
  unfold Rleb. destruct (Rle_dec x y); split; intro H; try easy; lra.
Qed.

Lemma Rltb_true (x y : R) : Rltb x y = true <-> (x < y)%R.
Proof.
  unfold Rltb. destruct (Rlt_dec x y); split; intro H; try easy.
Qed.

Lemma Rltb_false (x y : R) : Rltb x y = false <-> (y <= x)%R.
Proof.
  unfold Rltb. destruct (Rlt_dec x y); split; intro H; try easy; lra.
Qed.

(** ** np.argmin *)

Lemma first_min_unique (ds : list R) (k k' : nat) (d d' : R) :
  first_min ds k d -> first_min ds k' d' -> k = k' /\ d = d'.
Proof.
  intros (Hk & Hle & Hlt) (Hk' & Hle' & Hlt').
  assert (Hd : d = d').
  { apply Rle_antisym; [apply (Hle k' d' Hk') | apply (Hle' k d Hk)]. }
  subst d'. split; [|reflexivity].
  destruct (Nat.lt_trichotomy k k') as [H | [H | H]]; [|assumption|].
  - specialize (Hlt' k d H Hk). lra.
  - specialize (Hlt k' d H Hk'). lra.
Qed.

Lemma first_min_snoc_keep (pre : list R) (best : nat) (dbest d : R) :
  first_min pre best dbest -> (dbest <= d)%R ->
  first_min (pre ++ [d]) best dbest.
Proof.
  intros (Hk & Hle & Hlt) Hd.
  assert (Hb : (best < List.length pre)%nat)
    by (apply nth_error_Some; rewrite Hk; discriminate).
  repeat split.
  - rewrite nth_error_app1; assumption.
  - intros j dj Hj.
    destruct (Nat.lt_ge_cases j (List.length pre)) as [Hlt' | Hge].
    + rewrite nth_error_app1 in Hj by assumption. eauto.
    + rewrite nth_error_app2 in Hj by assumption.
      destruct (j - List.length pre)%nat as [|n]; simpl in Hj.
      * injection Hj as <-. assumption.
      * destruct n; discriminate.
  - intros j dj Hjb Hj.
    rewrite nth_error_app1 in Hj by lia. eauto.
Qed.

Lemma first_min_snoc_new (pre : list R) (best : nat) (dbest d : R) :
  first_min pre best dbest -> (d < dbest)%R ->
  first_min (pre ++ [d]) (List.length pre) d.
Proof.
  intros (Hk & Hle & Hlt) Hd.
  repeat split.
  - rewrite nth_error_app2 by lia. rewrite Nat.sub_diag. reflexivity.
  - intros j dj Hj.
    destruct (Nat.lt_ge_cases j (List.length pre)) as [Hlt' | Hge].
    + rewrite nth_error_app1 in Hj by assumption.
      specialize (Hle j dj Hj). lra.
    + rewrite nth_error_app2 in Hj by assumption.
      destruct (j - List.length pre)%nat as [|n]; simpl in Hj.
      * injection Hj as <-. lra.
      * destruct n; discriminate.
  - intros j dj Hjb Hj.
    rewrite nth_error_app1 in Hj by lia.
    specialize (Hle j dj Hj). lra.
Qed.

(** The scan keeps, at every step, the first minimum of what it has seen. *)
Lemma argmin_from_first_min (ds pre : list R) (best : nat) (dbest : R) :
  first_min pre best dbest ->
  exists d,
    first_min (pre ++ ds) (argmin_from best dbest (List.length pre) ds) d.
Proof.
  revert pre best dbest.
  induction ds as [|d rest IH]; intros pre best dbest Hmin; simpl.
  - exists dbest. rewrite app_nil_r. assumption.
  - replace (pre ++ d :: rest) with ((pre ++ [d]) ++ rest)
      by (rewrite <- app_assoc; reflexivity).
    replace (S (List.length pre)) with (List.length (pre ++ [d]))
      by (rewrite length_app; simpl; lia).
    destruct (Rltb d dbest) eqn:E.
    + apply Rltb_true in E.
      assert (Hnew := first_min_snoc_new _ _ _ _ Hmin E).
      destruct (IH (pre ++ [d]) (List.length pre) d Hnew) as (d' & Hd').
      exists d'. assumption.
    + apply Rltb_false in E.
      assert (Hkeep := first_min_snoc_keep _ _ _ _ Hmin E).
      destruct (IH (pre ++ [d]) best dbest Hkeep) as (d' & Hd').
      exists d'. assumption.
Qed.

Lemma argmin_first_min (d0 : R) (rest : list R) :
  exists k d, argmin (d0 :: rest) = Ret k /\ first_min (d0 :: rest) k d.
Proof.
  assert (H0 : first_min [d0] 0 d0).
  { repeat split.
    - intros [|[|j]] dj Hj; simpl in Hj; try discriminate.
      injection Hj as <-. lra.
    - intros j dj Hj. lia. }
  destruct (argmin_from_first_min rest _ _ _ H0) as (d & Hd).
  exists (argmin_from 0 d0 1 rest), d. split; [reflexivity | exact Hd].
Qed.

Lemma argmin_is_first_min (ds : list R) (k : nat) (d : R) :
  first_min ds k d -> argmin ds = Ret k.
Proof.
  intros Hmin. destruct ds as [|d0 rest].
  - destruct Hmin as (Hk & _). destruct k; discriminate.
  - destruct (argmin_first_min d0 rest) as (k' & d' & Ha & Hm).
    destruct (first_min_unique _ _ _ _ _ Hmin Hm) as [-> _]. assumption.
Qed.

(** ** The matcher of recognize.py *)

Lemma True_in_false (l : list bool) :
  (forall b, In b l -> b = false) -> True_in l = false.
Proof.
  intros H. unfold True_in.
  destruct (existsb (fun b => b) l) eqn:E; [|reflexivity].
  apply existsb_exists in E. destruct E as (b & Hin & Hb).
  rewrite (H b Hin) in Hb. discriminate.
Qed.

Lemma True_in_true (l : list bool) : In true l -> True_in l = true.
Proof.
  intros H. unfold True_in. apply existsb_exists. exists true. auto.
Qed.

Lemma recognize_face_body (self : FaceRecognizer.t) (probe : encoding) :
  known_encodings self <> [] ->
  recognize_face self probe =
    let matches := compare_faces (known_encodings self) probe (tolerance self) in
    if True_in matches then
      let face_distances := face_distance (known_encodings self) probe in
      obind (argmin face_distances) (fun best_match_index =>
      obind (py_index matches best_match_index) (fun m =>
      if m then
        obind (py_index face_distances best_match_index) (fun d =>
        obind (py_index (known_names self) best_match_index) (fun nm =>
        obind (py_index (known_classes self) best_match_index) (fun cl =>
        obind (py_index (known_roll_numbers self) best_match_index) (fun rn =>
        Ret (nm, cl, rn, (1 - d)%R)))))
      else Ret unknown_info))
    else Ret unknown_info.
Proof.
  intros H. unfold recognize_face.
  destruct (known_encodings self); [contradiction | reflexivity].
Qed.

Lemma nth_error_in_range {A : Type} (l : list A) (k n : nat) :
  List.length l = n -> (k < n)%nat -> exists x, nth_error l k = Some x.
Proof.
  intros Hl Hk. destruct (nth_error l k) eqn:E; [eauto|].
  apply nth_error_None in E. lia.
Qed.

(** What the matcher returns, in terms of the first least distance. *)
Lemma recognize_face_first_min (self : FaceRecognizer.t) (probe : encoding)
    (k : nat) (d : R) :
  parallel self ->
  first_min (face_distance (known_encodings self) probe) k d ->
  exists nm cl rn,
    nth_error (known_names self) k = Some nm /\
    nth_error (known_classes self) k = Some cl /\
    nth_error (known_roll_numbers self) k = Some rn /\
    recognize_face self probe =
      Ret (if Rleb d (tolerance self) then (nm, cl, rn, (1 - d)%R)
           else unknown_info).
Proof.
  intros (Hn & Hc & Hr) Hmin.
  pose proof Hmin as (Hk & Hle & _).
  assert (Hlen : (k < List.length (known_encodings self))%nat).
  { assert (Hk' : nth_error (face_distance (known_encodings self) probe) k <> None)
      by (rewrite Hk; discriminate).
    apply nth_error_Some in Hk'. unfold face_distance in Hk'.
    rewrite length_map in Hk'. assumption. }
  destruct (nth_error_in_range _ _ _ Hn Hlen) as (nm & Hnm).
  destruct (nth_error_in_range _ _ _ Hc Hlen) as (cl & Hcl).
  destruct (nth_error_in_range _ _ _ Hr Hlen) as (rn & Hrn).
  exists nm, cl, rn. repeat (split; [assumption|]).
  rewrite recognize_face_body
    by (intro E; rewrite E in Hlen; simpl in Hlen; lia).
  cbv zeta.
  assert (Hm : nth_error (compare_faces (known_encodings self) probe (tolerance self)) k
               = Some (Rleb d (tolerance self))).
  { unfold compare_faces. rewrite nth_error_map, Hk. reflexivity. }
  destruct (Rleb d (tolerance self)) eqn:E.
  - rewrite True_in_true by (eapply nth_error_In; eassumption).
    rewrite (argmin_is_first_min _ _ _ Hmin). simpl.
    unfold py_index. rewrite Hm, Hk, Hnm, Hcl, Hrn. simpl. reflexivity.
  - rewrite True_in_false; [reflexivity|].
    intros b Hb. unfold compare_faces in Hb.
    apply in_map_iff in Hb. destruct Hb as (dj & <- & Hdj).
    apply In_nth_error in Hdj. destruct Hdj as (j & Hj).
    apply Rleb_false in E. apply Rleb_false.
    specialize (Hle j dj Hj). lra.
Qed.

(** With the lists of the recognizer parallel to its encodings, the matcher
    answers as the design document says: Unknown with confidence 0 on an
    empty gallery; otherwise the name, class and roll number at the
    position of an entry of least Euclidean distance, with confidence 1
    minus that distance, when the distance is at most the tolerance, and
    Unknown with confidence 0 when it is larger. *)
Lemma matcher_threshold (self : FaceRecognizer.t) (probe : encoding) :
  parallel self ->
  (known_encodings self = [] -> recognize_face self probe = Ret unknown_info) /\
  (known_encodings self <> [] ->
   exists k e nm cl rn,
     nth_error (known_encodings self) k = Some e /\
     (forall e', In e' (known_encodings self) ->
                 (euclidean e probe <= euclidean e' probe)%R) /\
     nth_error (known_names self) k = Some nm /\
     nth_error (known_classes self) k = Some cl /\
     nth_error (known_roll_numbers self) k = Some rn /\
     ((euclidean e probe <= tolerance self)%R ->
      recognize_face self probe = Ret (nm, cl, rn, (1 - euclidean e probe)%R)) /\
     ((tolerance self < euclidean e probe)%R ->
      recognize_face self probe = Ret unknown_info)).
Proof.
  intros Hpar. split.
  - intros E. unfold recognize_face. rewrite E. reflexivity.
  - intros Hne.
    destruct (known_encodings self) as [|e0 rest] eqn:Eencs; [contradiction|].
    destruct (argmin_first_min (euclidean e0 probe)
                (face_distance rest probe)) as (k & d & _ & Hmin).
    change (euclidean e0 probe :: face_distance rest probe)
      with (face_distance (e0 :: rest) probe) in Hmin.
    rewrite <- Eencs in Hmin.
    destruct (recognize_face_first_min _ probe _ _ Hpar Hmin)
      as (nm & cl & rn & Hnm & Hcl & Hrn & Hres).
    pose proof Hmin as (Hk & Hle & _).
    unfold face_distance in Hk. rewrite nth_error_map in Hk.
    destruct (nth_error (known_encodings self) k) as [e|] eqn:Ee; [|discriminate].
    simpl in Hk. injection Hk as Hd.
    rewrite <- Eencs.
    exists k, e, nm, cl, rn. rewrite Ee, Hd.
    split; [reflexivity|]. split; [|repeat (split; [assumption|]); split].
    + intros e' Hin. apply In_nth_error in Hin. destruct Hin as (j & Hj).
      apply (Hle j). unfold face_distance. rewrite nth_error_map, Hj. reflexivity.
    + intros Hd'. rewrite Hres.
      apply Rleb_true in Hd'. rewrite Hd'. reflexivity.
    + intros Hd'. rewrite Hres.
      apply Rleb_false in Hd'. rewrite Hd'. reflexivity.
Qed.

Lemma euclidean_zero : euclidean [0; 0]%R [0; 0]%R = 0%R.
Proof.
  unfold euclidean. simpl.
  replace ((0 - 0) * (0 - 0) + ((0 - 0) * (0 - 0) + 0))%R with 0%R by ring.
  apply sqrt_0.
Qed.

Lemma sqrt_le_bound (x t : R) : (0 <= t)%R -> (x <= t * t)%R -> (sqrt x <= t)%R.
Proof.
  intros Ht Hx. rewrite <- (sqrt_square t Ht). apply sqrt_le_1_alt. assumption.
Qed.

Lemma sqrt_gt_bound (x t : R) : (0 <= t)%R -> (t * t < x)%R -> (t < sqrt x)%R.
Proof.
  intros Ht Hx. rewrite <- (sqrt_square t Ht) at 1.
  apply sqrt_lt_1_alt. split; [nra | assumption].
Qed.

Lemma euclidean_far : (14 < euclidean [10; 10] [0; 0])%R.
Proof. unfold euclidean. simpl. apply sqrt_gt_bound; lra. Qed.

Lemma Rleb_0_tol : Rleb 0 (6 / 10) = true.
Proof. apply Rleb_true. lra. Qed.

Lemma Rleb_5_tol : Rleb 5 (6 / 10) = false.
Proof. apply Rleb_false. lra. Qed.

Lemma Rltb_0_0 : Rltb 0 0 = false.
Proof. apply Rltb_false. lra. Qed.

(** The answer of the matcher from the first least distance, needing the
    three lists only at that position. *)
Lemma recognize_face_at (self : FaceRecognizer.t) (probe : encoding)
    (k : nat) (d : R) (nm cl rn : Cell) :
  first_min (face_distance (known_encodings self) probe) k d ->
  nth_error (known_names self) k = Some nm ->
  nth_error (known_classes self) k = Some cl ->
  nth_error (known_roll_numbers self) k = Some rn ->
  recognize_face self probe =
    Ret (if Rleb d (tolerance self) then (nm, cl, rn, (1 - d)%R) else unknown_info).
Proof.
  intros Hmin Hnm Hcl Hrn.
  pose proof Hmin as (Hk & Hle & _).
  assert (Hne : known_encodings self <> []).
  { intros E. rewrite E in Hk. destruct k; discriminate. }
  rewrite (recognize_face_body self probe Hne). cbv zeta.
  assert (Hm : nth_error (compare_faces (known_encodings self) probe (tolerance self)) k
               = Some (Rleb d (tolerance self))).
  { unfold compare_faces. rewrite nth_error_map, Hk. reflexivity. }
  destruct (Rleb d (tolerance self)) eqn:E.
  - rewrite True_in_true by (eapply nth_error_In; eassumption).
    rewrite (argmin_is_first_min _ _ _ Hmin). simpl.
    unfold py_index. rewrite Hm, Hk, Hnm, Hcl, Hrn. reflexivity.
  - rewrite True_in_false; [reflexivity|].
    intros b Hb. unfold compare_faces in Hb.
    apply in_map_iff in Hb. destruct Hb as (dj & <- & Hdj).
    apply In_nth_error in Hdj. destruct Hdj as (j & Hj).
    apply Rleb_false in E. apply Rleb_false.
    specialize (Hle j dj Hj). lra.
Qed.

(** C1 on a store in which the first of two encodings has lost its row.
    The recognizer that [FaceRecognizer(0.6)] builds holds both encodings
    and one name.  For the probe [0, 0] the entry of least distance is the
    first one, id 1, at distance 0; the second, id 2, is more than 14 away,
    far beyond the tolerance.  The matcher answers with the name, class and
    roll number of id 2 and confidence 1.  web_deploy.py, which looks the
    record up by the id of the best entry, answers Unknown for the same
    face. *)
Theorem matcher_names_another_entry :
  exists self s',
    FaceRecognizer.__init__ (6 / 10) store_first_orphan = (Ret self, s') /\
    known_encodings self = [[0; 0]; [10; 10]]%R /\
    known_person_ids self = [1; 2]%Z /\
    euclidean [0; 0]%R [0; 0]%R = 0%R /\
    (14 < euclidean [10; 10] [0; 0])%R /\
    select_id 1 (table store_first_orphan) = None /\
    (exists row, select_id 2 (table store_first_orphan) = Some row /\
                 name (details row) = Str "Bela") /\
    recognize_face self [0; 0]%R = Ret (Str "Bela", Str "EE", Str "R2", 1%R) /\
    fst (WebDeploy.name_for (known_encodings self) (known_person_ids self)
                            [0; 0]%R s') = Ret (Str "Unknown").
Proof.
  exists (FaceRecognizer.mk (6 / 10) [[0; 0]; [10; 10]]%R [1; 2]%Z
            [Str "Bela"] [Str "EE"] [Str "R2"]).
  exists (say (Loaded 2) store_first_orphan).
  split; [reflexivity|].
  split; [reflexivity|]. split; [reflexivity|].
  split; [exact euclidean_zero|]. split; [exact euclidean_far|].
  split; [reflexivity|]. split; [eexists; split; reflexivity|].
  assert (Hmin : first_min (face_distance [[0; 0]; [10; 10]]%R [0; 0]%R) 0 0%R).
  { unfold face_distance. cbn [map]. rewrite euclidean_zero. repeat split.
    - intros [|[|j]] dj Hj; simpl in Hj.
      + injection Hj as <-. lra.
      + injection Hj as <-. pose proof euclidean_far. lra.
      + destruct j; discriminate.
    - intros j dj Hj. lia. }
  split.
  - rewrite (recognize_face_at _ [0; 0]%R 0 0%R (Str "Bela") (Str "EE") (Str "R2"));
      try reflexivity; [|exact Hmin].
    cbn [tolerance]. rewrite Rleb_0_tol. do 2 f_equal. ring.
  - unfold WebDeploy.name_for.
    cbn [known_encodings known_person_ids].
    assert (Hm : compare_faces [[0; 0]; [10; 10]]%R [0; 0]%R (6 / 10)
                 = [true; false]).
    { unfold compare_faces, face_distance. cbn [map].
      rewrite euclidean_zero, Rleb_0_tol.
      replace (Rleb (euclidean [10; 10]%R [0; 0]%R) (6 / 10)) with false; [reflexivity|].
      symmetry. apply Rleb_false. pose proof euclidean_far. lra. }
    rewrite Hm. cbn [True_in existsb orb].
    rewrite (argmin_is_first_min _ _ _ Hmin). reflexivity.
Qed.

(** When two entries of the recognizer, at positions [i < j], are at the
    same distance from the probe, that distance is the least one and [i] is
    the first position at that distance, the best index is [i], and with
    parallel lists and the distance within the tolerance the answer is the
    [i]-th name, class and roll number. *)
Lemma matcher_tie_break (self : FaceRecognizer.t) (probe : encoding)
    (i j : nat) (e_i e_j : encoding) :
  parallel self ->
  (i < j)%nat ->
  nth_error (known_encodings self) i = Some e_i ->
  nth_error (known_encodings self) j = Some e_j ->
  euclidean e_i probe = euclidean e_j probe ->
  (forall e', In e' (known_encodings self) ->
              (euclidean e_i probe <= euclidean e' probe)%R) ->
  (forall k e_k, (k < i)%nat -> nth_error (known_encodings self) k = Some e_k ->
                 euclidean e_k probe <> euclidean e_i probe) ->
  argmin (face_distance (known_encodings self) probe) = Ret i /\
  exists nm cl rn,
    nth_error (known_names self) i = Some nm /\
    nth_error (known_classes self) i = Some cl /\
    nth_error (known_roll_numbers self) i = Some rn /\
    ((euclidean e_i probe <= tolerance self)%R ->
     recognize_face self probe = Ret (nm, cl, rn, (1 - euclidean e_i probe)%R)).
Proof.
  intros Hpar Hij Hi Hj Htie Hleast Hfirst.
  assert (Hmin : first_min (face_distance (known_encodings self) probe) i
                           (euclidean e_i probe)).
  { unfold face_distance. repeat split.
    - rewrite nth_error_map, Hi. reflexivity.
    - intros k dk Hk. rewrite nth_error_map in Hk.
      destruct (nth_error (known_encodings self) k) as [e_k|] eqn:Ek; [|discriminate].
      injection Hk as <-. apply Hleast. eapply nth_error_In; eassumption.
    - intros k dk Hki Hk. rewrite nth_error_map in Hk.
      destruct (nth_error (known_encodings self) k) as [e_k|] eqn:Ek; [|discriminate].
      injection Hk as <-.
      assert (Hle : (euclidean e_i probe <= euclidean e_k probe)%R)
        by (apply Hleast; eapply nth_error_In; eassumption).
      specialize (Hfirst k e_k Hki Ek). lra. }
  split; [apply (argmin_is_first_min _ _ _ Hmin)|].
  destruct (recognize_face_first_min _ probe _ _ Hpar Hmin)
    as (nm & cl & rn & Hnm & Hcl & Hrn & Hres).
  exists nm, cl, rn. repeat (split; [assumption|]).
  intros Htol. rewrite Hres. apply Rleb_true in Htol. rewrite Htol. reflexivity.
Qed.

(** C2 on a store with two equal encodings, enrolled under the ids 1 and 2
    in this order, in which id 1 has lost its row.  The snapshot of
    [get_all_encodings] lists id 1 first; both entries are at distance 0
    from the probe [0, 0], and [np.argmin] picks position 0, the entry
    inserted first.  The answer of the matcher is nevertheless the name,
    class and roll number of id 2, the entry inserted second.
    web_deploy.py, on the same store, looks up id 1. *)
Theorem tie_names_second_entry :
  exists self s',
    FaceRecognizer.__init__ (6 / 10) store_tied_orphan = (Ret self, s') /\
    fst (DataManager.get_all_encodings store_tied_orphan)
      = Ret ([[0; 0]; [0; 0]]%R, [1; 2]%Z) /\
    known_encodings self = [[0; 0]; [0; 0]]%R /\
    known_person_ids self = [1; 2]%Z /\
    face_distance (known_encodings self) [0; 0]%R = [0; 0]%R /\
    argmin (face_distance (known_encodings self) [0; 0]%R) = Ret 0%nat /\
    select_id 1 (table store_tied_orphan) = None /\
    (exists row, select_id 2 (table store_tied_orphan) = Some row /\
                 name (details row) = Str "Bela") /\
    recognize_face self [0; 0]%R = Ret (Str "Bela", Str "EE", Str "R2", 1%R) /\
    fst (WebDeploy.name_for (known_encodings self) (known_person_ids self)
                            [0; 0]%R s') = Ret (Str "Unknown").
Proof.
  assert (Hd : face_distance [[0; 0]; [0; 0]]%R [0; 0]%R = [0; 0]%R).
  { unfold face_distance. cbn [map]. rewrite euclidean_zero. reflexivity. }
  assert (Harg : argmin [0; 0]%R = Ret 0%nat).
  { cbn [argmin argmin_from]. rewrite Rltb_0_0. reflexivity. }
  exists (FaceRecognizer.mk (6 / 10) [[0; 0]; [0; 0]]%R [1; 2]%Z
            [Str "Bela"] [Str "EE"] [Str "R2"]).
  exists (say (Loaded 2) store_tied_orphan).
  split; [reflexivity|].
  split; [reflexivity|]. split; [reflexivity|]. split; [reflexivity|].
  cbn [known_encodings known_person_ids].
  split; [exact Hd|]. split; [rewrite Hd; exact Harg|].
  split; [reflexivity|]. split; [eexists; split; reflexivity|].
  split.
  - unfold recognize_face, compare_faces.
    cbn [known_encodings tolerance known_names known_classes known_roll_numbers].
    rewrite Hd. cbn [map]. rewrite Rleb_0_tol. cbn [True_in existsb orb].
    rewrite Harg. cbn. do 2 f_equal. ring.
  - unfold WebDeploy.name_for, compare_faces. rewrite Hd. cbn [map].
    rewrite Rleb_0_tol. cbn [True_in existsb orb]. rewrite Harg. reflexivity.
Qed.

(** ** The gallery store *)


Lemma is_max_unique (m m' : Z) (l : list Z) :
  is_max m l -> is_max m' l -> m = m'.
Proof.
  intros (Hin & Hle) (Hin' & Hle').
  specialize (Hle m' Hin'). specialize (Hle' m Hin). lia.
Qed.

Lemma fold_left_max_is_max (l : list Z) (a : Z) :
  is_max (fold_left Z.max l a) (a :: l).
Proof.
  revert a. induction l as [|x l IH]; intros a; simpl.
  - split; [left; reflexivity|]. intros y [<- | []]. lia.
  - destruct (IH (Z.max a x)) as (Hin & Hle). split.
    + destruct Hin as [Hin | Hin].
      * rewrite <- Hin.
        destruct (Z.max_spec a x) as [(_ & E) | (_ & E)]; rewrite E; simpl; auto.
      * simpl; auto.
    + intros y [Hy | [Hy | Hy]].
      * specialize (Hle (Z.max a x) (or_introl eq_refl)). lia.
      * specialize (Hle (Z.max a x) (or_introl eq_refl)). lia.
      * apply Hle. right. assumption.
Qed.

Lemma id_max_is_max {A : Type} (r : Row A) (rest : list (Row A)) :
  is_max (id_max r rest) (map id (r :: rest)).
Proof. apply fold_left_max_is_max. Qed.

Lemma wrap64_int64 (z : Z) : int64 z -> wrap64 z = z.
Proof.
  unfold int64, wrap64. intros H.
  rewrite Z.mod_small by lia. lia.
Qed.

(** pandas changes the cells of a table, never its ids. *)
Lemma map_id_infer (t : CsvText) : map id (infer t) = map id t.
Proof. unfold infer. rewrite map_map. reflexivity. Qed.

Lemma map_id_render (df : DataFrame) : map id (render df) = map id df.
Proof. unfold render. rewrite map_map. reflexivity. Qed.

Lemma render_new_row (df : DataFrame) (pid : Z) (r : PersonData) :
  render (df ++ [new_row pid r]) = render df ++ [mkRow pid r].
Proof.
  unfold render. rewrite map_app. simpl. destruct r; reflexivity.
Qed.

Lemma next_id_of_ids {A B : Type} (df : list (Row A)) (df' : list (Row B)) :
  map id df = map id df' -> next_id_of df = next_id_of df'.
Proof.
  destruct df as [|r rest], df' as [|r' rest']; simpl; intros H;
    try discriminate; [reflexivity|].
  injection H as H1 H2. unfold id_max. rewrite H1, H2. reflexivity.
Qed.

(** The next id when it does not wrap: the greatest id plus 1. *)
Lemma next_id_of_max {A : Type} (df : list (Row A)) (m : Z) :
  is_max m (map id df) -> int64 (m + 1) -> next_id_of df = (m + 1)%Z.
Proof.
  intros Hm Hfit. destruct df as [|r rest].
  - destruct Hm as ([] & _).
  - simpl.
    rewrite (is_max_unique _ _ _ (id_max_is_max r rest) Hm).
    apply wrap64_int64. assumption.
Qed.

(** Below the wrap-around the next id is above every id of the table. *)
Lemma next_id_above {A : Type} (df : list (Row A)) (x : Row A) :
  room_for 1 df -> In x df -> (id x < next_id_of df)%Z.
Proof.
  intros Hroom Hx. destruct df as [|r rest]; [destruct Hx|].
  destruct (id_max_is_max r rest) as (Hin & Hle).
  apply in_map_iff in Hin. destruct Hin as (y & Hy & Hin).
  destruct (Hroom y Hin) as (Hlo & Hhi).
  simpl. rewrite wrap64_int64 by (unfold int64; lia).
  specialize (Hle (id x) (in_map id _ _ Hx)). lia.
Qed.

Lemma room_for_infer (n : nat) (t : CsvText) :
  room_for n t -> room_for n (infer t).
Proof.
  intros H x Hx. unfold infer in Hx. apply in_map_iff in Hx.
  destruct Hx as (y & <- & Hy). apply (H y Hy).
Qed.

Lemma readable_holds (s : State) (t : CsvText) :
  csv_file s = Holds t -> readable s /\ lines s = t.
Proof. unfold readable, lines. intros ->. split; reflexivity. Qed.

Lemma read_csv_next_ok (s : State) :
  next_ok s -> readable s ->
  exists s', read_csv s = (Ret (table s), s') /\
             csv_file s' = csv_file s /\ pkl_file s' = pkl_file s /\
             encodings s' = encodings s /\ stdout s' = stdout s /\
             faults s' = tl (faults s).
Proof.
  unfold next_ok, readable, table, lines, read_csv, bind, file_op. intros H Hr.
  destruct s as [csv pkl enc fl out]. simpl in *.
  destruct csv as [|t|]; try discriminate Hr.
  destruct fl as [|b fl]; simpl in *.
  - eexists. split; [reflexivity|]. simpl. auto.
  - subst b. eexists. split; [reflexivity|]. simpl. auto.
Qed.

Lemma read_csv_reliable (s : State) :
  reliable s -> readable s -> read_csv s = (Ret (table s), s).
Proof.
  unfold reliable, readable, table, lines, read_csv, bind, file_op. intros H Hr.
  destruct s as [csv pkl enc fl out]. simpl in *. subst fl.
  destruct csv as [|t|]; try discriminate Hr. reflexivity.
Qed.

Lemma read_csv_fails (s : State) :
  hd false (faults s) = true ->
  read_csv s = (Raise IOError,
                mkState (csv_file s) (pkl_file s) (encodings s) (tl (faults s))
                        (stdout s)).
Proof.
  unfold read_csv, bind, file_op. intros H.
  destruct (faults s) as [|b fl]; simpl in *; [discriminate|].
  subst b. reflexivity.
Qed.

(** A table file that holds no table cannot be read. *)
Lemma read_csv_unreadable (s : State) :
  ~ readable s -> exists ex s', read_csv s = (Raise ex, s').
Proof.
  unfold readable, lines, read_csv, bind, file_op. intros H.
  destruct s as [csv pkl enc fl out]. simpl in *.
  destruct csv as [|t|]; [|exfalso; apply H; reflexivity|];
    destruct fl as [|[|] fl]; eexists; eexists; reflexivity.
Qed.

Lemma get_next_id_next_ok (s : State) :
  next_ok s -> readable s ->
  fst (DataManager.get_next_id s) = Ret (next_id_of (table s)) /\
  fst (SimpleDataManager.get_next_id s) = fst (DataManager.get_next_id s).
Proof.
  intros H Hr. destruct (read_csv_next_ok s H Hr) as (s' & Hread & _).
  unfold SimpleDataManager.get_next_id, DataManager.get_next_id, try_except, bind.
  rewrite Hread. destruct (table s); simpl; auto.
Qed.

Lemma add_person_reliable (r : PersonData) (e : encoding) (s : State) :
  reliable s -> readable s ->
  DataManager.add_person r e s =
    (let pid := next_id_of (table s) in
     (Ret pid,
      mkState (Holds (rewritten (lines s) ++ [mkRow pid r]))
              (Holds (dict_set pid e (encodings s)))
              (dict_set pid e (encodings s)) [] (stdout s))).
Proof.
  intros H Hr. unfold reliable, readable, table, lines, rewritten in *.
  destruct s as [csv pkl enc fl out]. simpl in H, Hr |- *. subst fl.
  destruct csv as [|t|]; try discriminate Hr.
  cbv zeta. cbn [rows_of]. rewrite <- render_new_row.
  unfold DataManager.add_person, DataManager.get_next_id, bind, read_csv, file_op.
  simpl. destruct (infer t) eqn:E; unfold ret; simpl; rewrite E; reflexivity.
Qed.

Lemma is_max_ids_1_to (n : nat) : is_max (Z.of_nat (S n)) (ids_1_to (S n)).
Proof.
  unfold ids_1_to. split.
  - apply in_map. apply in_seq. lia.
  - intros x Hx. apply in_map_iff in Hx. destruct Hx as (k & <- & Hk).
    apply in_seq in Hk. lia.
Qed.

Lemma next_id_of_ids_1_to {A : Type} (df : list (Row A)) (n : nat) :
  map id df = ids_1_to n -> int64 (Z.of_nat n + 1) ->
  next_id_of df = (Z.of_nat n + 1)%Z.
Proof.
  intros H Hfit. destruct n as [|n].
  - destruct df; [reflexivity | discriminate].
  - apply next_id_of_max; [|assumption]. rewrite H. apply is_max_ids_1_to.
Qed.

Lemma ids_1_to_succ (n : nat) :
  ids_1_to (S n) = ids_1_to n ++ [(Z.of_nat n + 1)%Z].
Proof.
  unfold ids_1_to. rewrite seq_S, map_app. simpl.
  do 2 f_equal. lia.
Qed.

Lemma enroll_from (people : list (PersonData * encoding)) (s : State) (n : nat) :
  reliable s -> readable s ->
  map id (lines s) = ids_1_to n ->
  int64 (Z.of_nat (n + List.length people) + 1) ->
  exists s',
    enroll people s
      = (Ret (map (fun k => Z.of_nat (n + k)) (seq 1 (List.length people))), s') /\
    reliable s' /\ readable s' /\
    map id (lines s') = ids_1_to (n + List.length people).
Proof.
  revert s n. induction people as [|[r e] rest IH]; intros s n Hrel Hread Hids Hfit.
  - exists s. simpl. rewrite Nat.add_0_r. auto.
  - simpl. unfold bind at 1. rewrite (add_person_reliable r e s Hrel Hread).
    cbv zeta.
    assert (Hpid : next_id_of (table s) = (Z.of_nat n + 1)%Z).
    { apply next_id_of_ids_1_to.
      - unfold table. rewrite map_id_infer. assumption.
      - unfold int64 in *. simpl in Hfit. lia. }
    rewrite Hpid.
    match goal with
    | |- context [bind _ _ ?s1] =>
        destruct (IH s1 (S n)) as (s' & He & Hrel' & Hread' & Hids')
    end.
    + reflexivity.
    + reflexivity.
    + unfold lines, rewritten. cbn [csv_file rows_of].
      rewrite map_app, map_id_render, map_id_infer. fold (lines s).
      rewrite Hids. simpl. symmetry. apply ids_1_to_succ.
    + simpl in Hfit. replace (S n + List.length rest)%nat
        with (n + S (List.length rest))%nat by lia. assumption.
    + exists s'. unfold bind. rewrite He. unfold ret. split; [|split; [|split]].
      * f_equal. f_equal. f_equal; [f_equal; lia|].
        rewrite <- (seq_shift (List.length rest) 1), map_map.
        apply map_ext. intros k. f_equal. lia.
      * assumption.
      * assumption.
      * rewrite Hids'. f_equal. simpl. lia.
Qed.

Lemma is_max_perm (m : Z) (l l' : list Z) :
  Permutation l l' -> is_max m l' -> is_max m l.
Proof.
  intros Hp (Hin & Hle). split.
  - apply (Permutation_in m (Permutation_sym Hp) Hin).
  - intros x Hx. apply Hle. apply (Permutation_in x Hp Hx).
Qed.

(** C4, as stated, fails at the end of the 64-bit integers: with the
    greatest id [2^63 - 1] in the table, [get_next_id] of both data
    managers returns [-2^63], which is not that id plus 1 and is below
    every id of the table. *)
Lemma next_id_wraps_around :
  next_ok store_last_id /\ readable store_last_id /\
  is_max (2 ^ 63 - 1)%Z (map id (lines store_last_id)) /\
  fst (DataManager.get_next_id store_last_id) = Ret (- 2 ^ 63)%Z /\
  fst (SimpleDataManager.get_next_id store_last_id) = Ret (- 2 ^ 63)%Z /\
  fst (DataManager.get_next_id store_last_id) <> Ret (2 ^ 63 - 1 + 1)%Z /\
  (forall x, In x (map id (lines store_last_id)) -> (- 2 ^ 63 < x)%Z).
Proof.
  split; [reflexivity|]. split; [reflexivity|]. split.
  { split; [simpl; auto|].
    intros x [<- | [<- | []]]; apply Z.leb_le; vm_compute; reflexivity. }
  assert (H : fst (DataManager.get_next_id store_last_id) = Ret (- 2 ^ 63)%Z)
    by (vm_compute; reflexivity).
  split; [exact H|]. split; [vm_compute; reflexivity|]. split.
  - rewrite H. intros E. injection E as E. vm_compute in E. discriminate E.
  - intros x [<- | [<- | []]]; apply Z.ltb_lt; vm_compute; reflexivity.
Qed.

(** C4, amended.  When the table can be read, [get_next_id] (of both data
    managers) returns 1 on an empty table and otherwise the greatest stored
    id plus 1, whatever the order of the rows, as long as that sum is a
    64-bit integer; with the ids 1..N stored in any order it returns N+1,
    and so it does after N enrolments into an empty store. *)
Theorem next_id_max_plus_one (s : State) :
  next_ok s -> readable s ->
  (lines s = [] ->
   fst (DataManager.get_next_id s) = Ret 1%Z /\
   fst (SimpleDataManager.get_next_id s) = Ret 1%Z) /\
  (forall m, is_max m (map id (lines s)) -> int64 (m + 1) ->
   fst (DataManager.get_next_id s) = Ret (m + 1)%Z /\
   fst (SimpleDataManager.get_next_id s) = Ret (m + 1)%Z) /\
  (forall N, Permutation (map id (lines s)) (ids_1_to N) ->
   int64 (Z.of_nat N + 1) ->
   fst (DataManager.get_next_id s) = Ret (Z.of_nat N + 1)%Z) /\
  (forall people, lines s = [] -> reliable s ->
   int64 (Z.of_nat (List.length people) + 1) ->
   exists pids s',
     enroll people s = (Ret pids, s') /\
     pids = ids_1_to (List.length people) /\
     fst (DataManager.get_next_id s') = Ret (Z.of_nat (List.length people) + 1)%Z).
Proof.
  intros Hok Hread. destruct (get_next_id_next_ok s Hok Hread) as (Hdm & Hsdm).
  assert (Hmax : forall m, is_max m (map id (lines s)) -> int64 (m + 1) ->
                 fst (DataManager.get_next_id s) = Ret (m + 1)%Z).
  { intros m Hm Hfit. rewrite Hdm. f_equal. apply next_id_of_max; [|assumption].
    unfold table. rewrite map_id_infer. assumption. }
  split; [|split; [|split]].
  - intros E. rewrite Hsdm, Hdm. unfold table. rewrite E. auto.
  - intros m Hm Hfit. rewrite Hsdm. split; apply Hmax; assumption.
  - intros [|N] Hp Hfit.
    + apply Permutation_sym, Permutation_nil in Hp. apply map_eq_nil in Hp.
      rewrite Hdm. unfold table. rewrite Hp. reflexivity.
    + apply Hmax; [|assumption]. apply (is_max_perm _ _ _ Hp). apply is_max_ids_1_to.
  - intros people Hcsv Hrel Hfit.
    destruct (enroll_from people s 0 Hrel Hread) as (s' & He & Hrel' & Hread' & Hids').
    { rewrite Hcsv. reflexivity. }
    { assumption. }
    exists (ids_1_to (List.length people)), s'. split; [|split].
    + rewrite He. reflexivity.
    + reflexivity.
    + assert (Hok' : next_ok s') by (unfold next_ok; rewrite Hrel'; reflexivity).
      destruct (get_next_id_next_ok s' Hok' Hread') as (-> & _).
      f_equal. apply next_id_of_ids_1_to; [|assumption].
      unfold table. rewrite map_id_infer. assumption.
Qed.

Lemma next_id_max_plus_one_witness :
  next_ok store_out_of_order /\ readable store_out_of_order /\
  fst (DataManager.get_next_id store_out_of_order) = Ret 4%Z.
Proof.
  split; [reflexivity|]. split; [reflexivity|].
  destruct (next_id_max_plus_one store_out_of_order) as (_ & Hmax & _).
  - reflexivity.
  - reflexivity.
  - apply (Hmax 3%Z).
    + split; [simpl; auto|]. intros x Hx. simpl in Hx. lia.
    + unfold int64. lia.
Defined.

(** ** Enrolment: round trip and failures *)

Lemma select_id_app_fresh {A : Type} (pid : Z) (df : list (Row A)) (row : Row A) :
  (forall x, In x df -> id x <> pid) ->
  select_id pid (df ++ [row]) = if (id row =? pid)%Z then Some row else None.
Proof.
  intros H. unfold select_id. induction df as [|x df IH]; simpl.
  - reflexivity.
  - destruct (Z.eqb_spec (id x) pid) as [E | _].
    + exfalso. apply (H x); [left; reflexivity | assumption].
    + apply IH. intros y Hy. apply H. right. assumption.
Qed.

(** Typing the rows of a table does not change which row an id selects. *)
Lemma select_id_typed (pid : Z) (k : Person Kind) (t : CsvText) :
  select_id pid (map (type_row k) t) = option_map (type_row k) (select_id pid t).
Proof.
  unfold select_id. induction t as [|x t IH]; simpl; [reflexivity|].
  destruct (id x =? pid)%Z; [reflexivity | assumption].
Qed.

Lemma forallb_false_in {A : Type} (f : A -> bool) (l : list A) (a : A) :
  In a l -> f a = false -> forallb f l = false.
Proof.
  intros Hin Hf. destruct (forallb f l) eqn:E; [|reflexivity].
  rewrite forallb_forall in E. rewrite (E a Hin) in Hf. discriminate.
Qed.

(** One text that stays text makes a column of strings. *)
Lemma column_kind_keeps_text (texts : list string) (s : string) :
  In s texts -> keeps_text s = true -> column_kind texts = KObject.
Proof.
  intros Hin Hk. unfold keeps_text in Hk.
  apply andb_prop in Hk. destruct Hk as (Hk & Hbool).
  apply andb_prop in Hk. destruct Hk as (Hk & Hfloat).
  apply andb_prop in Hk. destruct Hk as (Hna & Hint).
  apply negb_true_iff in Hna, Hint, Hfloat, Hbool.
  assert (Hp : In s (filter (fun s => negb (is_na s)) texts)).
  { apply filter_In. split; [assumption|]. rewrite Hna. reflexivity. }
  assert (Hi : str_to_int s = None) by (destruct (str_to_int s); [discriminate | reflexivity]).
  unfold column_kind.
  rewrite (forallb_false_in spells_int64 _ s Hp)
    by (unfold spells_int64; rewrite Hi; reflexivity).
  rewrite (forallb_false_in spells_uint64 _ s Hp)
    by (unfold spells_uint64; rewrite Hi; reflexivity).
  cbn [andb].
  rewrite (forallb_false_in (fun s => is_some (str_to_int s)) _ s Hp) by assumption.
  rewrite (forallb_false_in (fun s => is_some (str_to_float s)) _ s Hp) by assumption.
  rewrite (forallb_false_in (fun s => is_some (str_to_bool s)) _ s Hp) by assumption.
  reflexivity.
Qed.

(** How a text comes back from its column. *)
Lemma typed_read_back (texts : list string) (field : string) :
  In field texts -> read_back field (typed (column_kind texts) field).
Proof.
  intros Hin. split.
  - intros Hk. rewrite (column_kind_keeps_text texts field Hin Hk).
    unfold typed. unfold keeps_text in Hk.
    destruct (is_na field); [discriminate | reflexivity].
  - intros Hna. unfold typed. rewrite Hna. reflexivity.
Qed.

Lemma dict_set_in (k : Z) (v : encoding) (d : Dict) : In (k, v) (dict_set k v d).
Proof.
  induction d as [|[k' v'] d IH]; simpl.
  - left. reflexivity.
  - destruct (Z.eqb_spec k k') as [-> | _]; simpl; auto.
Qed.

Lemma dict_get_set_same (k : Z) (v : encoding) (d : Dict) :
  dict_get k (dict_set k v d) = Some v.
Proof.
  induction d as [|[k' v'] d IH]; simpl.
  - rewrite Z.eqb_refl. reflexivity.
  - destruct (Z.eqb_spec k k') as [E | E]; simpl.
    + rewrite <- E, Z.eqb_refl. reflexivity.
    + destruct (Z.eqb_spec k k'); [contradiction | assumption].
Qed.

Lemma dict_get_set_other (k k' : Z) (v : encoding) (d : Dict) :
  k' <> k -> dict_get k' (dict_set k v d) = dict_get k' d.
Proof.
  intros Hne. induction d as [|[k0 v0] d IH]; simpl.
  - destruct (Z.eqb_spec k' k); [contradiction | reflexivity].
  - destruct (Z.eqb_spec k k0) as [E | E]; simpl.
    + subst k0. destruct (Z.eqb_spec k' k); [contradiction | reflexivity].
    + destruct (Z.eqb_spec k' k0); [reflexivity | assumption].
Qed.

Lemma combine_fst_snd (d : Dict) : combine (map fst d) (map snd d) = d.
Proof.
  induction d as [|[k v] d IH]; simpl; [|rewrite IH]; reflexivity.
Qed.

(** A new id goes to the end of the snapshot; an id that is there keeps its
    place. *)
Lemma dict_set_new (k : Z) (v : encoding) (d : Dict) :
  ~ In k (map fst d) -> dict_set k v d = d ++ [(k, v)].
Proof.
  induction d as [|[k' v'] d IH]; simpl; intros H.
  - reflexivity.
  - destruct (Z.eqb_spec k k') as [E | _].
    + exfalso. apply H. left. symmetry. assumption.
    + rewrite IH; [reflexivity|]. intros Hin. apply H. right. assumption.
Qed.

Lemma dict_set_keys (k : Z) (v : encoding) (d : Dict) :
  In k (map fst d) -> map fst (dict_set k v d) = map fst d.
Proof.
  induction d as [|[k' v'] d IH]; simpl; intros H.
  - destruct H.
  - destruct (Z.eqb_spec k k') as [E | E]; simpl.
    + reflexivity.
    + rewrite IH; [reflexivity|]. destruct H as [H | H]; [|assumption].
      exfalso. apply E. symmetry. assumption.
Qed.

Lemma get_person_by_id_reliable (pid : Z) (s : State) :
  reliable s -> readable s ->
  DataManager.get_person_by_id pid s = (Ret (select_id pid (table s)), s).
Proof.
  intros Hrel Hread. unfold DataManager.get_person_by_id, bind.
  rewrite (read_csv_reliable s Hrel Hread). reflexivity.
Qed.

(** The row that [get_person_by_id] finds for the id of a new line at the
    end of a table whose other ids differ: the line as the whole table
    types it. *)
Lemma select_new_line (t : CsvText) (pid : Z) (r : PersonData) :
  (forall x, In x t -> id x <> pid) ->
  select_id pid (infer (t ++ [mkRow pid r]))
    = Some (type_row (kinds (t ++ [mkRow pid r])) (mkRow pid r)).
Proof.
  intros Hfresh. unfold infer. rewrite select_id_typed.
  rewrite (select_id_app_fresh pid t (mkRow pid r) Hfresh).
  cbn [id]. rewrite Z.eqb_refl. reflexivity.
Qed.

(** C5, as stated, fails: the record that comes back is typed by pandas.
    After [add_person] of a person without a phone number into an empty
    store, [get_person_by_id] gives a record whose phone is the float
    [nan], not the empty text passed in; and a roll number written [007]
    comes back as the integer 7. *)
Lemma round_trip_retypes_fields :
  (exists s1 row,
     DataManager.add_person asha [0; 1]%R store_empty = (Ret 1%Z, s1) /\
     fst (DataManager.get_person_by_id 1 s1) = Ret (Some row) /\
     name (details row) = Str "Asha" /\
     phone (details row) = NaN /\
     row <> new_row 1 asha) /\
  (exists s1 row,
     DataManager.add_person dev [0; 1]%R store_empty = (Ret 1%Z, s1) /\
     fst (DataManager.get_person_by_id 1 s1) = Ret (Some row) /\
     roll_number (details row) = Int 7 /\
     row <> new_row 1 dev).
Proof.
  split.
  - rewrite (add_person_reliable asha [0; 1]%R store_empty eq_refl eq_refl).
    cbv zeta. eexists. eexists. split; [reflexivity|].
    rewrite get_person_by_id_reliable by reflexivity.
    split; [reflexivity|]. split; [reflexivity|]. split; [reflexivity|].
    intros H. discriminate H.
  - rewrite (add_person_reliable dev [0; 1]%R store_empty eq_refl eq_refl).
    cbv zeta. eexists. eexists. split; [reflexivity|].
    rewrite get_person_by_id_reliable by reflexivity.
    split; [reflexivity|]. split; [reflexivity|].
    intros H. discriminate H.
Qed.

(** C5, amended.  In a store whose file operations succeed, whose table can
    be read and whose ids leave room for one more, [add_person r e] returns
    an id; [get_person_by_id] of that id then gives the record of that id
    whose fields are those of [r] as [read_csv] types them in the table: a
    field that stays text comes back as the same text, a field that stands
    for a missing value (an empty email or phone) comes back as [nan]; the
    snapshot of [get_all_encodings] pairs the id with [e], and the
    encodings file holds the same dict. *)
Theorem add_person_round_trip (r : PersonData) (e : encoding) (s : State) :
  reliable s -> readable s -> room_for 1 (lines s) ->
  exists pid s1 row,
    DataManager.add_person r e s = (Ret pid, s1) /\
    fst (DataManager.get_person_by_id pid s1) = Ret (Some row) /\
    row = type_row (kinds (lines s1)) (mkRow pid r) /\
    id row = pid /\
    read_back (name r) (name (details row)) /\
    read_back (class_name r) (class_name (details row)) /\
    read_back (roll_number r) (roll_number (details row)) /\
    read_back (email r) (email (details row)) /\
    read_back (phone r) (phone (details row)) /\
    read_back (registration_date r) (registration_date (details row)) /\
    exists encs pids,
      fst (DataManager.get_all_encodings s1) = Ret (encs, pids) /\
      In (pid, e) (combine pids encs) /\
      pkl_file s1 = Holds (encodings s1).
Proof.
  intros Hrel Hread Hroom. rewrite (add_person_reliable r e s Hrel Hread). cbv zeta.
  set (pid := next_id_of (table s)).
  set (t' := rewritten (lines s) ++ [mkRow pid r]).
  assert (Hfresh : forall x, In x (rewritten (lines s)) -> id x <> pid).
  { intros x Hx Hid.
    assert (Hin : In (id x) (map id (table s))).
    { unfold table. rewrite map_id_infer, <- (map_id_infer (lines s)),
        <- map_id_render. apply in_map. exact Hx. }
    apply in_map_iff in Hin. destruct Hin as (y & Hy & Hin).
    pose proof (next_id_above (table s) y (room_for_infer 1 _ Hroom) Hin) as Hlt.
    fold pid in Hlt. lia. }
  assert (Hin : In (mkRow pid r) t').
  { apply in_or_app. right. left. reflexivity. }
  exists pid. eexists. exists (type_row (kinds t') (mkRow pid r)).
  split; [reflexivity|]. split.
  { rewrite get_person_by_id_reliable by reflexivity.
    cbn [fst]. unfold table, lines. cbn [csv_file rows_of].
    f_equal. apply select_new_line. assumption. }
  split; [reflexivity|]. split; [reflexivity|].
  cbn [details type_row name class_name roll_number email phone registration_date
       kinds].
  repeat (split; [apply typed_read_back;
                  match goal with
                  | |- In (?f r) (column ?f t') =>
                      apply (in_map (fun x => f (details x)) t' (mkRow pid r) Hin)
                  end|]).
  eexists. eexists. split; [reflexivity|]. cbn [encodings pkl_file].
  split; [|reflexivity].
  rewrite combine_fst_snd. apply dict_set_in.
Qed.

Lemma add_person_round_trip_witness :
  reliable store_consistent /\ readable store_consistent /\
  room_for 1 (lines store_consistent) /\
  exists pid s1 row,
    DataManager.add_person bela [3; 4]%R store_consistent = (Ret pid, s1) /\
    fst (DataManager.get_person_by_id pid s1) = Ret (Some row) /\
    id row = pid /\
    read_back (name bela) (name (details row)) /\
    read_back (email bela) (email (details row)) /\
    In (pid, [3; 4]%R) (combine (map fst (encodings s1)) (map snd (encodings s1))).
Proof.
  assert (Hroom : room_for 1 (lines store_consistent)).
  { intros x [<- | []]. simpl. lia. }
  split; [reflexivity|]. split; [reflexivity|]. split; [exact Hroom|].
  destruct (add_person_round_trip bela [3; 4]%R store_consistent eq_refl eq_refl Hroom)
    as (pid & s1 & row & Hadd & Hget & _ & Hid & Hname & _ & _ & Hemail & _ & _
        & encs & pids & Hsnap & Hin & _).
  exists pid, s1, row. repeat (split; [assumption|]).
  injection Hsnap as <- <-. assumption.
Defined.

(** What a [bind] that returns went through. *)
Lemma bind_ret {A B : Type} (m : M A) (k : A -> M B) (s : State) (b : B) (s' : State) :
  bind m k s = (Ret b, s') ->
  exists a s1, m s = (Ret a, s1) /\ k a s1 = (Ret b, s').
Proof.
  unfold bind. destruct (m s) as [[a | ex] s1]; [eauto | discriminate].
Qed.


(** A [to_csv] that returns has written the frame. *)
Lemma to_csv_ret (df : DataFrame) (s s' : State) :
  to_csv df s = (Ret tt, s') ->
  csv_file s' = Holds (render df) /\ pkl_file s' = pkl_file s /\
  encodings s' = encodings s /\ stdout s' = stdout s.
Proof.
  destruct s as [csv pkl enc fl out].
  destruct fl as [|[|] [|[|] fl]]; cbn; intros H; try discriminate H;
    injection H as <-; auto.
Qed.

(** A [to_csv] that raises has left the table as it was, when the file
    could not be opened, or empty, when the write did not complete. *)
Lemma to_csv_raise (df : DataFrame) (s s' : State) (ex : exn) :
  to_csv df s = (Raise ex, s') ->
  (csv_file s' = csv_file s \/ csv_file s' = Cut) /\ pkl_file s' = pkl_file s /\
  encodings s' = encodings s /\ stdout s' = stdout s.
Proof.
  destruct s as [csv pkl enc fl out].
  destruct fl as [|[|] [|[|] fl]]; cbn; intros H; try discriminate H;
    injection H as _ <-; auto.
Qed.

(** A [_save_encodings] that returns has written the dict. *)
Lemma save_encodings_ret (s s' : State) :
  DataManager._save_encodings s = (Ret tt, s') ->
  pkl_file s' = Holds (encodings s) /\ csv_file s' = csv_file s /\
  encodings s' = encodings s /\ stdout s' = stdout s.
Proof.
  destruct s as [csv pkl enc fl out].
  destruct fl as [|[|] [|[|] fl]]; cbn; intros H; try discriminate H;
    injection H as <-; auto.
Qed.

Lemma get_next_id_ret (s s' : State) (pid : Z) :
  DataManager.get_next_id s = (Ret pid, s') ->
  pid = next_id_of (table s) /\ readable s /\
  csv_file s' = csv_file s /\ pkl_file s' = pkl_file s /\
  encodings s' = encodings s /\ stdout s' = stdout s.
Proof.
  unfold DataManager.get_next_id, bind, read_csv, file_op, table, lines, readable.
  destruct s as [csv pkl enc fl out]. cbn.
  destruct fl as [|[|] fl]; cbn; try discriminate;
    destruct csv as [|t|]; cbn; try discriminate;
    destruct (infer t) as [|r0 rest]; cbn; intros H; injection H as <- <-; auto 10.
Qed.

Lemma read_csv_ret (s s' : State) (df : DataFrame) :
  read_csv s = (Ret df, s') ->
  df = table s /\ readable s /\
  csv_file s' = csv_file s /\ pkl_file s' = pkl_file s /\
  encodings s' = encodings s /\ stdout s' = stdout s.
Proof.
  unfold read_csv, bind, file_op, table, lines, readable.
  destruct s as [csv pkl enc fl out]. cbn.
  destruct fl as [|[|] fl]; cbn; try discriminate;
    destruct csv as [|t|]; cbn; try discriminate;
    intros H; injection H as <- <-; auto 10.
Qed.

(** [DataManager.add_person] returns an id only when the new line is the
    last of the table file and the encodings file holds the dict with the
    encoding under that id. *)
Lemma add_person_durable (r : PersonData) (e : encoding) (s : State)
    (pid : Z) (s' : State) :
  DataManager.add_person r e s = (Ret pid, s') ->
  csv_file s' = Holds (rewritten (lines s) ++ [mkRow pid r]) /\
  pkl_file s' = Holds (dict_set pid e (encodings s)) /\
  encodings s' = dict_set pid e (encodings s) /\
  pid = next_id_of (table s).
Proof.
  unfold DataManager.add_person. intros H.
  apply bind_ret in H. destruct H as (pid0 & s1 & Hnext & H).
  apply bind_ret in H. destruct H as (df & s2 & Hread & H).
  apply bind_ret in H. destruct H as ([] & s3 & Hcsv & H).
  apply bind_ret in H. destruct H as ([] & s4 & Hset & H).
  apply bind_ret in H. destruct H as ([] & s5 & Hsave & H).
  unfold ret in H. injection H as -> ->.
  apply get_next_id_ret in Hnext.
  destruct Hnext as (Hpid & Hreadable & Hc1 & Hp1 & He1 & _).
  apply read_csv_ret in Hread. destruct Hread as (Hdf & _ & Hc2 & Hp2 & He2 & _).
  apply to_csv_ret in Hcsv. destruct Hcsv as (Hc3 & Hp3 & He3 & _).
  unfold set_encodings in Hset. injection Hset as <-.
  apply save_encodings_ret in Hsave. cbn [encodings csv_file pkl_file] in Hsave.
  destruct Hsave as (Hp5 & Hc5 & He5 & _).
  assert (Hlines : table s1 = table s) by (unfold table, lines; rewrite Hc1; reflexivity).
  rewrite Hc5, Hp5, He5, Hc3, He3, He2, He1, Hdf, Hlines, render_new_row.
  auto.
Qed.







(** C6 on an empty store in which [pickle.dump] fails once the encodings
    file has been opened.  [SimpleDataManager.add_person] prints the error
    of [_save_encodings] and returns the id 1 as if the enrolment had
    succeeded: the row is in the table and the encodings file is left
    empty, so that the next [DataManager()] raises on loading it and the
    next [SimpleDataManager()] starts without any encoding.  On the same
    store [DataManager.add_person] raises, and [save_person_data] of
    simple_register.py returns [None]. *)
Theorem simple_add_person_claims_success :
  (exists s',
     SimpleDataManager.add_person asha [0; 1]%R store_dump_fails = (Ret 1%Z, s') /\
     csv_file s' = Holds [mkRow 1 asha] /\
     pkl_file s' = Cut /\
     stdout s' = [ErrorSavingEncodings] /\
     fst (DataManager.__init__ s') = Raise EOFError /\
     exists s'', SimpleDataManager.__init__ s' = (Ret tt, s'') /\ encodings s'' = []) /\
  (exists s', DataManager.add_person asha [0; 1]%R store_dump_fails
              = (Raise IOError, s')) /\
  fst (SimpleRegister.save_person_data asha [0; 1]%R disk_dump_fails) = None.
Proof.
  split; [|split].
  - exists (mkState (Holds [mkRow 1 asha]) Cut [(1%Z, [0; 1]%R)] []
                    [ErrorSavingEncodings]).
    split; [reflexivity|]. repeat (split; [reflexivity|]).
    exists (mkState (Holds [mkRow 1 asha]) Cut [] []
                    [ErrorSavingEncodings; ErrorLoadingEncodings]).
    split; reflexivity.
  - exists (mkState (Holds [mkRow 1 asha]) Cut [(1%Z, [0; 1]%R)] [] []).
    reflexivity.
  - reflexivity.
Qed.


(** ** Loading the gallery *)

(** A table in which an id has a row is a table that can be read. *)
Lemma table_row_readable (s : State) (p : Z) :
  select_id p (table s) <> None -> readable s.
Proof.
  unfold readable, table, lines. destruct (csv_file s) as [|t|]; cbn; intros H;
    solve [reflexivity | exfalso; apply H; reflexivity].
Qed.

Lemma load_details_reliable (ids : list Z) (self : FaceRecognizer.t) (s : State) :
  reliable s -> readable s ->
  load_details ids self s =
    (Ret tt,
     FaceRecognizer.mk (tolerance self) (known_encodings self) (known_person_ids self)
       (known_names self ++ map (fun row => name (details row))
                                (found_rows ids (table s)))
       (known_classes self ++ map (fun row => class_name (details row))
                                  (found_rows ids (table s)))
       (known_roll_numbers self ++ map (fun row => roll_number (details row))
                                       (found_rows ids (table s))),
     s).
Proof.
  intros Hrel Hread. revert self.
  induction ids as [|pid rest IH]; intros self; simpl.
  - rewrite !app_nil_r. destruct self; reflexivity.
  - rewrite (get_person_by_id_reliable pid s Hrel Hread).
    destruct (select_id pid (table s)) as [row|].
    + rewrite IH. simpl. rewrite <- !app_assoc. reflexivity.
    + apply IH.
Qed.

(** What [load_known_faces] does when the reads of the table succeed. *)
Lemma load_known_faces_readable (self : FaceRecognizer.t) (s : State) :
  reliable s -> readable s ->
  load_known_faces self s =
    match encodings s with
    | [] =>
        (FaceRecognizer.mk (tolerance self) [] [] (known_names self)
           (known_classes self) (known_roll_numbers self),
         say NoRegisteredFaces s)
    | _ :: _ =>
        let found := found_rows (map fst (encodings s)) (table s) in
        (FaceRecognizer.mk (tolerance self)
           (map snd (encodings s)) (map fst (encodings s))
           (known_names self ++ map (fun row => name (details row)) found)
           (known_classes self ++ map (fun row => class_name (details row)) found)
           (known_roll_numbers self ++ map (fun row => roll_number (details row)) found),
         say (Loaded (List.length (encodings s))) s)
    end.
Proof.
  intros Hrel Hread. unfold load_known_faces, DataManager.get_all_encodings.
  destruct (encodings s) as [|[pid e] rest] eqn:E.
  - reflexivity.
  - cbn [map known_encodings known_person_ids fst snd].
    rewrite (load_details_reliable _ _ s Hrel Hread).
    cbn [known_encodings known_person_ids known_names known_classes
         known_roll_numbers tolerance].
    unfold print, say. simpl. rewrite length_map. reflexivity.
Qed.

(** C7, amended.  When the table can be read and its reads succeed,
    [load_known_faces] keeps every stored encoding and id, appends a name,
    class and roll number only for the ids that have a row, looks at no row
    without an encoding, and prints only that no faces are registered or
    the number of encodings loaded. *)
Theorem load_known_faces_report (self : FaceRecognizer.t) (s : State) :
  reliable s -> readable s ->
  load_known_faces self s =
    match encodings s with
    | [] =>
        (FaceRecognizer.mk (tolerance self) [] [] (known_names self)
           (known_classes self) (known_roll_numbers self),
         say NoRegisteredFaces s)
    | _ :: _ =>
        let found := found_rows (map fst (encodings s)) (table s) in
        (FaceRecognizer.mk (tolerance self)
           (map snd (encodings s)) (map fst (encodings s))
           (known_names self ++ map (fun row => name (details row)) found)
           (known_classes self ++ map (fun row => class_name (details row)) found)
           (known_roll_numbers self ++ map (fun row => roll_number (details row)) found),
         say (Loaded (List.length (encodings s))) s)
    end.
Proof. apply load_known_faces_readable. Qed.

Lemma load_known_faces_report_witness :
  reliable store_orphan_encoding /\ readable store_orphan_encoding /\
  load_known_faces fresh_recognizer store_orphan_encoding
    = (FaceRecognizer.mk (6 / 10)%R [[0; 0]%R] [1%Z] [] [] [],
       say (Loaded 1) store_orphan_encoding).
Proof.
  split; [reflexivity|]. split; [reflexivity|].
  rewrite (load_known_faces_report fresh_recognizer store_orphan_encoding).
  - reflexivity.
  - reflexivity.
  - reflexivity.
Defined.

(** C7, as stated, fails: with id 1 in the encodings and not in the table,
    and with id 2 in the table and not in the encodings, the loader returns
    normally and prints what it prints for a consistent store. *)
Lemma load_known_faces_drops_silently :
  (In 1%Z (map fst (encodings store_orphan_encoding)) /\
   ~ In 1%Z (map id (lines store_orphan_encoding))) /\
  (In 2%Z (map id (lines store_orphan_row)) /\
   ~ In 2%Z (map fst (encodings store_orphan_row))) /\
  stdout (snd (load_known_faces fresh_recognizer store_consistent)) = [Loaded 1] /\
  stdout (snd (load_known_faces fresh_recognizer store_orphan_encoding)) = [Loaded 1] /\
  stdout (snd (load_known_faces fresh_recognizer store_orphan_row)) = [Loaded 1] /\
  known_names (fst (load_known_faces fresh_recognizer store_orphan_encoding)) = [] /\
  known_person_ids (fst (load_known_faces fresh_recognizer store_orphan_encoding))
    = [1%Z] /\
  fst (load_known_faces fresh_recognizer store_orphan_row)
    = fst (load_known_faces fresh_recognizer store_consistent).
Proof.
  rewrite !load_known_faces_readable by reflexivity.
  repeat split; try reflexivity.
  - simpl. auto.
  - simpl. tauto.
  - simpl. auto.
  - simpl. intros [H | []]. discriminate H.
Qed.

Lemma found_rows_nth (ids : list Z) (df : DataFrame) (k : nat) (pid : Z) :
  (forall p, In p ids -> select_id p df <> None) ->
  nth_error ids k = Some pid ->
  nth_error (found_rows ids df) k = select_id pid df.
Proof.
  revert k. induction ids as [|p rest IH]; intros k Hall Hk.
  - destruct k; discriminate.
  - simpl. destruct (select_id p df) as [row|] eqn:E.
    + destruct k as [|k]; simpl in *.
      * injection Hk as <-. symmetry. assumption.
      * apply IH; [|assumption]. intros q Hq. apply Hall. right. assumption.
    + exfalso. apply (Hall p); [left; reflexivity | assumption].
Qed.

Lemma found_rows_length (ids : list Z) (df : DataFrame) :
  (forall p, In p ids -> select_id p df <> None) ->
  List.length (found_rows ids df) = List.length ids.
Proof.
  induction ids as [|p rest IH]; intros Hall; simpl.
  - reflexivity.
  - destruct (select_id p df) as [row|] eqn:E.
    + simpl. f_equal. apply IH. intros q Hq. apply Hall. right. assumption.
    + exfalso. apply (Hall p); [left; reflexivity | assumption].
Qed.

(** What the first load gives on a store that can be read. *)
Lemma load_known_faces_loaded (self : FaceRecognizer.t) (s : State) :
  reliable s -> readable s ->
  encodings s <> [] ->
  fst (load_known_faces self s) =
    let found := found_rows (map fst (encodings s)) (table s) in
    FaceRecognizer.mk (tolerance self)
      (map snd (encodings s)) (map fst (encodings s))
      (known_names self ++ map (fun row => name (details row)) found)
      (known_classes self ++ map (fun row => class_name (details row)) found)
      (known_roll_numbers self ++ map (fun row => roll_number (details row)) found).
Proof.
  intros Hrel Hread Hne. rewrite (load_known_faces_readable self s Hrel Hread).
  destruct (encodings s) as [|[p e] rest] eqn:E; [contradiction|]. reflexivity.
Qed.

(** A store in which every id of a non-empty dict has a row can be read. *)
Lemma rows_readable (s : State) :
  (forall p, In p (map fst (encodings s)) -> select_id p (table s) <> None) ->
  encodings s <> [] -> readable s.
Proof.
  intros Hall Hne. destruct (encodings s) as [|[p e] rest] eqn:E; [contradiction|].
  apply (table_row_readable s p). apply Hall. left. reflexivity.
Qed.

(** X14. After the first load from a readable store in which every encoding
    has its row, the four lists of the recognizer run parallel, and the
    [k]-th name, class and roll number are those on the row of the [k]-th
    id. *)
Lemma first_load_parallel (tol : R) (s : State) :
  reliable s ->
  (forall p, In p (map fst (encodings s)) -> select_id p (table s) <> None) ->
  let self := fst (load_known_faces (FaceRecognizer.mk tol [] [] [] [] []) s) in
  parallel self /\
  forall k pid,
    nth_error (known_person_ids self) k = Some pid ->
    exists row,
      select_id pid (table s) = Some row /\
      nth_error (known_names self) k = Some (name (details row)) /\
      nth_error (known_classes self) k = Some (class_name (details row)) /\
      nth_error (known_roll_numbers self) k = Some (roll_number (details row)).
Proof.
  intros Hrel Hall.
  destruct (encodings s) as [|[p e] rest] eqn:E.
  - unfold load_known_faces, DataManager.get_all_encodings. rewrite E.
    simpl. split; [repeat split|].
    intros k pid Hk. destruct k; discriminate.
  - rewrite <- E in Hall.
    assert (Hne : encodings s <> []) by (rewrite E; discriminate).
    assert (Hread : readable s) by (apply rows_readable; assumption).
    rewrite (load_known_faces_loaded _ s Hrel Hread Hne). cbv zeta.
    cbn [known_names known_classes known_roll_numbers known_person_ids
         known_encodings app]. split.
    + unfold parallel.
      cbn [known_names known_classes known_roll_numbers known_encodings app].
      rewrite !length_map. rewrite (found_rows_length _ _ Hall).
      rewrite length_map. auto.
    + intros k pid Hk.
      destruct (select_id pid (table s)) as [row|] eqn:Erow.
      * exists row. split; [reflexivity|].
        rewrite !nth_error_map, (found_rows_nth _ _ _ _ Hall Hk), Erow.
        auto.
      * exfalso. apply (Hall pid); [|assumption].
        eapply nth_error_In. eassumption.
Qed.

(** ** The frame processor *)

Lemma recognize_all_spec (self : FaceRecognizer.t) (encs : list encoding)
    (infos : list FaceInfo) :
  recognize_all self encs = Ret infos ->
  Forall2 (fun e info => recognize_face self e = Ret info) encs infos.
Proof.
  revert infos. induction encs as [|e rest IH]; intros infos H; simpl in H.
  - injection H as <-. constructor.
  - destruct (recognize_face self e) as [info|] eqn:E; simpl in H; [|discriminate].
    destruct (recognize_all self rest) as [infos'|]; simpl in H; [|discriminate].
    injection H as <-. constructor; [assumption | apply IH; reflexivity].
Qed.

Lemma recognize_face_returns (self : FaceRecognizer.t) (probe : encoding) :
  parallel self -> exists info, recognize_face self probe = Ret info.
Proof.
  intros Hpar. destruct (known_encodings self) as [|e0 rest] eqn:E.
  - exists unknown_info. unfold recognize_face. rewrite E. reflexivity.
  - destruct (argmin_first_min (euclidean e0 probe) (face_distance rest probe))
      as (k & d & _ & Hmin).
    change (euclidean e0 probe :: face_distance rest probe)
      with (face_distance (e0 :: rest) probe) in Hmin.
    rewrite <- E in Hmin.
    destruct (recognize_face_first_min _ probe _ _ Hpar Hmin)
      as (nm & cl & rn & _ & _ & _ & Hres).
    eexists. exact Hres.
Qed.

Lemma recognize_all_returns (self : FaceRecognizer.t) (encs : list encoding) :
  parallel self -> exists infos, recognize_all self encs = Ret infos.
Proof.
  intros Hpar. induction encs as [|e rest (infos & IH)]; simpl.
  - eexists. reflexivity.
  - destruct (recognize_face_returns self e Hpar) as (info & ->).
    rewrite IH. simpl. eexists. reflexivity.
Qed.

(** X15. In recognize.py the overlays follow the detections: one per
    detected face, in detection order, each box scaled by 4 and paired with
    the answer for the encoding of the same face. *)
Lemma interactive_overlays_follow_detection (self : FaceRecognizer.t) (frame : Frame) :
  parallel self ->
  exists infos,
    recognize_faces_in_frame self frame = Ret (face_locations frame, infos) /\
    List.length (draw_face_info (face_locations frame) infos) = List.length frame /\
    Forall2 (fun face overlay =>
               fst overlay = scale_up (fst face) /\
               recognize_face self (snd face) = Ret (snd overlay))
            frame (draw_face_info (face_locations frame) infos).
Proof.
  intros Hpar. unfold recognize_faces_in_frame, draw_face_info,
    face_locations, face_encodings.
  destruct (recognize_all_returns self (map snd frame) Hpar) as (infos & Hall).
  exists infos. rewrite Hall. simpl. split; [reflexivity|].
  apply recognize_all_spec in Hall.
  clear Hpar. revert infos Hall.
  induction frame as [|[box e] rest IH]; intros infos Hall; simpl in *.
  - inversion Hall. subst. split; [reflexivity | constructor].
  - inversion Hall as [|e' info rest' infos' Hinfo Hrest]. subst.
    destruct (IH infos' Hrest) as (Hlen & Hf).
    simpl. split; [f_equal; assumption|].
    constructor; [split; [reflexivity | assumption] | assumption].
Qed.

Lemma scale_up_example :
  scale_up (10, 20, 30, 40)%Z = (40, 80, 120, 160)%Z.
Proof. reflexivity. Qed.

(** Distances used by the examples. *)
Lemma euclidean_3_4 : euclidean [0; 0]%R [3; 4]%R = 5%R.
Proof.
  unfold euclidean. simpl.
  replace ((0 - 3) * (0 - 3) + ((0 - 4) * (0 - 4) + 0))%R with (5 * 5)%R by ring.
  apply sqrt_square. lra.
Qed.

(** C3 in web_deploy.py: on a frame with two detected faces the overlays are
    four, not two; the inner loop draws both boxes under the name found for
    the first face and again under the name found for the second, so each
    box carries both names. *)
Theorem web_overlays_not_paired :
  List.length (face_locations frame_two_faces) = 2%nat /\
  fst (WebDeploy.recognize_faces_in_frame frame_two_faces store_consistent)
    = [((40, 80, 120, 160)%Z, "Asha"%string);
       ((200, 240, 280, 320)%Z, "Asha"%string);
       ((40, 80, 120, 160)%Z, "Unknown Person"%string);
       ((200, 240, 280, 320)%Z, "Unknown Person"%string)].
Proof.
  split; [reflexivity|].
  unfold WebDeploy.recognize_faces_in_frame, DataManager.get_all_encodings,
    frame_two_faces, store_consistent.
  cbn [encodings map fst snd face_locations face_encodings scale_up
       WebDeploy.draw_faces].
  unfold WebDeploy.name_for, compare_faces, face_distance.
  cbn [map]. rewrite euclidean_zero, euclidean_3_4, Rleb_0_tol, Rleb_5_tol.
  reflexivity.
Qed.

(** The same frame in recognize.py: two overlays, each box with the answer
    for its own face. *)
Lemma interactive_overlays_example :
  obind (recognize_faces_in_frame
           (FaceRecognizer.mk (6 / 10)%R [[0; 0]%R] [1%Z]
              [Str "Asha"] [Str "CS"] [Str "R1"])
           frame_two_faces)
        (fun r => Ret (draw_face_info (fst r) (snd r)))
    = Ret [((40, 80, 120, 160)%Z, (Str "Asha", Str "CS", Str "R1", (1 - 0)%R));
           ((200, 240, 280, 320)%Z, unknown_info)].
Proof.
  unfold recognize_faces_in_frame, frame_two_faces.
  cbn [map fst snd face_locations face_encodings recognize_all].
  unfold recognize_face, compare_faces, face_distance.
  cbn [known_encodings tolerance map].
  rewrite euclidean_zero, euclidean_3_4, Rleb_0_tol, Rleb_5_tol.
  reflexivity.
Qed.

(** ** Cameras *)

(** C8 in recognize.py: with camera 0 unavailable and camera 1 available,
    [run_recognition] makes one attempt, at index 0, and gives up, whereas
    [capture_face_encoding] of register.py goes on to index 1 and captures
    there. *)
Theorem run_recognition_no_fallback :
  (forall fuel ticks s,
     run_recognition gallery_two only_camera_1 fuel ticks s
       = FaceRecognizer.CameraUnavailable (say CouldNotOpenWebcam s) [Open 0 false]) /\
  Register.capture_face_encoding only_camera_1 press_space
    = (Some [0; 0]%R, [CameraNotAvailable 0],
       [Open 0 false; Release 0; Open 1 true; Release 1]).
Proof.
  split.
  - intros fuel ticks s. reflexivity.
  - reflexivity.
Qed.

Lemma capture_from_webcam_trace (cams : Z -> bool) (feed : Z -> nat -> Register.Tick)
    (i : Z) :
  snd (Register.capture_from_webcam cams feed i) = [Open i (cams i); Release i].
Proof.
  unfold Register.capture_from_webcam.
  generalize (Register.capture_loop Register.max_attempts (feed i) 0).
  intros [[r out] n]. destruct (cams i); reflexivity.
Qed.

(** X16. In register.py the camera indices are tried in order, each handle
    is released before the next index is opened, the capture stops at the
    first index that gives an encoding (on every index tried before it the
    capture gave nothing), and it fails only after a capture has failed on
    every index: also when the operator cancelled with ESC. *)
Lemma try_cameras_fallback (cams : Z -> bool) (feed : Z -> nat -> Register.Tick)
    (indices : list Z) :
  let '(r, _, trace) := Register.try_cameras cams feed indices in
  (r = None ->
   trace = flat_map (fun i => [Open i (cams i); Release i]) indices /\
   forall i, In i indices ->
             fst (fst (fst (Register.capture_from_webcam cams feed i))) = None) /\
  (forall e, r = Some e ->
   exists tried i,
     (exists rest, indices = tried ++ i :: rest) /\
     (forall j, In j tried ->
                fst (fst (fst (Register.capture_from_webcam cams feed j))) = None) /\
     fst (fst (fst (Register.capture_from_webcam cams feed i))) = Some e /\
     trace = flat_map (fun i => [Open i (cams i); Release i]) (tried ++ [i])).
Proof.
  induction indices as [|i rest IH]; cbn [Register.try_cameras].
  - split; [intros _; split; [reflexivity | intros i []]|]. intros e H. discriminate.
  - destruct (Register.capture_from_webcam cams feed i)
      as [[[r out] n] trace] eqn:Ecap.
    assert (Htrace : trace = [Open i (cams i); Release i]).
    { rewrite <- (capture_from_webcam_trace cams feed i), Ecap. reflexivity. }
    destruct r as [e|].
    + split; [intros H; discriminate|].
      intros e' He'. injection He' as <-.
      exists [], i. split; [exists rest; reflexivity|].
      split; [intros j []|].
      split; [rewrite Ecap; reflexivity|]. cbn [app flat_map]. assumption.
    + destruct (Register.try_cameras cams feed rest) as [[r' out'] trace'].
      destruct IH as (IHnone & IHsome). split.
      * intros ->. destruct (IHnone eq_refl) as (Ht & Hall).
        split; [rewrite Htrace, Ht; reflexivity|].
        intros k [<- | Hk]; [rewrite Ecap; reflexivity | apply Hall; assumption].
      * intros e ->.
        destruct (IHsome e eq_refl) as (tried & k & (rest' & Hr) & Hnone & Hk & Ht).
        exists (i :: tried), k. split; [exists rest'; rewrite Hr; reflexivity|].
        split; [intros j [<- | Hj]; [rewrite Ecap; reflexivity | apply Hnone; assumption]|].
        split; [assumption|]. rewrite Htrace, Ht. reflexivity.
Qed.

(** ** Loops *)












(** ** The scenarios of the design document *)

(** Gallery [0,0] and [10,10], probe [0.1,0.1], tolerance 0.6: the first
    entry, with confidence 1 minus its distance (about 0.859). *)
Example scenario_identified :
  recognize_face gallery_two [1 / 10; 1 / 10]%R
    = Ret (Str "Asha", Str "CS", Str "R1",
           (1 - euclidean [0; 0] [1 / 10; 1 / 10])%R) /\
  (euclidean [0; 0] [1 / 10; 1 / 10] <= 15 / 100)%R.
Proof.
  assert (Hd1 : (euclidean [0; 0] [1 / 10; 1 / 10] <= 15 / 100)%R).
  { unfold euclidean. simpl. apply sqrt_le_bound; lra. }
  assert (Hd2 : (14 < euclidean [10; 10] [1 / 10; 1 / 10])%R).
  { unfold euclidean. simpl. apply sqrt_gt_bound; lra. }
  split; [|assumption].
  rewrite (recognize_face_at gallery_two [1 / 10; 1 / 10]%R 0
             (euclidean [0; 0] [1 / 10; 1 / 10])%R (Str "Asha") (Str "CS") (Str "R1"));
    try reflexivity.
  - replace (Rleb (euclidean [0; 0]%R [1 / 10; 1 / 10]%R) (tolerance gallery_two))
      with true by (symmetry; apply Rleb_true; simpl; lra).
    reflexivity.
  - repeat split.
    + intros [|[|j]] dj Hj; simpl in Hj;
        [injection Hj as <-; lra | injection Hj as <-; lra
        | destruct j; discriminate].
    + intros j dj Hj. lia.
Qed.

(** Same gallery, probe [5,5]: both entries are at the same distance, about
    7.07, beyond the tolerance: Unknown. *)
Example scenario_unknown :
  recognize_face gallery_two [5; 5]%R = Ret unknown_info.
Proof.
  assert (Hd : (7 < euclidean [0; 0] [5; 5])%R).
  { unfold euclidean. simpl. apply sqrt_gt_bound; lra. }
  assert (Hd' : euclidean [10; 10]%R [5; 5]%R = euclidean [0; 0]%R [5; 5]%R).
  { unfold euclidean. simpl. f_equal. ring. }
  rewrite (recognize_face_at gallery_two [5; 5]%R 0
             (euclidean [0; 0] [5; 5])%R (Str "Asha") (Str "CS") (Str "R1"));
    try reflexivity.
  - replace (Rleb (euclidean [0; 0]%R [5; 5]%R) (tolerance gallery_two))
      with false by (symmetry; apply Rleb_false; simpl; lra).
    reflexivity.
  - repeat split.
    + intros [|[|j]] dj Hj; simpl in Hj;
        [injection Hj as <-; lra | injection Hj as <-; lra
        | destruct j; discriminate].
    + intros j dj Hj. lia.
Qed.

(** A probe equal to an enrolled vector is identified with confidence 1. *)
Example scenario_exact :
  recognize_face gallery_twins [0; 0]%R
    = Ret (Str "Asha", Str "CS", Str "R1", (1 - 0)%R).
Proof.
  unfold recognize_face, compare_faces, face_distance.
  cbn [known_encodings tolerance gallery_twins map].
  rewrite euclidean_zero, Rleb_0_tol.
  cbn [True_in existsb orb argmin argmin_from].
  replace (Rltb 0 0) with false by (symmetry; apply Rltb_false; lra).
  reflexivity.
Qed.

(** The snapshot keeps insertion order: an enrolment under a new id goes to
    the end of [get_all_encodings]. *)
Lemma add_person_appends_to_snapshot (r : PersonData) (e : encoding) (s : State)
    (pid : Z) (s' : State) :
  DataManager.add_person r e s = (Ret pid, s') ->
  ~ In pid (map fst (encodings s)) ->
  fst (DataManager.get_all_encodings s')
    = Ret (map snd (encodings s) ++ [e], map fst (encodings s) ++ [pid]).
Proof.
  intros Hadd Hnew.
  destruct (add_person_durable r e s pid s' Hadd) as (_ & _ & Henc & _).
  unfold DataManager.get_all_encodings. cbn [fst]. rewrite Henc.
  rewrite (dict_set_new _ _ _ Hnew), !map_app. reflexivity.
Qed.

(** ** Further examples *)

(** A failed dump in [DataManager.add_person]: the call raises, with the row
    already written and an encodings file that was opened and holds
    nothing. *)
Example add_person_partial_write :
  DataManager.add_person asha [0; 1]%R store_dump_fails
    = (Raise IOError,
       mkState (Holds [mkRow 1 asha]) Cut [(1%Z, [0; 1]%R)] [] []).
Proof. reflexivity. Qed.

(** A table that pandas rewrites: the phone number 555 of the first row
    shares its column with a missing one, is read as the float 555.0 and
    written back so when the next person is added. *)
Example add_person_rewrites_older_rows :
  csv_file
    (snd (DataManager.add_person chen [2; 2]%R
            (mkState (Holds [mkRow 1 bela; mkRow 2 asha]) Absent [] [] [])))
    = Holds [mkRow 1 (mkPerson "Bela" "EE" "R2" "" "555.0" "2024-01-02 11:00:00")%string;
             mkRow 2 asha; mkRow 3 chen].
Proof. vm_compute. reflexivity. Qed.

(** Without any key pressed the capture of register.py gives up after 100
    iterations on each of the three cameras. *)
Example capture_gives_up :
  Register.capture_from_webcam (fun _ => true) no_key 0
    = (None, [MaximumAttemptsReached], 100%nat, [Open 0 true; Release 0]) /\
  Register.capture_face_encoding (fun _ => true) no_key
    = (None,
       [MaximumAttemptsReached; MaximumAttemptsReached; MaximumAttemptsReached;
        FaceCaptureFailed],
       [Open 0 true; Release 0; Open 1 true; Release 1; Open 2 true; Release 2]).
Proof. split; vm_compute; reflexivity. Qed.

(** With no camera at all, the capture of register.py tries the three
    indices in order and fails. *)
Example capture_no_camera :
  Register.capture_face_encoding (fun _ => false) no_key
    = (None,
       [CameraNotAvailable 0; CameraNotAvailable 1; CameraNotAvailable 2;
        FaceCaptureFailed],
       [Open 0 false; Release 0; Open 1 false; Release 1; Open 2 false; Release 2]).
Proof. reflexivity. Qed.

(** * Further properties of the code *)

(** ** More on the matcher *)

Lemma euclidean_nonneg (e probe : encoding) : (0 <= euclidean e probe)%R.
Proof. unfold euclidean. apply sqrt_pos. Qed.

Lemma euclidean_self (e : encoding) : euclidean e e = 0%R.
Proof.
  unfold euclidean.
  assert (H : fold_right Rplus 0%R
                (map (fun p => ((fst p - snd p) * (fst p - snd p))%R) (combine e e))
              = 0%R).
  { induction e as [|x e IH]; simpl; [reflexivity|]. rewrite IH. ring. }
  rewrite H. apply sqrt_0.
Qed.

(** The matcher from the first least distance, whatever the three lists of
    details hold: beyond the tolerance Unknown, within it the details at
    that position, or [IndexError] when a list is too short. *)
Lemma recognize_face_cases (self : FaceRecognizer.t) (probe : encoding)
    (k : nat) (d : R) :
  first_min (face_distance (known_encodings self) probe) k d ->
  recognize_face self probe =
    if Rleb d (tolerance self) then
      obind (py_index (known_names self) k) (fun nm =>
      obind (py_index (known_classes self) k) (fun cl =>
      obind (py_index (known_roll_numbers self) k) (fun rn =>
      Ret (nm, cl, rn, (1 - d)%R))))
    else Ret unknown_info.
Proof.
  intros Hmin. pose proof Hmin as (Hk & Hle & _).
  assert (Hne : known_encodings self <> []).
  { intros E. rewrite E in Hk. destruct k; discriminate. }
  rewrite (recognize_face_body self probe Hne). cbv zeta.
  assert (Hm : nth_error (compare_faces (known_encodings self) probe (tolerance self)) k
               = Some (Rleb d (tolerance self))).
  { unfold compare_faces. rewrite nth_error_map, Hk. reflexivity. }
  destruct (Rleb d (tolerance self)) eqn:E.
  - rewrite True_in_true by (eapply nth_error_In; eassumption).
    rewrite (argmin_is_first_min _ _ _ Hmin). cbn [obind].
    unfold py_index at 1. rewrite Hm. cbn [obind].
    unfold py_index at 1. rewrite Hk. reflexivity.
  - rewrite True_in_false; [reflexivity|].
    intros b Hb. unfold compare_faces in Hb.
    apply in_map_iff in Hb. destruct Hb as (dj & <- & Hdj).
    apply In_nth_error in Hdj. destruct Hdj as (j & Hj).
    apply Rleb_false in E. apply Rleb_false.
    specialize (Hle j dj Hj). lra.
Qed.

(** With some entry enrolled there is a first least distance, and it is the
    distance of the entry at that position. *)
Lemma first_min_exists (encs : list encoding) (probe : encoding) :
  encs <> [] ->
  exists k e,
    nth_error encs k = Some e /\
    first_min (face_distance encs probe) k (euclidean e probe).
Proof.
  intros Hne. destruct encs as [|e0 rest]; [contradiction|].
  destruct (argmin_first_min (euclidean e0 probe) (face_distance rest probe))
    as (k & d & _ & Hmin).
  change (euclidean e0 probe :: face_distance rest probe)
    with (face_distance (e0 :: rest) probe) in Hmin.
  pose proof Hmin as (Hk & _).
  unfold face_distance in Hk. rewrite nth_error_map in Hk.
  destruct (nth_error (e0 :: rest) k) as [e|] eqn:Ee; [|discriminate].
  injection Hk as <-. exists k, e. split; [exact Ee | assumption].
Qed.

(** An answer of the matcher is the Unknown tuple, or the details at
    the position of the first least distance, which is within the
    tolerance, with confidence 1 minus that distance. *)
Lemma recognize_face_answer (self : FaceRecognizer.t) (probe : encoding)
    (info : FaceInfo) :
  recognize_face self probe = Ret info ->
  info = unknown_info \/
  exists k e nm cl rn,
    first_min (face_distance (known_encodings self) probe) k (euclidean e probe) /\
    (euclidean e probe <= tolerance self)%R /\
    nth_error (known_names self) k = Some nm /\
    nth_error (known_classes self) k = Some cl /\
    nth_error (known_roll_numbers self) k = Some rn /\
    info = (nm, cl, rn, (1 - euclidean e probe)%R).
Proof.
  intros Hres.
  destruct (known_encodings self) as [|e0 rest] eqn:E.
  - left. unfold recognize_face in Hres. rewrite E in Hres.
    injection Hres as <-. reflexivity.
  - destruct (first_min_exists (known_encodings self) probe) as (k & e & He & Hmin).
    { rewrite E. discriminate. }
    rewrite <- E in *. rewrite (recognize_face_cases self probe k _ Hmin) in Hres.
    destruct (Rleb (euclidean e probe) (tolerance self)) eqn:Etol.
    + right. unfold py_index in Hres.
      destruct (nth_error (known_names self) k) as [nm|] eqn:Hnm;
        [|discriminate Hres].
      destruct (nth_error (known_classes self) k) as [cl|] eqn:Hcl;
        [|discriminate Hres].
      destruct (nth_error (known_roll_numbers self) k) as [rn|] eqn:Hrn;
        [|discriminate Hres].
      cbn [obind] in Hres. injection Hres as <-.
      exists k, e, nm, cl, rn. apply Rleb_true in Etol. auto 10.
    + left. injection Hres as <-. reflexivity.
Qed.

(** X1. The confidence of an answer is never outside [1 - tolerance, 1]
    unless the answer is the Unknown tuple (confidence 0): with the
    tolerances 0.6 and 0.9 of the program a shown confidence is never
    negative. *)
Theorem confidence_bounds (self : FaceRecognizer.t) (probe : encoding)
    (nm cl rn : Cell) (c : R) :
  recognize_face self probe = Ret (nm, cl, rn, c) ->
  (nm, cl, rn, c) = unknown_info \/ (1 - tolerance self <= c <= 1)%R.
Proof.
  intros Hres.
  destruct (recognize_face_answer self probe _ Hres)
    as [Hu | (k & e & nm' & cl' & rn' & _ & Htol & _ & _ & _ & Hinfo)].
  - left. assumption.
  - right. injection Hinfo as _ _ _ ->.
    pose proof (euclidean_nonneg e probe). lra.
Qed.

Lemma confidence_bounds_witness :
  recognize_face gallery_twins [0; 0]%R
    = Ret (Str "Asha", Str "CS", Str "R1", (1 - 0)%R) /\
  ((Str "Asha", Str "CS", Str "R1", (1 - 0)%R) = unknown_info \/
   (1 - tolerance gallery_twins <= 1 - 0 <= 1)%R).
Proof.
  split; [exact scenario_exact|].
  apply (confidence_bounds gallery_twins [0; 0]%R).
  exact scenario_exact.
Defined.

(** X2. Raising the tolerance never changes who is identified: an answer
    other than Unknown stays the same, name and confidence, under every
    larger tolerance (so under the [t] key at 0.6). *)
Theorem larger_tolerance_keeps_answer (self : FaceRecognizer.t) (tol' : R)
    (probe : encoding) (info : FaceInfo) :
  (tolerance self <= tol')%R ->
  recognize_face self probe = Ret info ->
  info = unknown_info \/ recognize_face (with_tolerance tol' self) probe = Ret info.
Proof.
  intros Htol Hres.
  destruct (recognize_face_answer self probe _ Hres)
    as [Hu | (k & e & nm & cl & rn & Hmin & Hd & Hnm & Hcl & Hrn & ->)].
  - left. assumption.
  - right.
    rewrite (recognize_face_at (with_tolerance tol' self) probe k
               (euclidean e probe) nm cl rn Hmin Hnm Hcl Hrn).
    cbn [with_tolerance tolerance].
    replace (Rleb (euclidean e probe) tol') with true; [reflexivity|].
    symmetry. apply Rleb_true. lra.
Qed.

Lemma larger_tolerance_keeps_answer_witness :
  (tolerance gallery_twins <= 9 / 10)%R /\
  recognize_face gallery_twins [0; 0]%R
    = Ret (Str "Asha", Str "CS", Str "R1", (1 - 0)%R) /\
  ((Str "Asha", Str "CS", Str "R1", (1 - 0)%R) = unknown_info \/
   recognize_face (with_tolerance (9 / 10) gallery_twins) [0; 0]%R
     = Ret (Str "Asha", Str "CS", Str "R1", (1 - 0)%R)).
Proof.
  split; [simpl; lra|]. split; [exact scenario_exact|].
  apply (larger_tolerance_keeps_answer gallery_twins (9 / 10)%R [0; 0]%R).
  - simpl. lra.
  - exact scenario_exact.
Defined.

(** X3. On a recognizer whose lists of names, classes and roll numbers run
    parallel to its list of encodings, a probe equal to an enrolled
    encoding is identified, for every tolerance that is not negative, as
    the first entry at distance 0 from it, with confidence 1.  (Without
    parallel lists the answer can be another entry's, or [IndexError].) *)
Theorem exact_probe_identified (self : FaceRecognizer.t) (probe : encoding)
    (k : nat) :
  parallel self ->
  (0 <= tolerance self)%R ->
  nth_error (known_encodings self) k = Some probe ->
  (forall j e_j, (j < k)%nat -> nth_error (known_encodings self) j = Some e_j ->
                 euclidean e_j probe <> 0%R) ->
  exists nm cl rn,
    nth_error (known_names self) k = Some nm /\
    nth_error (known_classes self) k = Some cl /\
    nth_error (known_roll_numbers self) k = Some rn /\
    recognize_face self probe = Ret (nm, cl, rn, 1%R).
Proof.
  intros Hpar Htol Hk Hfirst.
  assert (Hmin : first_min (face_distance (known_encodings self) probe) k 0%R).
  { unfold face_distance. repeat split.
    - rewrite nth_error_map, Hk. simpl. rewrite euclidean_self. reflexivity.
    - intros j dj Hj. rewrite nth_error_map in Hj.
      destruct (nth_error (known_encodings self) j) as [e_j|]; [|discriminate].
      injection Hj as <-. apply euclidean_nonneg.
    - intros j dj Hjk Hj. rewrite nth_error_map in Hj.
      destruct (nth_error (known_encodings self) j) as [e_j|] eqn:Ej; [|discriminate].
      injection Hj as <-.
      pose proof (euclidean_nonneg e_j probe). specialize (Hfirst j e_j Hjk Ej). lra. }
  destruct (recognize_face_first_min self probe k _ Hpar Hmin)
    as (nm & cl & rn & Hnm & Hcl & Hrn & Hres).
  exists nm, cl, rn. repeat (split; [assumption|]).
  rewrite Hres. replace (Rleb 0 (tolerance self)) with true
    by (symmetry; apply Rleb_true; assumption).
  do 2 f_equal. ring.
Qed.

Lemma exact_probe_identified_witness :
  parallel gallery_two /\
  (0 <= tolerance gallery_two)%R /\
  nth_error (known_encodings gallery_two) 1 = Some [10; 10]%R /\
  exists nm cl rn,
    nth_error (known_names gallery_two) 1 = Some nm /\
    nth_error (known_classes gallery_two) 1 = Some cl /\
    nth_error (known_roll_numbers gallery_two) 1 = Some rn /\
    recognize_face gallery_two [10; 10]%R = Ret (nm, cl, rn, 1%R).
Proof.
  split; [repeat split|]. split; [simpl; lra|]. split; [reflexivity|].
  apply (exact_probe_identified gallery_two [10; 10]%R 1).
  - repeat split.
  - simpl. lra.
  - reflexivity.
  - intros j e_j Hj He. destruct j as [|j]; [|lia].
    simpl in He. injection He as <-.
    assert (H : (14 < euclidean [0; 0] [10; 10])%R).
    { unfold euclidean. simpl. apply sqrt_gt_bound; lra. }
    lra.
Defined.

(** ** More on the gallery store *)

Lemma simple_add_person_reliable (r : PersonData) (e : encoding) (s : State) :
  reliable s -> readable s ->
  SimpleDataManager.add_person r e s = DataManager.add_person r e s.
Proof.
  intros H Hr. unfold reliable, readable, lines in *.
  destruct s as [csv pkl enc fl out]. simpl in H, Hr. subst fl.
  destruct csv as [|t|]; try discriminate Hr.
  unfold SimpleDataManager.add_person, DataManager.add_person,
    SimpleDataManager.get_next_id, DataManager.get_next_id,
    SimpleDataManager._save_encodings, try_except, bind, read_csv, file_op.
  simpl. destruct (infer t) eqn:E; unfold ret; simpl; rewrite E; reflexivity.
Qed.

(** The next id of a table with room for [n + 1] more ids leaves room for
    [n] more. *)
Lemma next_id_of_room {A : Type} (df : list (Row A)) (n : nat) :
  room_for (S n) df -> (Z.of_nat (S n) < 2 ^ 63)%Z ->
  (- 2 ^ 63 <= next_id_of df /\ next_id_of df + Z.of_nat n < 2 ^ 63)%Z.
Proof.
  intros Hroom Hn. destruct df as [|r rest].
  - unfold next_id_of. lia.
  - destruct (id_max_is_max r rest) as (Hin & Hle).
    apply in_map_iff in Hin. destruct Hin as (y & Hy & Hin).
    destruct (Hroom y Hin) as (Hlo & Hhi).
    unfold next_id_of. rewrite wrap64_int64 by (unfold int64; lia). lia.
Qed.

Lemma room_for_less {A : Type} (n m : nat) (df : list (Row A)) :
  (m <= n)%nat -> room_for n df -> room_for m df.
Proof. intros Hm H x Hx. destruct (H x Hx). lia. Qed.

Lemma add_person_in_step (r : PersonData) (e : encoding) (s : State) (n : nat) :
  reliable s -> in_step s ->
  room_for (S n) (lines s) -> (Z.of_nat (S n) < 2 ^ 63)%Z ->
  exists pid s',
    DataManager.add_person r e s = (Ret pid, s') /\
    (forall x, In x (map id (lines s)) -> (x < pid)%Z) /\
    reliable s' /\ in_step s' /\ room_for n (lines s') /\
    lines s' = rewritten (lines s) ++ [mkRow pid r] /\
    encodings s' = encodings s ++ [(pid, e)] /\
    pkl_file s' = Holds (encodings s').
Proof.
  intros Hrel (Hread & Hkeys & Hnd) Hroom Hn.
  rewrite (add_person_reliable r e s Hrel Hread). cbv zeta.
  assert (Hpid : next_id_of (table s) = next_id_of (lines s)).
  { apply next_id_of_ids. apply map_id_infer. }
  rewrite Hpid. set (pid := next_id_of (lines s)).
  assert (Hgt : forall x, In x (map id (lines s)) -> (x < pid)%Z).
  { intros x Hx. apply in_map_iff in Hx. destruct Hx as (y & <- & Hy).
    apply next_id_above; [|assumption].
    apply (room_for_less (S n)); [lia | assumption]. }
  assert (Hnew : ~ In pid (map fst (encodings s))).
  { rewrite Hkeys. intros Hin. specialize (Hgt pid Hin). lia. }
  assert (Hids : map id (rewritten (lines s) ++ [mkRow pid r])
                 = map id (lines s) ++ [pid]).
  { unfold rewritten. rewrite map_app, map_id_render, map_id_infer. reflexivity. }
  rewrite (dict_set_new pid e (encodings s) Hnew).
  set (s' := mkState (Holds (rewritten (lines s) ++ [mkRow pid r]))
                     (Holds (encodings s ++ [(pid, e)]))
                     (encodings s ++ [(pid, e)]) [] (stdout s)).
  assert (Hl : lines s' = rewritten (lines s) ++ [mkRow pid r]) by reflexivity.
  exists pid, s'. split; [reflexivity|].
  split; [assumption|]. split; [reflexivity|].
  split; [|split; [|split; [exact Hl | split; reflexivity]]].
  - unfold in_step. rewrite Hl, Hids. split; [reflexivity|].
    cbn [s' encodings]. rewrite map_app, Hkeys. split; [reflexivity|].
    apply NoDup_app; [assumption | repeat constructor; intros [] | ].
    intros x Hx [E | []]. specialize (Hgt x Hx). lia.
  - rewrite Hl. intros x Hx. apply in_app_or in Hx. destruct Hx as [Hx | [<- | []]].
    + assert (Hin : In (id x) (map id (lines s))).
      { rewrite <- (map_id_infer (lines s)), <- map_id_render.
        apply in_map. exact Hx. }
      apply in_map_iff in Hin. destruct Hin as (y & Hy & Hin).
      destruct (Hroom y Hin). lia.
    + cbn [id]. apply next_id_of_room; assumption.
Qed.

(** X4. Enrolment keeps the store in step.  From a store that can be read,
    whose dict and table list the same ids, each once, any number of
    enrolments that leave the ids within the 64-bit integers returns ids
    that increase strictly and exceed every id present before, appends
    them in that order to both the table and the dict, and leaves the
    encodings file equal to the dict. *)
Theorem enroll_keeps_in_step (people : list (PersonData * encoding)) (s : State) :
  reliable s -> in_step s ->
  room_for (List.length people) (lines s) ->
  (Z.of_nat (List.length people) < 2 ^ 63)%Z ->
  exists pids s',
    enroll people s = (Ret pids, s') /\
    in_step s' /\
    map id (lines s') = map id (lines s) ++ pids /\
    map snd (encodings s') = map snd (encodings s) ++ map snd people /\
    (forall x p, In x (map id (lines s)) -> In p pids -> (x < p)%Z) /\
    StronglySorted Z.lt pids /\
    (people <> [] -> pkl_file s' = Holds (encodings s')).
Proof.
  revert s. induction people as [|[r e] rest IH]; intros s Hrel Hstep Hroom Hn.
  - exists [], s. simpl. rewrite !app_nil_r.
    repeat split; try assumption; try reflexivity.
    + apply Hstep.
    + apply Hstep.
    + apply Hstep.
    + intros x p _ [].
    + constructor.
    + intros H. contradiction.
  - cbn [List.length] in Hroom, Hn.
    destruct (add_person_in_step r e s (List.length rest) Hrel Hstep Hroom Hn)
      as (pid & s1 & Hadd & Hgt & Hrel1 & Hstep1 & Hroom1 & Hcsv & Henc & Hpkl).
    destruct (IH s1 Hrel1 Hstep1 Hroom1)
      as (pids & s' & Hen & Hstep' & Hids & Hencs & Hgt' & Hsorted & Hpkl');
      [lia|].
    assert (Hids1 : map id (lines s1) = map id (lines s) ++ [pid]).
    { rewrite Hcsv. unfold rewritten.
      rewrite map_app, map_id_render, map_id_infer. reflexivity. }
    exists (pid :: pids), s'. simpl. unfold bind at 1. rewrite Hadd.
    unfold bind. rewrite Hen. unfold ret.
    split; [reflexivity|]. split; [assumption|].
    rewrite Hids, Hencs, Hids1, Henc, !map_app, <- !app_assoc. simpl.
    split; [reflexivity|]. split; [reflexivity|].
    assert (Hpid : forall p, In p pids -> (pid < p)%Z).
    { intros p Hp. apply (Hgt' pid p); [|assumption].
      rewrite Hids1. apply in_or_app. right. left. reflexivity. }
    split; [|split].
    + intros x p Hx [<- | Hp]; [apply Hgt; assumption|].
      apply (Hgt' x p); [|assumption].
      rewrite Hids1. apply in_or_app. left. assumption.
    + constructor; [assumption|]. apply Forall_forall. assumption.
    + intros _. destruct rest as [|p rest'].
      * simpl in Hen. injection Hen as _ <-. assumption.
      * apply Hpkl'. discriminate.
Qed.

Lemma enroll_keeps_in_step_witness :
  reliable store_consistent /\ in_step store_consistent /\
  room_for 2 (lines store_consistent) /\
  exists pids s',
    enroll [(bela, [3; 4]%R); (chen, [1; 1]%R)] store_consistent = (Ret pids, s') /\
    in_step s' /\
    map id (lines s') = map id (lines store_consistent) ++ pids /\
    map snd (encodings s')
      = map snd (encodings store_consistent)
        ++ map snd [(bela, [3; 4]%R); (chen, [1; 1]%R)] /\
    (forall x p, In x (map id (lines store_consistent)) -> In p pids -> (x < p)%Z) /\
    StronglySorted Z.lt pids /\
    ([(bela, [3; 4]%R); (chen, [1; 1]%R)] <> [] -> pkl_file s' = Holds (encodings s')).
Proof.
  assert (Hstep : in_step store_consistent).
  { split; [reflexivity|]. split; [reflexivity|]. repeat constructor. intros []. }
  assert (Hroom : room_for 2 (lines store_consistent)).
  { intros x [<- | []]. split; [apply Z.leb_le | apply Z.ltb_lt]; reflexivity. }
  split; [reflexivity|]. split; [exact Hstep|]. split; [exact Hroom|].
  apply (enroll_keeps_in_step [(bela, [3; 4]%R); (chen, [1; 1]%R)] store_consistent).
  - reflexivity.
  - exact Hstep.
  - exact Hroom.
  - apply Z.ltb_lt. reflexivity.
Defined.

Lemma select_id_some {A : Type} (pid : Z) (df : list (Row A)) (row : Row A) :
  select_id pid df = Some row ->
  id row = pid /\
  exists pre post, df = pre ++ row :: post /\ forall x, In x pre -> id x <> pid.
Proof.
  unfold select_id. induction df as [|x df IH]; simpl; intros H; [discriminate|].
  destruct (Z.eqb_spec (id x) pid) as [E | E].
  - injection H as <-. split; [assumption|].
    exists [], df. split; [reflexivity | intros y []].
  - destruct (IH H) as (Hid & pre & post & -> & Hpre). split; [assumption|].
    exists (x :: pre), post. split; [reflexivity|].
    intros y [<- | Hy]; [assumption | apply Hpre; assumption].
Qed.

Lemma select_id_none {A : Type} (pid : Z) (df : list (Row A)) :
  select_id pid df = None <-> ~ In pid (map id df).
Proof.
  unfold select_id. induction df as [|x df IH]; simpl.
  - split; [intros _ [] | reflexivity].
  - destruct (Z.eqb_spec (id x) pid) as [E | E].
    + split; [discriminate|]. intros H. exfalso. apply H. left. assumption.
    + rewrite IH. split.
      * intros H [Hx | Hin]; [contradiction | apply H; assumption].
      * intros H Hin. apply H. right. assumption.
Qed.

(** X5. [get_person_by_id]: when the table can be read, both data managers
    return the first row with the id asked for, as pandas types it, and
    [None] exactly when no row has it.  When the read fails, or the table
    file holds no table, [DataManager] raises, while [SimpleDataManager]
    prints and returns [None], as for an id that is not there. *)
Theorem get_person_by_id_lookup (pid : Z) (s : State) :
  (next_ok s -> readable s ->
   fst (SimpleDataManager.get_person_by_id pid s)
     = fst (DataManager.get_person_by_id pid s) /\
   (forall row,
      fst (DataManager.get_person_by_id pid s) = Ret (Some row) ->
      id row = pid /\
      exists pre post,
        table s = pre ++ row :: post /\ forall x, In x pre -> id x <> pid) /\
   (fst (DataManager.get_person_by_id pid s) = Ret None <->
    ~ In pid (map id (lines s)))) /\
  (hd false (faults s) = true ->
   fst (DataManager.get_person_by_id pid s) = Raise IOError /\
   SimpleDataManager.get_person_by_id pid s
     = (Ret None,
        mkState (csv_file s) (pkl_file s) (encodings s) (tl (faults s))
                (stdout s ++ [ErrorGettingPersonById]))) /\
  (~ readable s ->
   (exists ex, fst (DataManager.get_person_by_id pid s) = Raise ex) /\
   fst (SimpleDataManager.get_person_by_id pid s) = Ret None /\
   stdout (snd (SimpleDataManager.get_person_by_id pid s))
     = stdout s ++ [ErrorGettingPersonById]).
Proof.
  split; [|split].
  - intros Hok Hread. destruct (read_csv_next_ok s Hok Hread) as (s1 & Hr & _).
    assert (Hdm : fst (DataManager.get_person_by_id pid s)
                  = Ret (select_id pid (table s))).
    { unfold DataManager.get_person_by_id, bind. rewrite Hr. reflexivity. }
    split; [|split].
    + unfold SimpleDataManager.get_person_by_id, DataManager.get_person_by_id,
        try_except, bind. rewrite Hr. reflexivity.
    + intros row H. rewrite Hdm in H. injection H as H.
      apply select_id_some. assumption.
    + rewrite Hdm. rewrite <- (map_id_infer (lines s)). fold (table s).
      rewrite <- select_id_none. split; [|intros ->; reflexivity].
      intros H. injection H as H. assumption.
  - intros Hbad. split.
    + unfold DataManager.get_person_by_id, bind. rewrite (read_csv_fails s Hbad).
      reflexivity.
    + unfold SimpleDataManager.get_person_by_id, try_except, bind.
      rewrite (read_csv_fails s Hbad). reflexivity.
  - intros Hno.
    assert (H : exists ex s', read_csv s = (Raise ex, s') /\ stdout s' = stdout s).
    { unfold readable, lines in Hno. unfold read_csv, bind, file_op.
      destruct s as [csv pkl enc fl out]. cbn in *.
      destruct fl as [|[|] fl]; cbn;
        destruct csv as [|t|]; cbn;
        try (exfalso; apply Hno; reflexivity);
        eexists; eexists; split; reflexivity. }
    destruct H as (ex & s' & Hr & Hout).
    unfold SimpleDataManager.get_person_by_id, DataManager.get_person_by_id,
      try_except, bind. rewrite Hr. cbn. rewrite Hout.
    split; [exists ex; reflexivity|]. split; reflexivity.
Qed.

Lemma get_person_by_id_lookup_witness :
  next_ok store_orphan_row /\ readable store_orphan_row /\
  fst (SimpleDataManager.get_person_by_id 2 store_orphan_row)
    = fst (DataManager.get_person_by_id 2 store_orphan_row) /\
  fst (DataManager.get_person_by_id 2 store_orphan_row)
    = Ret (Some (mkRow 2 (mkPerson (Str "Bela") (Str "EE") (Str "R2") NaN
                                   (Float (Finite false 555 0))
                                   (Str "2024-01-02 11:00:00")))).
Proof.
  split; [reflexivity|]. split; [reflexivity|].
  split; [|vm_compute; reflexivity].
  apply (get_person_by_id_lookup 2 store_orphan_row); reflexivity.
Defined.

(** X6. A [SimpleDataManager] whose encodings file cannot be unpickled
    starts with an empty dict; the next successful [add_person] then writes
    that dict back, so the file that held the earlier encodings holds the
    new one alone.  [DataManager] raises at construction instead. *)
Theorem simple_init_forgets_encodings (d : Dict) (r : PersonData) (e : encoding)
    (s : State) :
  readable s ->
  pkl_file s = Holds d ->
  faults s = [true] ->
  (exists ex s', DataManager.__init__ s = (Raise ex, s') /\ pkl_file s' = Holds d) /\
  exists pid s',
    (SimpleDataManager.__init__ ;;; SimpleDataManager.add_person r e) s
      = (Ret pid, s') /\
    pkl_file s' = Holds [(pid, e)] /\
    csv_file s' = Holds (rewritten (lines s) ++ [mkRow pid r]).
Proof.
  intros Hread Hpkl Hf. destruct s as [csv pkl enc fl out].
  unfold readable, lines in Hread. simpl in Hread, Hpkl, Hf. subst.
  destruct csv as [|t|]; try discriminate Hread.
  split.
  - eexists. eexists. split; reflexivity.
  - set (s1 := mkState (Holds t) (Holds d) [] [] (out ++ [ErrorLoadingEncodings])).
    assert (Hinit : SimpleDataManager.__init__
                      (mkState (Holds t) (Holds d) enc [true] out) = (Ret tt, s1)).
    { reflexivity. }
    unfold bind at 1. rewrite Hinit.
    rewrite (simple_add_person_reliable r e s1) by reflexivity.
    rewrite (add_person_reliable r e s1) by reflexivity. cbv zeta.
    eexists. eexists. split; [reflexivity|]. split; reflexivity.
Qed.

Lemma simple_init_forgets_encodings_witness :
  readable store_bad_pickle /\
  pkl_file store_bad_pickle = Holds [(1%Z, [0; 0]%R)] /\
  faults store_bad_pickle = [true] /\
  exists pid s',
    (SimpleDataManager.__init__ ;;; SimpleDataManager.add_person bela [3; 4]%R)
      store_bad_pickle = (Ret pid, s') /\
    pkl_file s' = Holds [(pid, [3; 4]%R)] /\
    csv_file s' = Holds (rewritten (lines store_bad_pickle) ++ [mkRow pid bela]).
Proof.
  split; [reflexivity|]. split; [reflexivity|]. split; [reflexivity|].
  apply (simple_init_forgets_encodings [(1%Z, [0; 0]%R)] bela [3; 4]%R store_bad_pickle);
    reflexivity.
Defined.

(** ** More on the recognizer *)

Lemma get_person_by_id_same_store (pid : Z) (s : State) :
  same_store s (snd (DataManager.get_person_by_id pid s)).
Proof.
  destruct s as [[|t|] pkl enc [|[|] fl] out]; repeat split.
Qed.

Lemma same_store_trans (s1 s2 s3 : State) :
  same_store s1 s2 -> same_store s2 s3 -> same_store s1 s3.
Proof.
  intros (H1 & H2 & H3) (H4 & H5 & H6). repeat split; congruence.
Qed.

Lemma load_details_same_store (ids : list Z) (self : FaceRecognizer.t) (s : State) :
  same_store s (snd (load_details ids self s)) /\
  known_encodings (snd (fst (load_details ids self s))) = known_encodings self /\
  tolerance (snd (fst (load_details ids self s))) = tolerance self.
Proof.
  revert self s. induction ids as [|pid rest IH]; intros self s; simpl.
  - repeat split.
  - pose proof (get_person_by_id_same_store pid s) as Hs.
    destruct (DataManager.get_person_by_id pid s) as [[[row|]|ex] s1]; simpl in Hs.
    + match goal with
      | |- context [load_details rest ?self1 s1] =>
          destruct (IH self1 s1) as (H1 & H2 & H3)
      end.
      split; [eapply same_store_trans; eassumption|]. split; assumption.
    + destruct (IH self s1) as (H1 & H2 & H3).
      split; [eapply same_store_trans; eassumption|]. split; assumption.
    + simpl. split; [assumption|]. split; reflexivity.
Qed.

Lemma load_known_faces_same_store (self : FaceRecognizer.t) (s : State) :
  same_store s (snd (load_known_faces self s)) /\
  tolerance (fst (load_known_faces self s)) = tolerance self /\
  (known_encodings (fst (load_known_faces self s)) = map snd (encodings s) \/
   known_encodings (fst (load_known_faces self s)) = []).
Proof.
  unfold load_known_faces, DataManager.get_all_encodings.
  destruct (encodings s) as [|[p e] rest] eqn:E.
  - unfold same_store. simpl. rewrite E. auto.
  - cbv zeta. cbn [map known_encodings known_person_ids fst snd].
    match goal with
    | |- context [load_details ?ids ?self1 s] =>
        destruct (load_details_same_store ids self1 s) as (H1 & H2 & H3);
        destruct (load_details ids self1 s) as [[[u|ex] self2] s2]
    end; simpl in *.
    + split; [|split; [assumption | left; assumption]].
      destruct H1 as (Ha & Hb & Hc). repeat split; assumption.
    + split; [|split; [assumption | right; reflexivity]].
      destruct H1 as (Ha & Hb & Hc). repeat split; assumption.
Qed.

(** X7. The recognition loop only reads the store: however long it runs
    and whatever keys are pressed, the table, the encodings file and the
    dict in memory are what they were.  The encodings it matches against are
    those it started with, or, after an [r], the dict in memory (which no
    reload reads again from the file), or none after a reload that failed. *)
Theorem recognition_loop_reads_only (fuel : nat) (ticks : nat -> FaceRecognizer.Tick)
    (i : nat) (ss : Session) :
  let ss' := final (recognition_loop fuel ticks i ss) in
  same_store (store ss) (store ss') /\
  (known_encodings (recognizer ss') = known_encodings (recognizer ss) \/
   known_encodings (recognizer ss') = map snd (encodings (store ss)) \/
   known_encodings (recognizer ss') = []).
Proof.
  revert i ss. induction fuel as [|fuel IH]; intros i ss; cbn [recognition_loop].
  - simpl. repeat split. left. reflexivity.
  - destruct (interrupt (ticks i)); [simpl; repeat split; left; reflexivity|].
    destruct (read_ok (ticks i)); cbn [negb];
      [|simpl; repeat split; left; reflexivity].
    match goal with
    | |- context [match ?drawn with Ret _ => _ | Raise _ => _ end] =>
        destruct drawn as [overlays|ex]
    end; [|simpl; repeat split; left; reflexivity].
    destruct (key (ticks i) =? 113)%Z; [simpl; repeat split; left; reflexivity|].
    destruct (key (ticks i) =? 114)%Z.
    + pose proof (load_known_faces_same_store (recognizer ss)
                    (snd (print ReloadingFaces (store ss)))) as (Hs & _ & Hk).
      destruct (load_known_faces (recognizer ss)
                  (snd (print ReloadingFaces (store ss)))) as [self' s'].
      cbn [fst snd] in Hs, Hk.
      match goal with
      | |- context [recognition_loop fuel ticks (S i) ?ss1] =>
          destruct (IH (S i) ss1) as (H1 & H2)
      end.
      cbn [store recognizer] in H1, H2. cbv zeta.
      assert (Hs' : same_store (store ss) s').
      { destruct Hs as (Ha & Hb & Hc). repeat split; assumption. }
      split; [eapply same_store_trans; eassumption|].
      destruct Hs' as (_ & _ & Henc). rewrite Henc in H2.
      destruct H2 as [H2 | [H2 | H2]]; [|right; left; assumption | right; right; assumption].
      rewrite H2. destruct Hk as [Hk | Hk]; rewrite Hk; simpl; auto.
    + destruct (key (ticks i) =? 116)%Z;
        match goal with
        | |- context [recognition_loop fuel ticks (S i) ?ss1] =>
            destruct (IH (S i) ss1) as (H1 & H2)
        end; cbn [store recognizer toggle known_encodings print snd encodings] in H1, H2;
        cbv zeta; (split; [|assumption]);
        destruct H1 as (Ha & Hb & Hc); repeat split; assumption.
Qed.

(** X8. The [t] key: after one press the tolerance is 0.6 or 0.9, the
    gallery is untouched, and a second press restores the tolerance exactly
    when it was one of the two presets; a recognizer built with another
    tolerance never gets it back. *)
Theorem toggle_presets (self : FaceRecognizer.t) :
  (tolerance (toggle self) = (6 / 10)%R \/ tolerance (toggle self) = (9 / 10)%R) /\
  (tolerance (toggle (toggle self)) = tolerance self <->
   tolerance self = (6 / 10)%R \/ tolerance self = (9 / 10)%R) /\
  with_tolerance (tolerance self) (toggle self) = self.
Proof.
  assert (Hyes : forall x, x = (6 / 10)%R -> Reqb x (6 / 10) = true).
  { intros x ->. unfold Reqb. destruct (Req_dec_T (6 / 10) (6 / 10)); [reflexivity|].
    contradiction. }
  assert (Hno : forall x, x <> (6 / 10)%R -> Reqb x (6 / 10) = false).
  { intros x Hx. unfold Reqb. destruct (Req_dec_T x (6 / 10)); [contradiction|].
    reflexivity. }
  destruct self as [tol encs ids nms cls rns]. unfold toggle, with_tolerance.
  cbn [tolerance known_encodings known_person_ids known_names known_classes
       known_roll_numbers].
  destruct (Req_dec_T tol (6 / 10)) as [E | E].
  - rewrite (Hyes _ E). rewrite (Hno (9 / 10)%R) by lra.
    split; [right; reflexivity|]. split; [|reflexivity].
    split; [intros _; left; assumption | intros _; symmetry; assumption].
  - rewrite (Hno _ E). rewrite (Hyes (6 / 10)%R) by reflexivity.
    split; [left; reflexivity|]. split; [|reflexivity].
    split; [intros H; right; symmetry; assumption|].
    intros [H | H]; [contradiction | symmetry; assumption].
Qed.

Lemma in_step_have_rows (s : State) : in_step s -> encodings_have_rows s.
Proof.
  intros (_ & Hkeys & _) p Hp Hnone. rewrite Hkeys in Hp.
  apply select_id_none in Hnone. unfold table in Hnone.
  rewrite map_id_infer in Hnone. contradiction.
Qed.

(** The answer of a recognizer whose lists are at least as long as the
    gallery does not depend on what follows in them. *)
Lemma recognize_face_prefix (tol : R) (encs : list encoding) (ids : list Z)
    (nms cls rns nms' cls' rns' : list Cell) (probe : encoding) :
  parallel (FaceRecognizer.mk tol encs ids nms cls rns) ->
  recognize_face (FaceRecognizer.mk tol encs ids (nms ++ nms') (cls ++ cls')
                                    (rns ++ rns')) probe
    = recognize_face (FaceRecognizer.mk tol encs ids nms cls rns) probe.
Proof.
  intros Hpar. destruct encs as [|e0 rest] eqn:E; [reflexivity|]. rewrite <- E in *.
  destruct (first_min_exists encs probe) as (k & e & He & Hmin).
  { rewrite E. discriminate. }
  destruct (recognize_face_first_min _ probe k _ Hpar Hmin)
    as (nm & cl & rn & Hnm & Hcl & Hrn & Hres).
  cbn [known_names known_classes known_roll_numbers known_encodings] in *.
  rewrite Hres.
  rewrite (recognize_face_at
             (FaceRecognizer.mk tol encs ids (nms ++ nms') (cls ++ cls') (rns ++ rns'))
             probe k (euclidean e probe) nm cl rn);
    cbn [known_encodings known_names known_classes known_roll_numbers tolerance];
    try first [reflexivity | assumption].
  - rewrite nth_error_app1; [assumption|]. apply nth_error_Some. congruence.
  - rewrite nth_error_app1; [assumption|]. apply nth_error_Some. congruence.
  - rewrite nth_error_app1; [assumption|]. apply nth_error_Some. congruence.
Qed.

(** X9. Reloading with [r] on an unchanged store appends the names, classes
    and roll numbers once more to the lists of the recognizer, which grow
    with every reload; the encodings stay as they are and so does the answer
    for every probe. *)
Theorem reload_keeps_answers (tol : R) (s : State) :
  reliable s ->
  encodings_have_rows s ->
  let self := fst (load_known_faces (FaceRecognizer.mk tol [] [] [] [] []) s) in
  let self2 := fst (load_known_faces self s) in
  known_encodings self2 = known_encodings self /\
  known_names self2 = known_names self ++ known_names self /\
  known_classes self2 = known_classes self ++ known_classes self /\
  known_roll_numbers self2 = known_roll_numbers self ++ known_roll_numbers self /\
  forall probe, recognize_face self2 probe = recognize_face self probe.
Proof.
  intros Hrel Hrows self self2. subst self self2.
  destruct (encodings s) as [|[p e] rest] eqn:E.
  - unfold load_known_faces, DataManager.get_all_encodings. rewrite E. simpl. auto.
  - assert (Hne : encodings s <> []) by (rewrite E; discriminate).
    pose proof (rows_readable s Hrows Hne) as Hread.
    rewrite (load_known_faces_loaded _ s Hrel Hread Hne).
    rewrite (load_known_faces_loaded _ s Hrel Hread Hne).
    cbv zeta. cbn [known_names known_classes known_roll_numbers known_encodings
                   tolerance app].
    repeat (split; [reflexivity|]).
    intros probe. apply recognize_face_prefix.
    unfold parallel.
    cbn [known_names known_classes known_roll_numbers known_encodings].
    rewrite !length_map, (found_rows_length _ _ Hrows), length_map. auto.
Qed.

Lemma reload_keeps_answers_witness :
  reliable store_consistent /\ encodings_have_rows store_consistent /\
  forall probe,
    recognize_face
      (fst (load_known_faces
              (fst (load_known_faces fresh_recognizer store_consistent))
              store_consistent)) probe
    = recognize_face (fst (load_known_faces fresh_recognizer store_consistent)) probe.
Proof.
  assert (Hrows : encodings_have_rows store_consistent).
  { intros p [<- | []]. discriminate. }
  split; [reflexivity|]. split; [exact Hrows|].
  apply (reload_keeps_answers (6 / 10)%R store_consistent).
  - reflexivity.
  - exact Hrows.
Defined.

(** X10. Enrol, restart, recognise.  After [add_person r e] into a store
    that is in step and has room for one more id, a recognizer constructed
    on the result (any tolerance that is not negative) answers the probe
    [e] with confidence 1 and with the name, class and roll number of [r]
    as [read_csv] types them in the table: the same text for a field that
    stays text, [nan] for a field that stands for a missing value;
    provided no encoding enrolled earlier is at distance 0 from [e]. *)
Theorem enrolled_person_is_recognised (r : PersonData) (e : encoding) (tol : R)
    (s : State) :
  reliable s ->
  in_step s ->
  room_for 1 (lines s) ->
  (0 <= tol)%R ->
  (forall e', In e' (map snd (encodings s)) -> euclidean e' e <> 0%R) ->
  exists pid s1 self s2 row,
    DataManager.add_person r e s = (Ret pid, s1) /\
    FaceRecognizer.__init__ tol s1 = (Ret self, s2) /\
    row = type_row (kinds (lines s1)) (mkRow pid r) /\
    recognize_face self e
      = Ret (name (details row), class_name (details row),
             roll_number (details row), 1%R) /\
    read_back (name r) (name (details row)) /\
    read_back (class_name r) (class_name (details row)) /\
    read_back (roll_number r) (roll_number (details row)).
Proof.
  intros Hrel Hstep Hroom Htol Hfar.
  destruct (add_person_in_step r e s 0 Hrel Hstep Hroom)
    as (pid & s1 & Hadd & Hgt & Hrel1 & Hstep1 & _ & Hcsv & Henc & Hpkl);
    [apply Z.ltb_lt; reflexivity|].
  pose proof Hstep1 as (Hread1 & _).
  exists pid, s1.
  assert (Hinit : DataManager.__init__ s1 = (Ret tt, s1)).
  { destruct s1 as [csv1 pkl1 enc1 fl1 out1]. unfold reliable in Hrel1.
    unfold readable in Hread1. simpl in Hrel1, Hpkl, Hread1. subst fl1 pkl1.
    rewrite Hread1. reflexivity. }
  unfold FaceRecognizer.__init__. rewrite Hinit.
  destruct (load_known_faces (FaceRecognizer.mk tol [] [] [] [] []) s1)
    as [self s2] eqn:Eload.
  set (row := type_row (kinds (lines s1)) (mkRow pid r)).
  exists self, s2, row. split; [assumption|]. split; [reflexivity|].
  split; [reflexivity|].
  assert (Hself : self = fst (load_known_faces (FaceRecognizer.mk tol [] [] [] [] []) s1))
    by (rewrite Eload; reflexivity).
  assert (Hne : encodings s1 <> []).
  { rewrite Henc. intros H. apply app_eq_nil in H. destruct H as (_ & H). discriminate. }
  rewrite (load_known_faces_loaded _ s1 Hrel1 Hread1 Hne) in Hself. cbv zeta in Hself.
  cbn [known_names known_classes known_roll_numbers tolerance app] in Hself.
  pose proof (in_step_have_rows s1 Hstep1) as Hrows.
  set (k := List.length (encodings s)).
  assert (Hpidk : nth_error (map fst (encodings s1)) k = Some pid).
  { rewrite Henc, map_app. rewrite nth_error_app2 by (rewrite length_map; subst k; lia).
    rewrite length_map. subst k. rewrite Nat.sub_diag. reflexivity. }
  assert (Hrow : select_id pid (table s1) = Some row).
  { subst row. unfold table. rewrite Hcsv. apply select_new_line.
    intros x Hx Hid.
    assert (Hin : In (id x) (map id (lines s))).
    { rewrite <- (map_id_infer (lines s)), <- map_id_render.
      apply in_map. exact Hx. }
    specialize (Hgt (id x) Hin). lia. }
  assert (Hfound : nth_error (found_rows (map fst (encodings s1)) (table s1)) k
                   = Some row).
  { rewrite (found_rows_nth _ _ k pid Hrows Hpidk). assumption. }
  assert (Hmin : first_min (face_distance (map snd (encodings s1)) e) k 0%R).
  { unfold face_distance. rewrite Henc, !map_app. simpl. repeat split.
    - rewrite nth_error_app2 by (rewrite !length_map; subst k; lia).
      rewrite !length_map. subst k. rewrite Nat.sub_diag. simpl.
      rewrite euclidean_self. reflexivity.
    - intros j dj Hj. apply nth_error_In in Hj.
      apply in_app_or in Hj. destruct Hj as [Hj | [<- | []]].
      + apply in_map_iff in Hj. destruct Hj as (e' & <- & _). apply euclidean_nonneg.
      + apply euclidean_nonneg.
    - intros j dj Hjk Hj.
      rewrite nth_error_app1 in Hj by (rewrite !length_map; subst k; lia).
      apply nth_error_In in Hj. apply in_map_iff in Hj.
      destruct Hj as (e' & <- & He').
      pose proof (euclidean_nonneg e' e). specialize (Hfar e' He'). lra. }
  split.
  { rewrite Hself.
    rewrite (recognize_face_at _ e k 0%R (name (details row))
               (class_name (details row)) (roll_number (details row))).
    - cbn [tolerance]. replace (Rleb 0 tol) with true
        by (symmetry; apply Rleb_true; assumption).
      do 2 f_equal. ring.
    - exact Hmin.
    - cbn [known_names]. rewrite nth_error_map, Hfound. reflexivity.
    - cbn [known_classes]. rewrite nth_error_map, Hfound. reflexivity.
    - cbn [known_roll_numbers]. rewrite nth_error_map, Hfound. reflexivity. }
  assert (Hin : In (mkRow pid r) (lines s1)).
  { rewrite Hcsv. apply in_or_app. right. left. reflexivity. }
  subst row.
  cbn [details type_row name class_name roll_number kinds].
  split; [|split]; apply typed_read_back;
    match goal with
    | |- In (?f r) (column ?f _) =>
        apply (in_map (fun x => f (details x)) (lines s1) (mkRow pid r) Hin)
    end.
Qed.

Lemma enrolled_person_is_recognised_witness :
  reliable store_empty /\ in_step store_empty /\ room_for 1 (lines store_empty) /\
  (0 <= 6 / 10)%R /\
  exists pid s1 self s2,
    DataManager.add_person asha [0; 1]%R store_empty = (Ret pid, s1) /\
    FaceRecognizer.__init__ (6 / 10) s1 = (Ret self, s2) /\
    recognize_face self [0; 1]%R = Ret (Str "Asha", Str "CS", Str "R1", 1%R).
Proof.
  assert (Hstep : in_step store_empty).
  { split; [reflexivity|]. split; [reflexivity | constructor]. }
  assert (Hroom : room_for 1 (lines store_empty)) by (intros x []).
  split; [reflexivity|]. split; [exact Hstep|]. split; [exact Hroom|]. split; [lra|].
  destruct (enrolled_person_is_recognised asha [0; 1]%R (6 / 10)%R store_empty
              eq_refl Hstep Hroom)
    as (pid & s1 & self & s2 & row & Hadd & Hinit & Hrow & Hrec & Hnm & Hcl & Hrn).
  - lra.
  - intros e' [].
  - exists pid, s1, self, s2. split; [assumption|]. split; [assumption|].
    rewrite Hrec.
    rewrite (proj1 Hnm eq_refl), (proj1 Hcl eq_refl), (proj1 Hrn eq_refl).
    reflexivity.
Defined.

(** A roll number written with leading zeros is not answered as written:
    the recognizer built after the enrolment of [dev] answers his face with
    the roll number 7, an integer. *)
Example enrolled_roll_number_retyped :
  exists s1 self s2,
    DataManager.add_person dev [0; 1]%R store_empty = (Ret 1%Z, s1) /\
    FaceRecognizer.__init__ (6 / 10) s1 = (Ret self, s2) /\
    known_roll_numbers self = [Int 7] /\
    recognize_face self [0; 1]%R = Ret (Str "Dev", Str "CS", Int 7, 1%R).
Proof.
  rewrite (add_person_reliable dev [0; 1]%R store_empty eq_refl eq_refl). cbv zeta.
  set (s1 := mkState (Holds [mkRow 1 dev]) (Holds [(1%Z, [0; 1]%R)])
                     [(1%Z, [0; 1]%R)] [] []).
  exists s1.
  exists (FaceRecognizer.mk (6 / 10) [[0; 1]]%R [1]%Z [Str "Dev"] [Str "CS"] [Int 7]).
  exists (say (Loaded 1) s1).
  split; [reflexivity|]. split; [reflexivity|]. split; [reflexivity|].
  rewrite (recognize_face_at _ [0; 1]%R 0 0%R (Str "Dev") (Str "CS") (Int 7));
    try reflexivity.
  - cbn [tolerance]. rewrite Rleb_0_tol. do 2 f_equal. ring.
  - unfold face_distance. cbn [known_encodings map]. rewrite euclidean_self.
    repeat split.
    + intros [|j] dj Hj; simpl in Hj; [injection Hj as <-; lra | destruct j; discriminate].
    + intros j dj Hj. lia.
Qed.

(** ** More on web_deploy.py *)

Lemma first_min_in_range (ds : list R) (k : nat) (d : R) :
  first_min ds k d -> (k < List.length ds)%nat.
Proof.
  intros (Hk & _). apply nth_error_Some. rewrite Hk. discriminate.
Qed.

(** The label of one face in web_deploy.py when the table can be read. *)
Lemma name_for_reliable (encs : list encoding) (ids : list Z) (probe : encoding)
    (s : State) (k : nat) (d : R) (pid : Z) :
  reliable s -> readable s ->
  first_min (face_distance encs probe) k d ->
  nth_error ids k = Some pid ->
  WebDeploy.name_for encs ids probe s =
    (Ret (if Rleb d (6 / 10) then WebDeploy.name_of (select_id pid (table s))
          else Str "Unknown Person"), s).
Proof.
  intros Hrel Hread Hmin Hpid. pose proof Hmin as (Hk & Hle & _).
  unfold WebDeploy.name_for.
  assert (Hm : nth_error (compare_faces encs probe (6 / 10)) k = Some (Rleb d (6 / 10))).
  { unfold compare_faces. rewrite nth_error_map, Hk. reflexivity. }
  destruct (Rleb d (6 / 10)) eqn:E.
  - rewrite True_in_true by (eapply nth_error_In; eassumption).
    rewrite (argmin_is_first_min _ _ _ Hmin).
    unfold py_index. rewrite Hm, Hpid.
    rewrite (get_person_by_id_reliable pid s Hrel Hread). reflexivity.
  - rewrite True_in_false; [reflexivity|].
    intros b Hb. unfold compare_faces in Hb.
    apply in_map_iff in Hb. destruct Hb as (dj & <- & Hdj).
    apply In_nth_error in Hdj. destruct Hdj as (j & Hj).
    apply Rleb_false in E. apply Rleb_false.
    specialize (Hle j dj Hj). lra.
Qed.

Lemma select_id_in {A : Type} (pid : Z) (df : list (Row A)) (row : Row A) :
  select_id pid df = Some row -> In row df.
Proof. unfold select_id. intros H. apply find_some in H. apply H. Qed.

(** With names that are text the label of a face is a text. *)
Lemma name_for_returns (encs : list encoding) (ids : list Z) (probe : encoding)
    (s : State) :
  reliable s -> readable s -> names_are_text s ->
  encs <> [] -> List.length ids = List.length encs ->
  exists nm, WebDeploy.name_for encs ids probe s = (Ret (Str nm), s).
Proof.
  intros Hrel Hread Htext Hne Hlen.
  destruct (first_min_exists encs probe Hne) as (k & e & He & Hmin).
  assert (Hk : (k < List.length encs)%nat)
    by (apply nth_error_Some; rewrite He; discriminate).
  destruct (nth_error_in_range ids k _ Hlen Hk) as (pid & Hpid).
  rewrite (name_for_reliable encs ids probe s k _ pid Hrel Hread Hmin Hpid).
  destruct (Rleb (euclidean e probe) (6 / 10)); [|eexists; reflexivity].
  destruct (select_id pid (table s)) as [row|] eqn:Erow; [|eexists; reflexivity].
  destruct (Htext row (select_id_in _ _ _ Erow)) as (text & Ht).
  exists text. cbn [WebDeploy.name_of]. rewrite Ht. reflexivity.
Qed.

Lemma draw_faces_reliable (encs : list encoding) (ids : list Z) (locations : list Box)
    (faces : list encoding) (drawn : list (Box * string)) (s : State) :
  reliable s -> readable s -> names_are_text s ->
  encs <> [] -> List.length ids = List.length encs ->
  exists names,
    Forall2 (fun enc nm => WebDeploy.name_for encs ids enc s = (Ret (Str nm), s))
            faces names /\
    WebDeploy.draw_faces encs ids locations faces drawn s
      = (Ret tt,
         drawn ++ flat_map (fun nm => map (fun loc => (loc, nm)) locations) names,
         s).
Proof.
  intros Hrel Hread Htext Hne Hlen. revert drawn.
  induction faces as [|enc rest IH]; intros drawn; simpl.
  - exists []. split; [constructor|]. simpl. rewrite app_nil_r. reflexivity.
  - destruct (name_for_returns encs ids enc s Hrel Hread Htext Hne Hlen) as (nm & Hnm).
    rewrite Hnm. cbn [WebDeploy.draw_name].
    destruct (IH (drawn ++ map (fun loc => (loc, nm)) locations)) as (names & Hall & Hd).
    exists (nm :: names). split; [constructor; assumption|].
    rewrite Hd. simpl. rewrite <- app_assoc. reflexivity.
Qed.

Lemma length_flat_map_const {A B : Type} (f : A -> list B) (l : list A) (n : nat) :
  (forall a, List.length (f a) = n) ->
  List.length (flat_map f l) = (List.length l * n)%nat.
Proof.
  intros H. induction l as [|a l IH]; simpl; [reflexivity|].
  rewrite length_app, H, IH. reflexivity.
Qed.

(** X11. web_deploy.py, for any frame, with somebody enrolled and a table
    that can be read and whose names are read as text: every face of the
    frame gets a label, and every detected box, scaled by 4, is drawn once
    under each of these labels, face after face; a frame with n faces gets
    n * n overlays, and the store is left as it was. *)
Theorem web_overlays_every_box_every_label (frame : Frame) (s : State) :
  reliable s ->
  readable s ->
  names_are_text s ->
  encodings s <> [] ->
  exists names,
    Forall2 (fun enc nm =>
               WebDeploy.name_for (map snd (encodings s)) (map fst (encodings s)) enc s
                 = (Ret (Str nm), s))
            (face_encodings frame) names /\
    WebDeploy.recognize_faces_in_frame frame s
      = (flat_map (fun nm => map (fun loc => (scale_up loc, nm)) (face_locations frame))
                  names, s) /\
    List.length (fst (WebDeploy.recognize_faces_in_frame frame s))
      = (List.length frame * List.length frame)%nat.
Proof.
  intros Hrel Hread Htext Hne.
  assert (Hne' : map snd (encodings s) <> []).
  { intros H. apply map_eq_nil in H. contradiction. }
  assert (Hlen : List.length (map fst (encodings s)) = List.length (map snd (encodings s)))
    by (rewrite !length_map; reflexivity).
  destruct (draw_faces_reliable (map snd (encodings s)) (map fst (encodings s))
              (map scale_up (face_locations frame)) (face_encodings frame) [] s
              Hrel Hread Htext Hne' Hlen) as (names & Hall & Hd).
  assert (Heq : WebDeploy.recognize_faces_in_frame frame s
                = (flat_map (fun nm => map (fun loc => (scale_up loc, nm))
                                           (face_locations frame)) names, s)).
  { unfold WebDeploy.recognize_faces_in_frame, DataManager.get_all_encodings.
    destruct (map snd (encodings s)) as [|e0 rest] eqn:E; [contradiction|].
    rewrite Hd. simpl. f_equal.
    apply flat_map_ext. intros nm. rewrite map_map. reflexivity. }
  exists names. split; [assumption|]. split; [assumption|].
  rewrite Heq. cbn [fst].
  rewrite (length_flat_map_const _ names (List.length frame)).
  - f_equal. apply Forall2_length in Hall. unfold face_encodings in Hall.
    rewrite length_map in Hall. symmetry. assumption.
  - intros nm. unfold face_locations. rewrite !length_map. reflexivity.
Qed.

Lemma web_overlays_every_box_every_label_witness :
  reliable store_consistent /\ readable store_consistent /\
  names_are_text store_consistent /\ encodings store_consistent <> [] /\
  List.length (fst (WebDeploy.recognize_faces_in_frame frame_two_faces store_consistent))
    = (List.length frame_two_faces * List.length frame_two_faces)%nat.
Proof.
  assert (Htext : names_are_text store_consistent).
  { intros row [<- | []]. eexists. reflexivity. }
  split; [reflexivity|]. split; [reflexivity|]. split; [exact Htext|].
  split; [discriminate|].
  destruct (web_overlays_every_box_every_label frame_two_faces store_consistent)
    as (names & _ & _ & Hlen).
  - reflexivity.
  - reflexivity.
  - exact Htext.
  - discriminate.
  - exact Hlen.
Defined.

(** X12. web_deploy.py and recognize.py agree on names: on a readable store
    in which every encoding has its row, the label web_deploy.py finds for a
    face is the name that a recognizer loaded from the same store with
    tolerance 0.6 answers for it. *)
Theorem web_label_is_recognizer_name (s : State) (probe : encoding) :
  reliable s ->
  encodings_have_rows s ->
  encodings s <> [] ->
  exists nm cl rn c,
    recognize_face
      (fst (load_known_faces (FaceRecognizer.mk (6 / 10) [] [] [] [] []) s)) probe
      = Ret (nm, cl, rn, c) /\
    WebDeploy.name_for (map snd (encodings s)) (map fst (encodings s)) probe s
      = (Ret nm, s).
Proof.
  intros Hrel Hrows Hne.
  pose proof (rows_readable s Hrows Hne) as Hread.
  rewrite (load_known_faces_loaded _ s Hrel Hread Hne). cbv zeta.
  cbn [known_names known_classes known_roll_numbers tolerance app].
  assert (Hne' : map snd (encodings s) <> []).
  { intros H. apply map_eq_nil in H. contradiction. }
  destruct (first_min_exists (map snd (encodings s)) probe Hne')
    as (k & e & He & Hmin).
  assert (Hk : (k < List.length (map fst (encodings s)))%nat).
  { rewrite length_map. rewrite <- (length_map snd).
    apply nth_error_Some. rewrite He. discriminate. }
  destruct (nth_error_in_range (map fst (encodings s)) k _ eq_refl Hk) as (pid & Hpid).
  destruct (select_id pid (table s)) as [row|] eqn:Erow.
  2:{ exfalso. apply (Hrows pid); [|assumption]. eapply nth_error_In. eassumption. }
  pose proof (found_rows_nth _ _ k pid Hrows Hpid) as Hfound. rewrite Erow in Hfound.
  rewrite (name_for_reliable _ _ probe s k _ pid Hrel Hread Hmin Hpid), Erow.
  rewrite (recognize_face_at _ probe k (euclidean e probe)
             (name (details row)) (class_name (details row))
             (roll_number (details row)));
    cbn [known_encodings known_names known_classes known_roll_numbers tolerance];
    try assumption; try (rewrite nth_error_map, Hfound; reflexivity).
  destruct (Rleb (euclidean e probe) (6 / 10)); do 4 eexists; split; reflexivity.
Qed.

Lemma web_label_is_recognizer_name_witness :
  reliable store_consistent /\ encodings_have_rows store_consistent /\
  encodings store_consistent <> [] /\
  exists nm cl rn c,
    recognize_face
      (fst (load_known_faces (FaceRecognizer.mk (6 / 10) [] [] [] [] [])
                             store_consistent)) [3; 4]%R
      = Ret (nm, cl, rn, c) /\
    WebDeploy.name_for (map snd (encodings store_consistent))
                       (map fst (encodings store_consistent)) [3; 4]%R store_consistent
      = (Ret nm, store_consistent).
Proof.
  assert (Hrows : encodings_have_rows store_consistent).
  { intros p [<- | []]. discriminate. }
  split; [reflexivity|]. split; [exact Hrows|]. split; [discriminate|].
  apply (web_label_is_recognizer_name store_consistent [3; 4]%R).
  - reflexivity.
  - exact Hrows.
  - discriminate.
Defined.

(** X13. [generate_frames] yields one chunk for every iteration on which the
    frame is read and encoded, and nothing for the others; what was yielded
    stays, in order.  With a camera whose reads all fail it yields nothing
    and prints nothing, however long it runs. *)
Theorem generate_frames_yields_good_ticks (fuel : nat) (ticks : nat -> WebDeploy.Tick)
    (i : nat) (s : State) (yielded : list (list (Box * string))) :
  (exists new s',
     WebDeploy.generate_frames fuel ticks i s yielded = Running (yielded ++ new, s') /\
     List.length new = List.length (good_ticks ticks i fuel)) /\
  ((forall k, WebDeploy.read_ok (ticks k) = false) ->
   WebDeploy.generate_frames fuel ticks i s yielded = Running (yielded, s)).
Proof.
  split.
  - revert i s yielded. induction fuel as [|fuel IH]; intros i s yielded.
    + exists [], s. simpl. rewrite app_nil_r. split; reflexivity.
    + cbn [WebDeploy.generate_frames]. unfold good_ticks. cbn [seq filter].
      destruct (WebDeploy.read_ok (ticks i)); cbn [negb andb].
      * destruct (WebDeploy.recognize_faces_in_frame (WebDeploy.frame (ticks i)) s)
          as [drawn s1].
        destruct (WebDeploy.encode_ok (ticks i)); cbn [negb].
        -- destruct (IH (S i) s1 (yielded ++ [drawn])) as (new & s' & He & Hl).
           exists (drawn :: new), s'. rewrite He, <- app_assoc. simpl.
           split; [reflexivity|]. f_equal. assumption.
        -- apply IH.
      * apply IH.
  - intros Hdead. revert i. induction fuel as [|fuel IH]; intros i.
    + reflexivity.
    + cbn [WebDeploy.generate_frames]. rewrite Hdead. cbn [negb]. apply IH.
Qed.


(** ** More on the capture of register.py *)

Lemma capture_loop_some (remaining : nat) (ticks : nat -> Register.Tick) (i : nat)
    (e : encoding) (out : list Msg) (n : nat) :
  Register.capture_loop remaining ticks i = (Some e, out, n) ->
  out = [] /\
  exists m, n = S m /\ (n <= remaining)%nat /\
            shot (ticks (i + m)%nat) e /\
            forall j, (j < m)%nat -> passes (ticks (i + j)%nat).
Proof.
  revert i n. induction remaining as [|rem IH]; intros i n H; simpl in H.
  - discriminate.
  - destruct (Register.capture_loop rem ticks (S i)) as [[r' out'] n'] eqn:Erec.
    assert (Hagain : (r', out', S n') = (Some e, out, n) ->
                     out = [] /\
                     exists m, n = S m /\ (n <= S rem)%nat /\
                               shot (ticks (i + m)%nat) e /\
                               forall j, (j < m)%nat -> passes (ticks (i + j)%nat)).
    { intros Hag. injection Hag as -> -> <-.
      destruct (IH (S i) n' Erec) as (Hout & m & -> & Hle & Hshot & Hpass).
      split; [assumption|]. exists (S m). split; [reflexivity|]. split; [lia|].
      rewrite Nat.add_succ_r. split; [assumption|].
      intros j Hj. destruct j as [|j].
      - rewrite Nat.add_0_r.
        destruct (Register.read_ok (ticks i)) eqn:Er; [|discriminate].
        destruct (Register.locations (ticks i)) as [locs|ex] eqn:El; [|discriminate].
        unfold passes. rewrite Er, El.
        split; [reflexivity|]. split; [eexists; reflexivity|].
        intros Hk. rewrite Hk in H. simpl in H. discriminate.
      - rewrite Nat.add_succ_r. apply Hpass. lia. }
    destruct (Register.read_ok (ticks i)) eqn:Er; simpl in H; [|discriminate].
    destruct (Register.locations (ticks i)) as [locs|ex] eqn:El; [|discriminate].
    destruct (Register.key (ticks i) =? 32)%Z eqn:Ek.
    + destruct locs as [|loc locs]; [apply Hagain; assumption|].
      destruct (Register.encs (ticks i)) as [[|e0 es]|ex] eqn:Ee;
        try (apply Hagain; assumption).
      injection H as <- <- <-. split; [reflexivity|].
      exists 0%nat. split; [reflexivity|]. split; [lia|]. rewrite Nat.add_0_r.
      split; [|intros j Hj; lia].
      apply Z.eqb_eq in Ek. unfold shot. rewrite Er, El, Ee, Ek.
      repeat split; eauto.
    + destruct (Register.key (ticks i) =? 27)%Z; [discriminate|].
      apply Hagain; assumption.
Qed.

Lemma capture_from_webcam_unfold (cams : Z -> bool) (feed : Z -> nat -> Register.Tick)
    (idx : Z) :
  Register.capture_from_webcam cams feed idx =
    if cams idx then
      (fst (fst (Register.capture_loop Register.max_attempts (feed idx) 0)),
       snd (fst (Register.capture_loop Register.max_attempts (feed idx) 0)),
       snd (Register.capture_loop Register.max_attempts (feed idx) 0),
       [Open idx true; Release idx])
    else (None, [CameraNotAvailable idx], 0%nat, [Open idx false; Release idx]).
Proof.
  unfold Register.capture_from_webcam.
  generalize (Register.capture_loop Register.max_attempts (feed idx) 0).
  intros [[r out] n]. destruct (cams idx); reflexivity.
Qed.

(** X17. [capture_from_webcam] of register.py returns an encoding only from
    an iteration, among the first 100, on which a frame was read, a face
    detected, SPACE pressed and the encoding computed; on every iteration
    before it a frame was read, detection returned and ESC was not pressed;
    and the camera was open. *)
Theorem capture_only_on_space (cams : Z -> bool) (feed : Z -> nat -> Register.Tick)
    (idx : Z) (e : encoding) (out : list Msg) (n : nat) (trace : list CamEvent) :
  Register.capture_from_webcam cams feed idx = (Some e, out, n, trace) ->
  cams idx = true /\
  exists m, n = S m /\ (m < 100)%nat /\
            shot (feed idx m) e /\
            forall j, (j < m)%nat -> passes (feed idx j).
Proof.
  intros H. rewrite capture_from_webcam_unfold in H.
  destruct (cams idx); [|discriminate]. split; [reflexivity|].
  revert H.
  generalize (capture_loop_some Register.max_attempts (feed idx) 0 e).
  generalize (Register.capture_loop Register.max_attempts (feed idx) 0).
  intros [[r o] k] Hsome H. cbn [fst snd] in H. injection H as -> -> -> _.
  destruct (Hsome out n eq_refl) as (_ & m & -> & Hle & Hshot & Hpass).
  exists m. split; [reflexivity|]. split; [unfold Register.max_attempts in Hle; lia|].
  split; [exact Hshot | exact Hpass].
Qed.

Lemma capture_only_on_space_witness :
  Register.capture_from_webcam only_camera_1 press_space 1
    = (Some [0; 0]%R, [], 1%nat, [Open 1 true; Release 1]) /\
  only_camera_1 1 = true /\
  exists m, 1%nat = S m /\ (m < 100)%nat /\
            shot (press_space 1 m) [0; 0]%R /\
            forall j, (j < m)%nat -> passes (press_space 1 j).
Proof.
  assert (H : Register.capture_from_webcam only_camera_1 press_space 1
              = (Some [0; 0]%R, [], 1%nat, [Open 1 true; Release 1]))
    by reflexivity.
  split; [exact H|].
  exact (capture_only_on_space only_camera_1 press_space 1 [0; 0]%R [] 1%nat
           [Open 1 true; Release 1] H).
Defined.

(** ** Witnesses for the loader and the frame processor *)

Lemma first_load_parallel_witness :
  reliable store_consistent /\
  (forall p, In p (map fst (encodings store_consistent)) ->
             select_id p (table store_consistent) <> None) /\
  parallel (fst (load_known_faces (FaceRecognizer.mk (6 / 10) [] [] [] [] [])
                                  store_consistent)).
Proof.
  assert (Hrows : forall p, In p (map fst (encodings store_consistent)) ->
                            select_id p (table store_consistent) <> None).
  { intros p [<- | []]. discriminate. }
  split; [reflexivity|]. split; [exact Hrows|].
  exact (proj1 (first_load_parallel (6 / 10)%R store_consistent eq_refl Hrows)).
Defined.

Lemma interactive_overlays_follow_detection_witness :
  parallel gallery_two /\
  exists infos,
    recognize_faces_in_frame gallery_two frame_two_faces
      = Ret (face_locations frame_two_faces, infos) /\
    List.length (draw_face_info (face_locations frame_two_faces) infos)
      = List.length frame_two_faces /\
    Forall2 (fun face overlay =>
               fst overlay = scale_up (fst face) /\
               recognize_face gallery_two (snd face) = Ret (snd overlay))
            frame_two_faces (draw_face_info (face_locations frame_two_faces) infos).
Proof.
  split; [repeat split|].
  apply (interactive_overlays_follow_detection gallery_two frame_two_faces).
  repeat split.
Defined.

(** ** simple_register.py *)

(** X19. [test_camera] of simple_register.py returns the first index, in
    the order tried, whose camera opens and gives a frame, and [None] when
    there is none; it tries no index after that one, and every handle that
    opened is released before the next index is tried. *)
Theorem test_cameras_first_working (cams reads : Z -> bool) (indices : list Z) :
  fst (fst (SimpleRegister.test_cameras cams reads indices))
    = find (fun i => cams i && reads i) indices /\
  snd (SimpleRegister.test_cameras cams reads indices)
    = flat_map (fun i => if cams i then [Open i true; Release i] else [Open i false])
               (tried_until (fun i => cams i && reads i) indices).
Proof.
  induction indices as [|i rest (IHr & IHt)]; simpl.
  - split; reflexivity.
  - destruct (SimpleRegister.test_cameras cams reads rest) as [[r out] trace].
    simpl in IHr, IHt.
    destruct (cams i) eqn:Ec; simpl.
    + destruct (reads i); simpl; rewrite Ec; [split; reflexivity|].
      split; [assumption | rewrite IHt; reflexivity].
    + rewrite Ec. split; [assumption | rewrite IHt; reflexivity].
Qed.

Lemma disk_op_ret (d d' : SimpleRegister.Disk) :
  SimpleRegister.disk_op d = (Ret tt, d') ->
  SimpleRegister.csv d' = SimpleRegister.csv d /\
  SimpleRegister.pkl d' = SimpleRegister.pkl d.
Proof.
  unfold SimpleRegister.disk_op. destruct d as [c p [|[|] fl] out]; cbn; intros H;
    try discriminate H; injection H as <-; split; reflexivity.
Qed.

Lemma read_csv_if_exists_ret (d d' : SimpleRegister.Disk) (found : option DataFrame) :
  SimpleRegister.read_csv_if_exists d = (Ret found, d') ->
  SimpleRegister.csv d' = SimpleRegister.csv d /\
  SimpleRegister.pkl d' = SimpleRegister.pkl d /\
  found = match SimpleRegister.csv d with
          | Holds t => Some (infer t)
          | _ => None
          end /\
  SimpleRegister.csv d <> Cut.
Proof.
  unfold SimpleRegister.read_csv_if_exists.
  destruct (SimpleRegister.csv d) as [|t|] eqn:Ec.
  - intros H. injection H as <- <-. rewrite Ec. repeat split. discriminate.
  - destruct (SimpleRegister.disk_op d) as [[[]|ex] d1] eqn:Eop; intros H;
      [|discriminate H].
    injection H as <- <-. destruct (disk_op_ret d d1 Eop) as (H1 & H2).
    rewrite H1, H2, Ec. repeat split. discriminate.
  - destruct (SimpleRegister.disk_op d) as [[[]|ex] d1]; intros H; discriminate H.
Qed.

Lemma disk_to_csv_ret (df : DataFrame) (d d' : SimpleRegister.Disk) :
  SimpleRegister.disk_to_csv df d = (Ret tt, d') ->
  SimpleRegister.csv d' = Holds (render df) /\
  SimpleRegister.pkl d' = SimpleRegister.pkl d.
Proof.
  unfold SimpleRegister.disk_to_csv, SimpleRegister.disk_op.
  destruct d as [c p [|[|] [|[|] fl]] out]; cbn; intros H;
    try discriminate H; injection H as <-; split; reflexivity.
Qed.

Lemma load_if_exists_ret (d d' : SimpleRegister.Disk) (encs : Dict) :
  SimpleRegister.load_if_exists d = (Ret encs, d') ->
  encs = dict_of (SimpleRegister.pkl d) /\
  SimpleRegister.csv d' = SimpleRegister.csv d /\
  SimpleRegister.pkl d' = SimpleRegister.pkl d.
Proof.
  unfold SimpleRegister.load_if_exists, SimpleRegister.disk_op.
  destruct d as [c [|d0|] [|[|] fl] out]; cbn; intros H;
    try discriminate H; injection H as <- <-; repeat split.
Qed.

Lemma disk_dump_ret (encs : Dict) (d d' : SimpleRegister.Disk) :
  SimpleRegister.disk_dump encs d = (Ret tt, d') ->
  SimpleRegister.pkl d' = Holds encs /\
  SimpleRegister.csv d' = SimpleRegister.csv d.
Proof.
  unfold SimpleRegister.disk_dump, SimpleRegister.disk_op.
  destruct d as [c p [|[|] [|[|] fl]] out]; cbn; intros H;
    try discriminate H; injection H as <-; split; reflexivity.
Qed.

(** What the body of [save_person_data] has done when it returns. *)
Lemma save_body_ret (r : PersonData) (e : encoding) (d d' : SimpleRegister.Disk)
    (pid : Z) :
  SimpleRegister.save_body r e d = (Ret pid, d') ->
  pid = next_id_of (infer (rows_of (SimpleRegister.csv d))) /\
  SimpleRegister.csv d'
    = Holds (rewritten (rows_of (SimpleRegister.csv d)) ++ [mkRow pid r]) /\
  SimpleRegister.pkl d' = Holds (dict_set pid e (dict_of (SimpleRegister.pkl d))).
Proof.
  unfold SimpleRegister.save_body. intros H.
  destruct (SimpleRegister.read_csv_if_exists d) as [[found|ex] d1] eqn:E1;
    [|discriminate H].
  destruct (read_csv_if_exists_ret d d1 found E1) as (Hc1 & Hp1 & Hf1 & _).
  destruct (SimpleRegister.read_csv_if_exists d1) as [[found2|ex] d2] eqn:E2;
    [|discriminate H].
  destruct (read_csv_if_exists_ret d1 d2 found2 E2) as (Hc2 & Hp2 & Hf2 & _).
  rewrite Hc1 in Hf2.
  destruct (SimpleRegister.disk_to_csv _ d2) as [[[]|ex] d3] eqn:E3;
    [|discriminate H].
  destruct (disk_to_csv_ret _ d2 d3 E3) as (Hc3 & Hp3).
  destruct (SimpleRegister.load_if_exists d3) as [[encs|ex] d4] eqn:E4;
    [|discriminate H].
  destruct (load_if_exists_ret d3 d4 encs E4) as (Hencs & Hc4 & Hp4).
  destruct (SimpleRegister.disk_dump _ d4) as [[[]|ex] d5] eqn:E5;
    [|discriminate H].
  destruct (disk_dump_ret _ d4 d5 E5) as (Hp5 & Hc5).
  injection H as Hpid <-.
  rewrite Hpid in Hc3, Hp5.
  assert (Hid : pid = next_id_of (infer (rows_of (SimpleRegister.csv d)))).
  { rewrite <- Hpid, Hf1. destruct (SimpleRegister.csv d) as [|t|]; reflexivity. }
  split; [exact Hid|].
  rewrite Hc5, Hc4, Hc3, Hp5, Hencs, Hp3, Hp2, Hp1, Hf2.
  split; [|reflexivity].
  destruct (SimpleRegister.csv d) as [|t|]; cbn [rows_of].
  - f_equal. exact (render_new_row [] pid r).
  - rewrite render_new_row. reflexivity.
  - f_equal. exact (render_new_row [] pid r).
Qed.

(** X18. [save_person_data] of simple_register.py returns an id only when
    the row and the encoding are both written: the table file is the table
    as pandas rewrites it followed by the new row, whose id, as long as the
    ids of the table leave room for one more, is above every id of the
    table, and the encodings file holds the encoding under that id and
    every other entry it held before.  With no failing file operation, and
    no file cut short, it does return an id. *)
Theorem save_person_data_durable (r : PersonData) (e : encoding)
    (d : SimpleRegister.Disk) :
  (forall pid d',
     SimpleRegister.save_person_data r e d = (Some pid, d') ->
     SimpleRegister.csv d'
       = Holds (rewritten (rows_of (SimpleRegister.csv d)) ++ [mkRow pid r]) /\
     pid = next_id_of (rows_of (SimpleRegister.csv d)) /\
     (room_for 1 (rows_of (SimpleRegister.csv d)) ->
      forall x, In x (rows_of (SimpleRegister.csv d)) -> (id x < pid)%Z) /\
     exists encs,
       SimpleRegister.pkl d' = Holds encs /\
       dict_get pid encs = Some e /\
       forall k, k <> pid -> dict_get k encs = dict_get k (dict_of (SimpleRegister.pkl d))) /\
  (SimpleRegister.failing d = [] ->
   SimpleRegister.csv d <> Cut -> SimpleRegister.pkl d <> Cut ->
   exists pid d', SimpleRegister.save_person_data r e d = (Some pid, d')).
Proof.
  split.
  - intros pid d' H. unfold SimpleRegister.save_person_data in H.
    destruct (SimpleRegister.save_body r e d) as [[pid0|ex] d0] eqn:Ebody;
      [|discriminate H].
    injection H as -> ->.
    destruct (save_body_ret r e d d' pid Ebody) as (Hpid & Hcsv & Hpkl).
    assert (Hpid' : pid = next_id_of (rows_of (SimpleRegister.csv d))).
    { rewrite Hpid. apply next_id_of_ids. apply map_id_infer. }
    split; [exact Hcsv|]. split; [exact Hpid'|]. split.
    + intros Hroom x Hx. rewrite Hpid'. apply next_id_above; assumption.
    + exists (dict_set pid e (dict_of (SimpleRegister.pkl d))).
      split; [exact Hpkl|]. split; [apply dict_get_set_same|].
      intros k Hk. apply dict_get_set_other. assumption.
  - intros Hf Hc Hp. destruct d as [csv0 pkl0 fl0 out0]. cbn in Hf, Hc, Hp. subst fl0.
    unfold SimpleRegister.save_person_data, SimpleRegister.save_body,
      SimpleRegister.read_csv_if_exists, SimpleRegister.disk_to_csv,
      SimpleRegister.load_if_exists, SimpleRegister.disk_dump, SimpleRegister.disk_op.
    destruct csv0 as [|t|]; [| |contradiction];
      destruct pkl0 as [|encs0|]; try contradiction; cbn;
      eexists; eexists; reflexivity.
Qed.

Lemma save_person_data_durable_witness :
  SimpleRegister.save_person_data bela [3; 4]%R disk_one_person
    = (Some 2%Z,
       SimpleRegister.mkDisk
         (Holds [mkRow 1 (mkPerson "Asha" "CS" "R1" "asha@example.org" ""
                                   "2024-01-01 10:00:00")%string;
                 mkRow 2 bela])
         (Holds [(1%Z, [0; 0]%R); (2%Z, [3; 4]%R)]) [] []) /\
  room_for 1 (rows_of (SimpleRegister.csv disk_one_person)) /\
  forall x, In x (rows_of (SimpleRegister.csv disk_one_person)) -> (id x < 2)%Z.
Proof.
  assert (H : SimpleRegister.save_person_data bela [3; 4]%R disk_one_person
              = (Some 2%Z,
                 SimpleRegister.mkDisk
                   (Holds [mkRow 1 (mkPerson "Asha" "CS" "R1" "asha@example.org" ""
                                             "2024-01-01 10:00:00")%string;
                           mkRow 2 bela])
                   (Holds [(1%Z, [0; 0]%R); (2%Z, [3; 4]%R)]) [] []))
    by (vm_compute; reflexivity).
  assert (Hroom : room_for 1 (rows_of (SimpleRegister.csv disk_one_person))).
  { intros x [<- | []]. split; [apply Z.leb_le | apply Z.ltb_lt]; reflexivity. }
  split; [exact H|]. split; [exact Hroom|].
  destruct (proj1 (save_person_data_durable bela [3; 4]%R disk_one_person) _ _ H)
    as (_ & _ & Hgt & _).
  exact (Hgt Hroom).
Defined.

(** ** web_deploy.py: the shared camera *)

Lemma get_frames_initialised (calls : list (bool * bool * Frame)) (handle : bool) :
  snd (fst (get_frames calls (Some handle))) = Some handle /\
  snd (get_frames calls (Some handle)) = [] /\
  (handle = false ->
   Forall (fun f => f = None) (fst (fst (get_frames calls (Some handle))))).
Proof.
  induction calls as [|[[opens read_ok] frame] rest (IH1 & IH2 & IH3)]; simpl.
  - repeat split. intros _. constructor.
  - destruct handle; [destruct read_ok|]; simpl;
      destruct (get_frames rest (Some _)) as [[fs camera2] trace2];
      simpl in *; subst camera2 trace2;
      (split; [reflexivity | split; [reflexivity|]]);
      try (intros H; discriminate).
    intros _. constructor; [reflexivity | auto].
Qed.

(** X20. The camera of web_deploy.py is opened by the first [get_frame] and
    by no later one, and it is never released.  When that first open fails,
    every frame is [None] from then on, also once the camera would open. *)
Theorem web_camera_opened_once (opens read_ok : bool) (frame : Frame)
    (rest : list (bool * bool * Frame)) :
  snd (get_frames ((opens, read_ok, frame) :: rest) None) = [Open 0 opens] /\
  snd (fst (get_frames ((opens, read_ok, frame) :: rest) None)) = Some opens /\
  (opens = false ->
   Forall (fun f => f = None)
          (fst (fst (get_frames ((opens, read_ok, frame) :: rest) None)))).
Proof.
  destruct (get_frames_initialised rest opens) as (H1 & H2 & H3).
  destruct opens; [destruct read_ok|]; simpl;
    destruct (get_frames rest (Some _)) as [[fs camera2] trace2];
    simpl in *; subst camera2 trace2;
    (split; [reflexivity | split; [reflexivity|]]);
    try (intros H; discriminate).
  intros _. constructor; [reflexivity | auto].
Qed.

(** ** data_manager.py: capture *)

Lemma data_manager_capture_loop_release (fuel : nat) (ticks : nat -> Register.Tick)
    (i : nat) :
  match DataManagerCapture.capture_loop fuel ticks i with
  | (DataManagerCapture.Encoding _, trace) => trace = [Release 0]
  | (DataManagerCapture.Nothing, trace) => trace = [Release 0]
  | (DataManagerCapture.Escaped _, trace) => trace = []
  | (DataManagerCapture.Capturing, trace) => trace = []
  end.
Proof.
  revert i. induction fuel as [|fuel IH]; intros i; simpl; [reflexivity|].
  destruct (Register.read_ok (ticks i)); simpl; [|reflexivity].
  destruct (Register.locations (ticks i)) as [locs|ex]; [|reflexivity].
  destruct (Register.key (ticks i) =? 32)%Z.
  - destruct locs as [|loc locs]; [apply IH|].
    destruct (Register.encs (ticks i)) as [[|e es]|ex]; [apply IH | reflexivity..].
  - destruct (Register.key (ticks i) =? 27)%Z; [reflexivity | apply IH].
Qed.

(** X21. [_capture_from_webcam] of data_manager.py opens index 0 only.  The
    camera is released when it returns, with an encoding or with [None];
    when detection or encoding raises, the exception escapes and the camera
    is left open. *)
Theorem data_manager_capture_release (cams : Z -> bool) (fuel : nat)
    (ticks : nat -> Register.Tick) :
  cams 0%Z = true ->
  match DataManagerCapture._capture_from_webcam cams fuel ticks with
  | (DataManagerCapture.Encoding _, trace) => trace = [Open 0 true; Release 0]
  | (DataManagerCapture.Nothing, trace) => trace = [Open 0 true; Release 0]
  | (DataManagerCapture.Escaped _, trace) => trace = [Open 0 true]
  | (DataManagerCapture.Capturing, trace) => trace = [Open 0 true]
  end.
Proof.
  intros Hc. unfold DataManagerCapture._capture_from_webcam. rewrite Hc. simpl.
  pose proof (data_manager_capture_loop_release fuel ticks 0) as H.
  destruct (DataManagerCapture.capture_loop fuel ticks 0) as [[e| |ex|] trace];
    rewrite H; reflexivity.
Qed.

Lemma data_manager_capture_release_witness :
  (fun _ : Z => true) 0%Z = true /\
  DataManagerCapture._capture_from_webcam (fun _ => true) 5 detection_raises
    = (DataManagerCapture.Escaped ValueError, [Open 0 true]).
Proof.
  split; [reflexivity|].
  pose proof (data_manager_capture_release (fun _ => true) 5 detection_raises eq_refl)
    as H.
  destruct (DataManagerCapture._capture_from_webcam (fun _ => true) 5 detection_raises)
    as [[e| |ex|] trace] eqn:E; try discriminate E.
  rewrite H. injection E as -> _. reflexivity.
Defined.

(** ** register.py: the registration dialogue *)

Lemma is_empty_false (x : string) :
  RegisterFlow.is_empty x = false -> x <> EmptyString.
Proof. destruct x; [discriminate|]. intros _ H. discriminate H. Qed.

Lemma try_cameras_opens (cams : Z -> bool) (feed : Z -> nat -> Register.Tick)
    (i : Z) (rest : list Z) :
  snd (Register.try_cameras cams feed (i :: rest)) <> [].
Proof.
  cbn [Register.try_cameras].
  pose proof (capture_from_webcam_trace cams feed i) as Ht.
  destruct (Register.capture_from_webcam cams feed i) as [[[r out] n] trace].
  cbn [snd] in Ht. subst trace.
  destruct r as [e|]; [cbn [snd]; intros H; discriminate H|].
  destruct (Register.try_cameras cams feed rest) as [[r' out'] trace'].
  cbn [snd app]. intros H. discriminate H.
Qed.

Lemma capture_face_encoding_opens (cams : Z -> bool) (feed : Z -> nat -> Register.Tick) :
  snd (Register.capture_face_encoding cams feed) <> [].
Proof. apply try_cameras_opens. Qed.

Lemma init_then_add_durable (r : PersonData) (e : encoding) (s : State) (pid : Z)
    (s' : State) :
  (DataManager.__init__ ;;; DataManager.add_person r e) s = (Ret pid, s') ->
  (exists t, csv_file s' = Holds t /\ In (mkRow pid r) t) /\
  exists d, pkl_file s' = Holds d /\ dict_get pid d = Some e.
Proof.
  unfold bind at 1. destruct (DataManager.__init__ s) as [[u|ex] s0]; [|discriminate].
  intros H. destruct (add_person_durable r e s0 pid s' H) as (Hcsv & Hpkl & _).
  split.
  - eexists. split; [exact Hcsv|]. apply in_or_app. right. left. reflexivity.
  - eexists. split; [exact Hpkl|]. apply dict_get_set_same.
Qed.

(** X22. [register_person] of register.py returns [True] only when the row
    of the person, with the name, class and roll number typed, none of them
    empty, is in the table, and the captured encoding is in the encodings
    file.  When no camera was touched (a field was missing, the input was
    closed, or the confirmation was not [y]) it returns [False] and the
    store is as before. *)
Theorem register_person_outcome (strip lower : string -> string) (now : string)
    (cams : Z -> bool) (feed : Z -> nat -> Register.Tick)
    (c : RegisterFlow.Console) (s : State) :
  let o := RegisterFlow.register_person strip lower now cams feed c s in
  (RegisterFlow.ok o = true ->
   exists person_data pid e,
     RegisterFlow.printed o = [RegistrationSuccessful pid] /\
     fst (fst (Register.capture_face_encoding cams feed)) = Some e /\
     (exists t, csv_file (RegisterFlow.state o) = Holds t /\
                In (mkRow pid person_data) t) /\
     (exists d, pkl_file (RegisterFlow.state o) = Holds d /\ dict_get pid d = Some e) /\
     name person_data <> EmptyString /\
     class_name person_data <> EmptyString /\
     roll_number person_data <> EmptyString /\
     registration_date person_data = now) /\
  (RegisterFlow.cameras o = [] ->
   RegisterFlow.ok o = false /\ RegisterFlow.state o = s).
Proof.
  cbv zeta. unfold RegisterFlow.register_person, RegisterFlow.get_person_details.
  generalize (capture_face_encoding_opens cams feed).
  generalize (Register.capture_face_encoding cams feed).
  intros [[captured out] trace] Hopens. cbn [snd fst] in *.
  destruct c as [|l1 c]; cbn [RegisterFlow.input];
    [split; [discriminate | auto]|].
  destruct (RegisterFlow.is_empty (strip l1)) eqn:E1; [split; [discriminate | auto]|].
  destruct c as [|l2 c]; cbn [RegisterFlow.input];
    [split; [discriminate | auto]|].
  destruct (RegisterFlow.is_empty (strip l2)) eqn:E2; [split; [discriminate | auto]|].
  destruct c as [|l3 c]; cbn [RegisterFlow.input];
    [split; [discriminate | auto]|].
  destruct (RegisterFlow.is_empty (strip l3)) eqn:E3; [split; [discriminate | auto]|].
  destruct c as [|l4 c]; cbn [RegisterFlow.input];
    [split; [discriminate | auto]|].
  destruct c as [|l5 c]; cbn [RegisterFlow.input];
    [split; [discriminate | auto]|].
  destruct c as [|l6 c]; cbn [RegisterFlow.input];
    [split; [discriminate | auto]|].
  destruct (strip (lower l6) =? "y")%string; cbn [negb];
    [|split; [discriminate | auto]].
  destruct c as [|l7 c]; cbn [RegisterFlow.input];
    [split; [discriminate | auto]|].
  destruct captured as [e|].
  2:{ split; [discriminate|]. cbn [RegisterFlow.cameras]. intros H. contradiction. }
  destruct ((DataManager.__init__ ;;;
             DataManager.add_person
               (mkPerson (strip l1) (strip l2) (strip l3) (strip l4) (strip l5) now) e) s)
    as [[pid|ex] s'] eqn:Eadd.
  - split.
    + intros _. cbn [RegisterFlow.printed RegisterFlow.state].
      destruct (init_then_add_durable _ _ _ _ _ Eadd) as (Hrow & Hpkl).
      exists (mkPerson (strip l1) (strip l2) (strip l3) (strip l4) (strip l5) now), pid, e.
      cbn [name class_name roll_number registration_date].
      repeat (split; [first [reflexivity | assumption
                            | apply is_empty_false; assumption]|]).
      reflexivity.
    + cbn [RegisterFlow.cameras]. intros H. contradiction.
  - split; [discriminate|]. cbn [RegisterFlow.cameras]. intros H. contradiction.
Qed.

(** The dialogue run on ASCII text: the fields are stripped, [Y] confirms. *)
Example register_person_typed :
  let o := RegisterFlow.register_person ascii_strip ascii_lower
             "2024-01-01 10:00:00" only_camera_1 press_space typed_registration
             store_empty in
  RegisterFlow.ok o = true /\
  csv_file (RegisterFlow.state o)
    = Holds [mkRow 1 (mkPerson "Asha" "CS" "R1" "" "555" "2024-01-01 10:00:00")%string] /\
  pkl_file (RegisterFlow.state o) = Holds [(1%Z, [0; 0]%R)] /\
  RegisterFlow.cameras o = [Open 0 false; Release 0; Open 1 true; Release 1].
Proof. repeat split. Qed.

(** ** Partial writes and their consequences *)

(** [DataManager.add_person] on a readable store, by the first file
    operation that fails: the third (the table cannot be opened), the
    fourth (the table is opened and the write fails), the fifth (the
    encodings file cannot be opened) or the sixth (it is opened and the
    dump fails). *)
Lemma add_person_faults (r : PersonData) (e : encoding) (t : CsvText)
    (pkl : File Dict) (enc : Dict) (out : list Msg) :
  let pid := next_id_of (infer t) in
  let t' := rewritten t ++ [mkRow pid r] in
  DataManager.add_person r e (mkState (Holds t) pkl enc [false; false; true] out)
    = (Raise IOError, mkState (Holds t) pkl enc [] out) /\
  DataManager.add_person r e
      (mkState (Holds t) pkl enc [false; false; false; true] out)
    = (Raise IOError, mkState Cut pkl enc [] out) /\
  DataManager.add_person r e
      (mkState (Holds t) pkl enc [false; false; false; false; true] out)
    = (Raise IOError, mkState (Holds t') pkl (dict_set pid e enc) [] out) /\
  DataManager.add_person r e
      (mkState (Holds t) pkl enc [false; false; false; false; false; true] out)
    = (Raise IOError, mkState (Holds t') Cut (dict_set pid e enc) [] out).
Proof.
  cbv zeta. unfold rewritten. rewrite <- render_new_row.
  unfold DataManager.add_person, DataManager.get_next_id, DataManager._save_encodings,
    open_wb, pickle_dump, to_csv, bind, read_csv, file_op.
  simpl. destruct (infer t) eqn:E; unfold ret; simpl; rewrite ?E; auto.
Qed.

(** After a row is added under the next id, the next id is one more. *)
Lemma next_id_after_add (t : CsvText) (r : PersonData) :
  room_for 2 t ->
  let pid := next_id_of t in
  (forall x, In x t -> (id x < pid)%Z) /\
  next_id_of (infer (rewritten t ++ [mkRow pid r])) = (pid + 1)%Z.
Proof.
  intros Hroom pid.
  assert (Hroom1 : room_for 1 t) by (apply (room_for_less 2); [lia | assumption]).
  assert (Hgt : forall x, In x t -> (id x < pid)%Z).
  { intros x Hx. apply next_id_above; assumption. }
  split; [exact Hgt|].
  destruct (next_id_of_room t 1 Hroom) as (Hlo & Hhi);
    [apply Z.ltb_lt; reflexivity|]. fold pid in Hlo, Hhi.
  apply next_id_of_max; [|unfold int64; lia].
  rewrite map_id_infer. unfold rewritten.
  rewrite map_app, map_id_render, map_id_infer. split.
  - apply in_or_app. right. left. reflexivity.
  - intros x Hx. apply in_app_or in Hx. destruct Hx as [Hx | [<- | []]].
    + apply in_map_iff in Hx. destruct Hx as (y & <- & Hy).
      specialize (Hgt y Hy). lia.
    + cbn [id]. lia.
Qed.

(** X23. [DataManager.add_person] is not atomic.  On a table that can be
    read: when the table file cannot be opened for writing it raises with
    the table, the encodings file and the dict as they were; when the write
    of the table fails once the file is opened, it raises and leaves the
    table file empty, so that reading it raises from then on.  When the
    encodings file cannot be opened, or its dump fails, it raises too, but
    the row is in the table and the dict in memory (and so
    [get_person_count]) has the encoding; the encodings file is as it was
    in the first case and empty in the second, where the next
    [DataManager()] raises; the id is used up: as long as the ids leave
    room, [get_next_id] then returns the next one. *)
Theorem add_person_partial_failure (r : PersonData) (e : encoding) (s : State) :
  readable s ->
  (faults s = [false; false; true] ->
   exists s',
     DataManager.add_person r e s = (Raise IOError, s') /\ same_store s s') /\
  (faults s = [false; false; false; true] ->
   exists s',
     DataManager.add_person r e s = (Raise IOError, s') /\
     csv_file s' = Cut /\ pkl_file s' = pkl_file s /\ encodings s' = encodings s /\
     fst (DataManager.get_next_id s') = Raise EmptyDataError) /\
  (faults s = [false; false; false; false; true] \/
   faults s = [false; false; false; false; false; true] ->
   exists pid s',
     DataManager.add_person r e s = (Raise IOError, s') /\
     csv_file s' = Holds (rewritten (lines s) ++ [mkRow pid r]) /\
     encodings s' = dict_set pid e (encodings s) /\
     fst (DataManager.get_person_count s')
       = Ret (List.length (dict_set pid e (encodings s))) /\
     (faults s = [false; false; false; false; true] -> pkl_file s' = pkl_file s) /\
     (faults s = [false; false; false; false; false; true] ->
      pkl_file s' = Cut /\ fst (DataManager.__init__ s') = Raise EOFError) /\
     (room_for 2 (lines s) ->
      (forall x, In x (lines s) -> (id x < pid)%Z) /\
      fst (DataManager.get_next_id s') = Ret (pid + 1)%Z)).
Proof.
  intros Hread. destruct s as [csv0 pkl0 enc0 fl0 out0].
  unfold readable, lines in Hread. cbn in Hread.
  destruct csv0 as [|t|]; try discriminate Hread. clear Hread.
  destruct (add_person_faults r e t pkl0 enc0 out0) as (H3 & H4 & H5 & H6).
  cbv zeta in H5, H6.
  assert (Hid : next_id_of (infer t) = next_id_of t).
  { apply next_id_of_ids. apply map_id_infer. }
  rewrite Hid in H5, H6.
  assert (Hnext : forall pkl',
            room_for 2 t ->
            (forall x, In x t -> (id x < next_id_of t)%Z) /\
            fst (DataManager.get_next_id
                   (mkState (Holds (rewritten t ++ [mkRow (next_id_of t) r])) pkl'
                            (dict_set (next_id_of t) e enc0) [] out0))
              = Ret (next_id_of t + 1)%Z).
  { intros pkl' Hroom. destruct (next_id_after_add t r Hroom) as (Hgt & Hn).
    split; [exact Hgt|].
    match goal with
    | |- fst (DataManager.get_next_id ?s1) = _ =>
        destruct (get_next_id_next_ok s1 eq_refl eq_refl) as (-> & _)
    end.
    f_equal. exact Hn. }
  cbn [faults lines csv_file rows_of pkl_file encodings].
  split; [|split].
  - intros ->. eexists. split; [exact H3|]. repeat split.
  - intros ->. eexists. split; [exact H4|]. repeat split.
  - intros [-> | ->]; exists (next_id_of t); eexists.
    + split; [exact H5|]. cbn [csv_file pkl_file encodings].
      split; [reflexivity|]. split; [reflexivity|]. split; [reflexivity|].
      split; [reflexivity|]. split; [intros H; discriminate H|]. apply Hnext.
    + split; [exact H6|]. cbn [csv_file pkl_file encodings].
      split; [reflexivity|]. split; [reflexivity|]. split; [reflexivity|].
      split; [intros H; discriminate H|].
      split; [intros _; split; reflexivity|]. apply Hnext.
Qed.

Lemma add_person_partial_failure_witness :
  readable store_dump_fails /\
  exists pid s',
    DataManager.add_person asha [0; 1]%R store_dump_fails = (Raise IOError, s') /\
    csv_file s' = Holds [mkRow pid asha] /\
    pkl_file s' = Cut /\
    fst (DataManager.__init__ s') = Raise EOFError /\
    fst (DataManager.get_next_id s') = Ret (pid + 1)%Z.
Proof.
  split; [reflexivity|].
  destruct (add_person_partial_failure asha [0; 1]%R store_dump_fails eq_refl)
    as (_ & _ & H).
  destruct (H (or_intror eq_refl))
    as (pid & s' & Hadd & Hcsv & _ & _ & _ & Hcut & Hnext).
  exists pid, s'. split; [exact Hadd|]. split; [exact Hcsv|].
  split; [exact (proj1 (Hcut eq_refl))|]. split; [exact (proj2 (Hcut eq_refl))|].
  apply Hnext. intros x [].
Defined.

(** X24. An encoding without a row shifts the names of recognize.py: when
    the first encoding of the dict has no row in the table and the second
    has one, the recognizer loaded from that store answers the face of the
    first, at distance 0, with the name, class and roll number on the row of
    the second. *)
Theorem orphan_encoding_shifts_names (tol : R) (s : State) (p0 p1 : Z)
    (e0 e1 : encoding) (rest : Dict) (row1 : Row Cell) :
  reliable s ->
  (0 <= tol)%R ->
  encodings s = (p0, e0) :: (p1, e1) :: rest ->
  select_id p0 (table s) = None ->
  select_id p1 (table s) = Some row1 ->
  recognize_face (fst (load_known_faces (FaceRecognizer.mk tol [] [] [] [] []) s)) e0
    = Ret (name (details row1), class_name (details row1),
           roll_number (details row1), 1%R).
Proof.
  intros Hrel Htol Henc H0 H1.
  assert (Hne : encodings s <> []) by (rewrite Henc; discriminate).
  assert (Hread : readable s).
  { apply (table_row_readable s p1). rewrite H1. discriminate. }
  rewrite (load_known_faces_loaded _ s Hrel Hread Hne). cbv zeta.
  rewrite Henc. cbn [map fst snd found_rows app known_names known_classes
                     known_roll_numbers tolerance].
  rewrite H0, H1. cbn [map].
  rewrite (recognize_face_at _ e0 0 0%R (name (details row1))
             (class_name (details row1)) (roll_number (details row1))).
  - cbn [tolerance]. replace (Rleb 0 tol) with true
      by (symmetry; apply Rleb_true; assumption).
    do 2 f_equal. ring.
  - cbn [known_encodings]. unfold face_distance. repeat split.
    + simpl. rewrite euclidean_self. reflexivity.
    + intros j dj Hj. apply nth_error_In in Hj. apply in_map_iff in Hj.
      destruct Hj as (e' & <- & _). apply euclidean_nonneg.
    + intros j dj Hj. lia.
  - reflexivity.
  - reflexivity.
  - reflexivity.
Qed.

Lemma orphan_encoding_shifts_names_witness :
  reliable store_first_orphan /\ (0 <= 6 / 10)%R /\
  recognize_face (fst (load_known_faces fresh_recognizer store_first_orphan)) [0; 0]%R
    = Ret (Str "Bela", Str "EE", Str "R2", 1%R).
Proof.
  split; [reflexivity|]. split; [lra|].
  exact (orphan_encoding_shifts_names (6 / 10)%R store_first_orphan 1 2
           [0; 0]%R [10; 10]%R []
           (mkRow 2 (mkPerson (Str "Bela") (Str "EE") (Str "R2") NaN
                              (Int 555) (Str "2024-01-02 11:00:00")))
           eq_refl ltac:(lra) eq_refl eq_refl eq_refl).
Defined.


(** X25. An encoding without a row can end the interactive loop: when the
    table can be read and the last encoding of the dict has no row in it
    while all the others have one, the face at distance 0 from it, and
    from no other, makes [recognize_faces_in_frame] raise [IndexError],
    which no clause of [run_recognition] catches: the loop is left on the
    first frame that is processed with this face in it. *)
Theorem orphan_encoding_ends_loop (tol : R) (s : State) (front : Dict) (p : Z)
    (e : encoding) (box : Box) (ticks : nat -> FaceRecognizer.Tick) (fuel : nat) :
  reliable s ->
  readable s ->
  (0 <= tol)%R ->
  encodings s = front ++ [(p, e)] ->
  (forall q, In q (map fst front) -> select_id q (table s) <> None) ->
  select_id p (table s) = None ->
  (forall e', In e' (map snd front) -> euclidean e' e <> 0%R) ->
  interrupt (ticks 0%nat) = false ->
  read_ok (ticks 0%nat) = true ->
  frame (ticks 0%nat) = [(box, e)] ->
  let self := fst (load_known_faces (FaceRecognizer.mk tol [] [] [] [] []) s) in
  recognize_face self e = Raise IndexError /\
  recognition_loop (S fuel) ticks 0 (FaceRecognizer.mkSession self s 0 [])
    = Exited (Uncaught IndexError) (FaceRecognizer.mkSession self s 0 []).
Proof.
  intros Hrel Hread Htol Henc Hfront Hp Hfar Hi Hr Hf self.
  assert (Hne : encodings s <> []).
  { rewrite Henc. intros H. apply app_eq_nil in H. destruct H as (_ & H). discriminate. }
  assert (Hself : self =
            let found := found_rows (map fst (encodings s)) (table s) in
            FaceRecognizer.mk tol (map snd (encodings s)) (map fst (encodings s))
              (map (fun row => name (details row)) found)
              (map (fun row => class_name (details row)) found)
              (map (fun row => roll_number (details row)) found)).
  { subst self. rewrite (load_known_faces_loaded _ s Hrel Hread Hne). reflexivity. }
  cbv zeta in Hself.
  set (k := List.length front).
  assert (Hfound : List.length (found_rows (map fst (encodings s)) (table s)) = k).
  { rewrite Henc, map_app. simpl.
    clear - Hfront Hp. subst k. induction front as [|[q eq] front IH]; simpl.
    - rewrite Hp. reflexivity.
    - destruct (select_id q (table s)) eqn:Eq.
      + simpl. f_equal. apply IH. intros q' Hq'. apply Hfront. right. assumption.
      + exfalso. apply (Hfront q); [left; reflexivity | assumption]. }
  assert (Hmin : first_min (face_distance (map snd (encodings s)) e) k 0%R).
  { unfold face_distance. rewrite Henc, !map_app. simpl. repeat split.
    - rewrite nth_error_app2 by (rewrite !length_map; subst k; lia).
      rewrite !length_map. subst k. rewrite Nat.sub_diag. simpl.
      rewrite euclidean_self. reflexivity.
    - intros j dj Hj. apply nth_error_In in Hj.
      apply in_app_or in Hj. destruct Hj as [Hj | [<- | []]].
      + apply in_map_iff in Hj. destruct Hj as (e' & <- & _). apply euclidean_nonneg.
      + apply euclidean_nonneg.
    - intros j dj Hjk Hj.
      rewrite nth_error_app1 in Hj by (rewrite !length_map; subst k; lia).
      apply nth_error_In in Hj. apply in_map_iff in Hj.
      destruct Hj as (e' & <- & He').
      pose proof (euclidean_nonneg e' e). specialize (Hfar e' He'). lra. }
  assert (Hraise : recognize_face self e = Raise IndexError).
  { rewrite Hself.
    rewrite recognize_face_body
      by (cbn [known_encodings]; intros H; apply map_eq_nil in H; contradiction).
    cbv zeta. cbn [known_encodings tolerance known_names].
    pose proof Hmin as (Hk & _).
    assert (Hm : nth_error (compare_faces (map snd (encodings s)) e tol) k
                 = Some (Rleb 0 tol)).
    { unfold compare_faces. rewrite nth_error_map, Hk. reflexivity. }
    replace (Rleb 0 tol) with true in Hm by (symmetry; apply Rleb_true; assumption).
    rewrite True_in_true by (eapply nth_error_In; eassumption).
    rewrite (argmin_is_first_min _ _ _ Hmin). simpl.
    unfold py_index at 1. rewrite Hm. unfold py_index at 1. rewrite Hk.
    cbn [obind].
    assert (Hnone : nth_error (map (fun row => name (details row))
                                   (found_rows (map fst (encodings s)) (table s))) k
                    = None).
    { apply nth_error_None. rewrite length_map, Hfound. lia. }
    unfold py_index at 1. rewrite Hnone. reflexivity. }
  split; [assumption|].
  cbn [recognition_loop]. rewrite Hi, Hr, Hf. cbn [negb frame_count recognizer].
  change (0 mod 2 =? 0)%nat with true. cbn iota.
  unfold recognize_faces_in_frame. cbn [face_encodings map snd recognize_all].
  rewrite Hraise. reflexivity.
Qed.

Lemma orphan_encoding_ends_loop_witness :
  reliable store_orphan_encoding /\ readable store_orphan_encoding /\
  (0 <= 6 / 10)%R /\
  recognize_face (fst (load_known_faces fresh_recognizer store_orphan_encoding)) [0; 0]%R
    = Raise IndexError /\
  recognition_loop 3 orphan_in_view 0
    (FaceRecognizer.mkSession
       (fst (load_known_faces fresh_recognizer store_orphan_encoding))
       store_orphan_encoding 0 [])
  = Exited (Uncaught IndexError)
      (FaceRecognizer.mkSession
         (fst (load_known_faces fresh_recognizer store_orphan_encoding))
         store_orphan_encoding 0 []).
Proof.
  split; [reflexivity|]. split; [reflexivity|]. split; [lra|].
  apply (orphan_encoding_ends_loop (6 / 10)%R store_orphan_encoding [] 1 [0; 0]%R
           (10, 20, 30, 40)%Z orphan_in_view 2).
  - reflexivity.
  - reflexivity.
  - lra.
  - reflexivity.
  - intros q [].
  - reflexivity.
  - intros e' [].
  - reflexivity.
  - reflexivity.
  - reflexivity.
Defined.

(** ** Names that pandas does not read as text *)

(** X26. A name that [read_csv] does not read as text takes the overlay of
    web_deploy.py away.  In a store whose only row has the name [2024],
    read as an integer, a frame whose first face is the enrolled one gets
    the rectangle of its first box and no text: [cv2.putText] raises on the
    integer, [Recognition error] is printed and the other boxes and faces
    are not drawn.  recognize.py answers the same face with the integer as
    its name. *)
Theorem web_numeric_name_no_label (box : Box) (more : Frame) :
  select_id 1 (table store_numeric_name)
    = Some (mkRow 1 (mkPerson (Int 2024) (Str "CS") (Str "R1") NaN NaN
                              (Str "2024-01-01 10:00:00"))) /\
  WebDeploy.name_for [[0; 0]%R] [1%Z] [0; 0]%R store_numeric_name
    = (Ret (Int 2024), store_numeric_name) /\
  WebDeploy.recognize_faces_in_frame ((box, [0; 0]%R) :: more) store_numeric_name
    = ([(scale_up box, EmptyString)], say RecognitionError store_numeric_name) /\
  recognize_face
    (fst (load_known_faces fresh_recognizer store_numeric_name)) [0; 0]%R
    = Ret (Int 2024, Str "CS", Str "R1", 1%R).
Proof.
  assert (Hmin : first_min (face_distance [[0; 0]%R] [0; 0]%R) 0 0%R).
  { unfold face_distance. cbn [map]. rewrite euclidean_zero. repeat split.
    - intros [|j] dj Hj; simpl in Hj;
        [injection Hj as <-; lra | destruct j; discriminate].
    - intros j dj Hj. lia. }
  assert (Hname : WebDeploy.name_for [[0; 0]%R] [1%Z] [0; 0]%R store_numeric_name
                  = (Ret (Int 2024), store_numeric_name)).
  { rewrite (name_for_reliable [[0; 0]%R] [1%Z] [0; 0]%R store_numeric_name 0 0%R 1
               eq_refl eq_refl Hmin eq_refl).
    rewrite Rleb_0_tol. reflexivity. }
  split; [reflexivity|]. split; [exact Hname|]. split.
  - unfold WebDeploy.recognize_faces_in_frame, DataManager.get_all_encodings.
    cbn [encodings store_numeric_name map fst snd face_encodings face_locations
         WebDeploy.draw_faces].
    match goal with
    | |- context [WebDeploy.name_for ?a ?b ?c ?d] =>
        change (WebDeploy.name_for a b c d)
          with (WebDeploy.name_for [[0; 0]%R] [1%Z] [0; 0]%R store_numeric_name)
    end.
    rewrite Hname. reflexivity.
  - rewrite (load_known_faces_loaded _ store_numeric_name eq_refl eq_refl)
      by discriminate.
    rewrite (recognize_face_at _ [0; 0]%R 0 0%R (Int 2024) (Str "CS") (Str "R1"));
      try reflexivity; [|exact Hmin].
    cbn [tolerance fresh_recognizer]. rewrite Rleb_0_tol. do 2 f_equal. ring.
Qed.
